(** * compression-webpack-plugin: a shallow embedding of [src/index.js]

    The development follows the source file top to bottom: the values the
    plugin exchanges with its host (webpack, zlib, the cache), the
    constructor, the relation-name derivation, the candidate selection of
    [compress], the per-asset task with its suspension points, and the
    join of all tasks.  Calls into the host are recorded as effects and
    interpreted over an explicit compilation state. *)

From Stdlib Require Import ZArith String Ascii List Bool Lia.
From Stdlib Require Import Floats.
From stdpp Require Import base option list gmap strings.
Import ListNotations.

Set Default Proof Using "Type".
Set Warnings "-register-all".
Local Open Scope Z_scope.

(** ** JavaScript data *)

(** A Node [Buffer]: a sequence of bytes. *)
Definition Buffer : Type := list Byte.byte.

#[global] Instance byte_eq_dec : EqDecision Byte.byte := Byte.byte_eq_dec.

(** [Buffer.from(string)] for the strings of this model (one byte per
    character). *)
Definition Buffer_from (s : string) : Buffer := list_byte_of_string s.

(** A JavaScript number is a binary64 float; [buffer.length] is an
    integer below 2^53 and converts exactly. *)
Definition number_of_length (n : nat) : float :=
  PrimFloat.of_uint63 (Uint63.of_Z (Z.of_nat n)).

(** Values found in [compressionOptions]. *)
Inductive JSValue : Type :=
| JSUndefined
| JSNull
| JSBool (b : bool)
| JSNumber (n : Z)
| JSString (s : string)
| JSObject (fields : list (string * JSValue)).

Definition JSValue_eq_dec : forall x y : JSValue, {x = y} + {x <> y}.
Proof.
  fix IH 1.
  intros x y; destruct x, y; try (right; discriminate); try (left; reflexivity).
  - destruct (bool_dec b b0); [left; congruence | right; congruence].
  - destruct (Z.eq_dec n n0); [left; congruence | right; congruence].
  - destruct (string_dec s s0); [left; congruence | right; congruence].
  - assert (H : {fields = fields0} + {fields <> fields0}).
    { revert fields0. induction fields as [|[k v] l IHl]; intros [|[k' v'] l'];
        try (right; discriminate); try (left; reflexivity).
      destruct (string_dec k k'); [| right; congruence].
      destruct (IH v v'); [| right; congruence].
      destruct (IHl l'); [left; congruence | right; congruence]. }
    destruct H; [left; congruence | right; congruence].
Defined.

#[global] Instance JSValue_eq_decision : EqDecision JSValue := JSValue_eq_dec.

(** [compressionOptions]: an object used as a map from option names to
    values. *)
Abbreviation CompressionOptions := (gmap string JSValue).

(** A thrown or reported [Error]. *)
Record Error : Type := mkError { message : string }.

#[global] Instance Error_eq_dec : EqDecision Error.
Proof. solve_decision. Defined.

(** The result of evaluating code that may throw. *)
Inductive Completion (A : Type) : Type :=
| Normal (a : A)
| Throw (e : Error).
Arguments Normal {A} a.
Arguments Throw {A} e.

(** Sequencing: what follows runs only after a normal completion. *)
Definition Completion_bind {A B : Type} (m : Completion A) (f : A -> Completion B)
  : Completion B :=
  match m with
  | Normal a => f a
  | Throw e => Throw e
  end.

(** What an algorithm hands to its callback: an error, a [Buffer], or a
    value that is not a [Buffer] (here a string) and goes through
    [Buffer.from].  An algorithm that never calls its callback (a
    synchronous function of [zlib] such as [deflateSync], which returns
    its result instead) leaves the promise of [runCompressionAlgorithm]
    pending for ever; it has no value here, and no property below speaks
    of one. *)
Inductive CallbackResult : Type :=
| CallbackError (error : Error)
| CallbackBuffer (result : Buffer)
| CallbackString (result : string).

(** [AlgorithmFunction]: [(input, options, callback) => void], read as the
    value the callback receives; the same input and options give the same
    value. *)
Definition AlgorithmFunction : Type := Buffer -> CompressionOptions -> CallbackResult.

(** [options.algorithm]: a name looked up in [zlib], or a function.  A
    function carries the text [serialize] prints for it. *)
Inductive Algorithm : Type :=
| AlgorithmName (name : string)
| AlgorithmFn (code : string) (fn : AlgorithmFunction).

(** [options.filename]: a template string, or a function of the path
    data (here the asset's file name), with the text [serialize] prints
    for it. *)
Inductive Filename : Type :=
| FilenameTemplate (template : string)
| FilenameFn (code : string) (fn : string -> string).

(** [options.deleteOriginalAssets]:
    [boolean | "keep-source-map" | (name) => boolean]. *)
Inductive DeleteOriginalAssets : Type :=
| DeleteBool (b : bool)
| DeleteKeepSourceMap
| DeleteFn (fn : string -> bool).

(** A [Rule] is a regular expression or a string; [Rules] is one rule or
    an array of them. *)
Inductive Rule : Type :=
| RuleRegExp (pattern : string)
| RuleString (s : string).

Definition Rules : Type := list Rule.

(** The options object as the caller writes it: every property may be
    missing. *)
Record PluginOptions : Type := mkPluginOptions {
  o_test : option Rules;
  o_include : option Rules;
  o_exclude : option Rules;
  o_algorithm : option Algorithm;
  o_compressionOptions : option CompressionOptions;
  o_filename : option Filename;
  o_threshold : option float;
  o_minRatio : option float;
  o_deleteOriginalAssets : option DeleteOriginalAssets;
}.

(** [InternalPluginOptions]: [this.options] after defaults. *)
Record InternalPluginOptions : Type := mkInternalPluginOptions {
  test : option Rules;
  include : option Rules;
  exclude : option Rules;
  algorithm : Algorithm;
  compressionOptions : CompressionOptions;
  filename : Filename;
  threshold : float;
  minRatio : float;
  deleteOriginalAssets : DeleteOriginalAssets;
}.

(** A plugin instance: [this.options] and the resolved [this.algorithm]. *)
Record CompressionPlugin : Type := mkCompressionPlugin {
  options : InternalPluginOptions;
  this_algorithm : AlgorithmFunction;
}.

(** ** Strings *)

Definition dquote : string := String (ascii_of_nat 34) EmptyString.

(** [s.indexOf(c)] for a one-character needle: the index of the first
    occurrence, or -1. *)
Fixpoint indexOf (s : string) (c : ascii) : Z :=
  match s with
  | EmptyString => -1
  | String a rest =>
      if Ascii.eqb a c then 0
      else let i := indexOf rest c in if i <? 0 then -1 else i + 1
  end.

(** [s.slice(0, index)] for [0 <= index]. *)
Definition slice_to (s : string) (index : Z) : string :=
  substring 0 (Z.to_nat index) s.

(** [s.slice(1)]. *)
Definition slice1 (s : string) : string :=
  match s with
  | EmptyString => EmptyString
  | String _ rest => rest
  end.

(** [needle] occurs in [s]. *)
Fixpoint includes (s needle : string) : bool :=
  String.prefix needle s ||
  match s with
  | EmptyString => false
  | String _ rest => includes rest needle
  end.

(** [/(\[name]|\[base]|\[file])/.test(template)]. *)
Definition has_name_placeholder (template : string) : bool :=
  includes template "[name]" || includes template "[base]" || includes template "[file]".

(** ** The host: what the plugin imports and is handed *)

Class Host : Type := {
  (** [validate(schema, options || {}, ...)] of schema-utils over
      [options.json]: [Some msg] when it throws. *)
  validate : option PluginOptions -> option string;
  (** [zlib[name]]: [None] when the property is missing (falsy).  A
      property that is not a function throws when called, which
      [runCompressionAlgorithm] turns into a rejection like any error of an
      algorithm. *)
  zlib : string -> option AlgorithmFunction;
  (** [path.extname]. *)
  extname : string -> string;
  (** [crypto.createHash("md5").update(text).digest("hex")]. *)
  md5_hex : string -> string;
  (** [ModuleFilenameHelpers.matchObject(options, name)]. *)
  matchObject : InternalPluginOptions -> string -> bool;
  (** [compilation.getPath(filename, { filename: name })]. *)
  getPath : Filename -> string -> string;
}.

(** [zlib.constants]. *)
Definition Z_BEST_COMPRESSION : Z := 9.
Definition BROTLI_PARAM_QUALITY : string := "1".
Definition BROTLI_MAX_QUALITY : Z := 11.

(** ** The constructor *)

(** The table of lines 162-179, indexed by the algorithm name, with
    [|| {}] for a name that is not in it. *)
Definition defaultCompressionOptions (name : string) : CompressionOptions :=
  if String.eqb name "gzip" then {[ "level" := JSNumber Z_BEST_COMPRESSION ]}
  else if String.eqb name "deflate" then {[ "level" := JSNumber Z_BEST_COMPRESSION ]}
  else if String.eqb name "deflateRaw" then {[ "level" := JSNumber Z_BEST_COMPRESSION ]}
  else if String.eqb name "brotliCompress" then
    {[ "params" := JSObject [(BROTLI_PARAM_QUALITY, JSNumber BROTLI_MAX_QUALITY)] ]}
  else ∅.

(** [{ ...defaults, ...custom }]: the keys of [custom] win. *)
Definition spread (defaults custom : CompressionOptions) : CompressionOptions :=
  custom ∪ defaults.

Definition is_brotliCompress (a : option Algorithm) : bool :=
  match a with
  | Some (AlgorithmName name) => String.eqb name "brotliCompress"
  | _ => false
  end.

Definition empty_options : PluginOptions :=
  mkPluginOptions None None None None None None None None None.

(** The default [minRatio], the binary64 value of [0.8]. *)
Definition default_minRatio : float := 0x1.999999999999ap-1%float.

Definition algorithm_not_found (name : string) : Error :=
  mkError ("Algorithm " +:+ dquote +:+ name +:+ dquote +:+ " is not found in "
           +:+ dquote +:+ "zlib" +:+ dquote).

Section Plugin.
Context `{Host}.

Definition constructor (user : option PluginOptions) : Completion CompressionPlugin :=
  match validate user with
  | Some msg => Throw (mkError msg)
  | None =>
      let o := default empty_options user in
      let algorithm := default (AlgorithmName "gzip") (o_algorithm o) in
      let compressionOptions := default ∅ (o_compressionOptions o) in
      let filename :=
        default (FilenameTemplate (if is_brotliCompress (o_algorithm o)
                                   then "[path][base].br" else "[path][base].gz"))
                (o_filename o) in
      let threshold := default 0%float (o_threshold o) in
      let minRatio := default default_minRatio (o_minRatio o) in
      let deleteOriginalAssets := default (DeleteBool false) (o_deleteOriginalAssets o) in
      let options :=
        mkInternalPluginOptions (o_test o) (o_include o) (o_exclude o) algorithm
          compressionOptions filename threshold minRatio deleteOriginalAssets in
      match algorithm with
      | AlgorithmFn _ fn => Normal (mkCompressionPlugin options fn)
      | AlgorithmName name =>
          match zlib name with
          | None => Throw (algorithm_not_found name)
          | Some fn =>
              Normal (mkCompressionPlugin
                        (mkInternalPluginOptions (o_test o) (o_include o) (o_exclude o)
                           algorithm
                           (spread (defaultCompressionOptions name) compressionOptions)
                           filename threshold minRatio deleteOriginalAssets)
                        fn)
          end
      end
  end.

(** [runCompressionAlgorithm(input)]: the promise's outcome, rejected with
    the callback's error or resolved with a [Buffer]. *)
Definition runCompressionAlgorithm (this : CompressionPlugin) (input : Buffer)
  : Completion Buffer :=
  match this_algorithm this input (compressionOptions (options this)) with
  | CallbackError error => Throw error
  | CallbackBuffer result => Normal result
  | CallbackString result => Normal (Buffer_from result)
  end.

(** ** The relation name (lines 263-291) *)

(** Lines 275-281: the template up to its first question mark. *)
Definition filenameForRelatedName (template : string) : string :=
  let index := indexOf template "?" in
  if 0 <=? index then slice_to template index else template.

Definition relatedName (options : InternalPluginOptions) : string :=
  match algorithm options with
  | AlgorithmFn _ _ =>
      match filename options with
      | FilenameFn code _ => "compression-function-" +:+ md5_hex code
      | FilenameTemplate template =>
          slice1 (extname (filenameForRelatedName template)) +:+ "ed"
      end
  | AlgorithmName name =>
      if String.eqb name "gzip" then "gzipped" else name +:+ "ed"
  end.

End Plugin.

(** The options a caller writes to ask for [this.options] in full, no
    property left to its default. *)
Definition spelled_out (o : InternalPluginOptions) : PluginOptions :=
  mkPluginOptions (test o) (include o) (exclude o) (Some (algorithm o))
    (Some (compressionOptions o)) (Some (filename o)) (Some (threshold o))
    (Some (minRatio o)) (Some (deleteOriginalAssets o)).

(** ** Sources, assets, the cache and the compilation *)

(** A [Source] of the compilation.  A webpack-sources object has a
    [buffer] method; a source from a plugin that does not use
    webpack-sources only has [source()], which returns a [Buffer] or a
    string (lines 311-322). *)
Inductive Source : Type :=
| WebpackSource (content : Buffer)
| PlainBufferSource (content : Buffer)
| PlainStringSource (content : string).

#[global] Instance Source_eq_dec : EqDecision Source.
Proof. solve_decision. Defined.

(** [new RawSource(buffer)]. *)
Definition RawSource (buffer : Buffer) : Source := WebpackSource buffer.

(** The original buffer of a source, as lines 311-322 obtain it. *)
Definition source_buffer (source : Source) : Buffer :=
  match source with
  | WebpackSource content => content
  | PlainBufferSource content => content
  | PlainStringSource content => Buffer_from content
  end.

(** A value of [info.related]: [null], a file name, or several. *)
Inductive RelatedValue : Type :=
| RelatedNull
| RelatedFile (file : string)
| RelatedFiles (files : list string).

#[global] Instance RelatedValue_eq_dec : EqDecision RelatedValue.
Proof. solve_decision. Defined.

(** JavaScript truthiness of a related value. *)
Definition truthy (v : RelatedValue) : bool :=
  match v with
  | RelatedNull => false
  | RelatedFile file => negb (String.eqb file "")
  | RelatedFiles _ => true
  end.

(** [AssetInfo]: the fields the plugin reads or writes. *)
Record AssetInfo : Type := mkAssetInfo {
  info_compressed : bool;
  info_immutable : bool;
  info_related : option (gmap string RelatedValue);
}.

#[global] Instance AssetInfo_eq_dec : EqDecision AssetInfo.
Proof. solve_decision. Defined.

(** [Asset]: what [compilation.getAsset(name)] returns. *)
Record Asset : Type := mkAsset {
  source : Source;
  info : AssetInfo;
}.

#[global] Instance Asset_eq_dec : EqDecision Asset.
Proof. solve_decision. Defined.

(** The value kept in the cache, [{ source, compressed }], either field
    possibly absent. *)
Record Output : Type := mkOutput {
  output_source : option Source;
  output_compressed : option Buffer;
}.

#[global] Instance Output_eq_dec : EqDecision Output.
Proof. solve_decision. Defined.

(** The identity of a cache item (lines 297-304): the serialized
    [{ name, algorithm, compressionOptions }], where a function algorithm
    is serialized as its text, and the etag of the source, a hash of its
    content.  A cache that compares etags by identity (webpack's memory
    cache) misses where this one hits when a build hands over a new source
    object with the content of an old one; a property of a rebuild
    therefore allows every lookup to miss. *)
Record CacheItem : Type := mkCacheItem {
  item_name : string;
  item_algorithm : string + string;
  item_compressionOptions : CompressionOptions;
  item_etag : Buffer;
}.

#[global] Instance CacheItem_eq_dec : EqDecision CacheItem.
Proof. solve_decision. Defined.

Definition Cache : Type := list (CacheItem * Output).

(** [cacheItem.getPromise()]: the value stored last, if any. *)
Fixpoint cache_get (cache : Cache) (item : CacheItem) : option Output :=
  match cache with
  | [] => None
  | (item', value) :: rest =>
      if decide (item = item') then Some value else cache_get rest item
  end.

(** The compilation: the asset store, the build errors, and the cache
    that outlives the pass. *)
Record Compilation : Type := mkCompilation {
  assets : gmap string Asset;
  errors : list Error;
  cache : Cache;
}.

(** ** Effects: the calls the plugin makes into its host *)

Inductive Effect : Type :=
| GetItem (item : CacheItem)
| ReadBuffer (source : Source)
| RunAlgorithm (input : Buffer)
| StoreItem (item : CacheItem) (value : Output)
| PushError (error : Error)
| UpdateAsset (name : string) (source : Source) (related : gmap string RelatedValue)
| DeleteAsset (name : string)
| EmitAsset (name : string) (source : Source) (info : AssetInfo).

#[global] Instance Effect_eq_dec : EqDecision Effect.
Proof. solve_decision. Defined.

(** [updateAsset] merges the patch into the asset's info: the patch's
    related entries are set on top of the old ones. *)
Definition merge_related (info : AssetInfo) (patch : gmap string RelatedValue) : AssetInfo :=
  mkAssetInfo (info_compressed info) (info_immutable info)
    (Some (patch ∪ default ∅ (info_related info))).

(** The asset store of the host, reduced to the interface the plugin
    uses: [updateAsset] replaces the source and merges the info of an
    existing asset, [deleteAsset] removes the name, [emitAsset] binds the
    name to the new source and info.  Left out: webpack's [updateAsset]
    throws on a missing name (a task updates the asset it was created
    from), its [deleteAsset] also removes assets that only the deleted one
    relates to, and its [emitAsset] reports a conflict when the name is
    bound to another source. *)
Definition run_effect (c : Compilation) (e : Effect) : Compilation :=
  match e with
  | GetItem _ | ReadBuffer _ | RunAlgorithm _ => c
  | StoreItem item value =>
      mkCompilation (assets c) (errors c) ((item, value) :: cache c)
  | PushError error =>
      mkCompilation (assets c) (errors c ++ [error]) (cache c)
  | UpdateAsset name source patch =>
      match assets c !! name with
      | Some old =>
          mkCompilation (<[name := mkAsset source (merge_related (info old) patch)]> (assets c))
            (errors c) (cache c)
      | None => c
      end
  | DeleteAsset name =>
      mkCompilation (delete name (assets c)) (errors c) (cache c)
  | EmitAsset name source info =>
      mkCompilation (<[name := mkAsset source info]> (assets c)) (errors c) (cache c)
  end.

Definition run_effects (c : Compilation) (es : list Effect) : Compilation :=
  fold_left run_effect es c.

(** ** [compress]: selecting the assets (lines 240-332) *)

(** [AssetForCompression]. [a_buffer] is [None] while the variable
    [buffer] is [undefined]. *)
Record AssetForCompression : Type := mkAssetForCompression {
  a_name : string;
  a_source : Source;
  a_info : AssetInfo;
  a_buffer : option Buffer;
  a_output : Output;
  a_cacheItem : CacheItem;
  a_relatedName : string;
}.

(** An info that relates to no asset: [info.related] is missing or holds
    falsy values only.  Deleting an asset with such an info deletes that
    asset and no other. *)
Definition relates_to_nothing (info : AssetInfo) : Prop :=
  forall related key value,
    info_related info = Some related -> related !! key = Some value ->
    truthy value = false.

(** No asset of the names relates to another asset. *)
Definition unrelated (compilation : Compilation) (names : list string) : Prop :=
  forall name original,
    In name names -> assets compilation !! name = Some original ->
    relates_to_nothing (info original).

(** [info.related && info.related[relatedName]]. *)
Definition has_related (info : AssetInfo) (relatedName : string) : bool :=
  match info_related info with
  | None => false
  | Some related =>
      match related !! relatedName with
      | Some v => truthy v
      | None => false
      end
  end.

Definition serialize_algorithm (a : Algorithm) : string + string :=
  match a with
  | AlgorithmName name => inl name
  | AlgorithmFn code _ => inr code
  end.

Section Compress.
Context `{Host}.
Variable this : CompressionPlugin.

Definition getItemCache (name : string) (source : Source) : CacheItem :=
  mkCacheItem name (serialize_algorithm (algorithm (options this)))
    (compressionOptions (options this)) (source_buffer source).

(** The body of the [map] callback for one name: the effects it has and
    what it returns, [None] for [false].  [getAsset] of a name the
    compilation does not hold returns [undefined], and destructuring it
    throws. *)
Definition selectAsset (compilation : Compilation) (name : string)
  : Completion (list Effect * option AssetForCompression) :=
  match assets compilation !! name with
  | None => Throw (mkError "Cannot destructure property of undefined")
  | Some (mkAsset source info) =>
      if info_compressed info then Normal ([], None)
      else if negb (matchObject (options this) name) then Normal ([], None)
      else
        let relatedName := relatedName (options this) in
        if has_related info relatedName then Normal ([], None)
        else
          let cacheItem := getItemCache name source in
          let output :=
            default (mkOutput None None) (cache_get (cache compilation) cacheItem) in
          match output_source output with
          | Some _ =>
              Normal ([GetItem cacheItem],
                      Some (mkAssetForCompression name source info None output
                              cacheItem relatedName))
          | None =>
              let buffer := source_buffer source in
              if (number_of_length (length buffer) <? threshold (options this))%float
              then Normal ([GetItem cacheItem; ReadBuffer source], None)
              else Normal ([GetItem cacheItem; ReadBuffer source],
                           Some (mkAssetForCompression name source info (Some buffer)
                                   output cacheItem relatedName))
          end
  end.

(** [Promise.all(names.map(...))] followed by [filter(Boolean)]: it
    rejects when one callback throws. *)
Fixpoint assetsForCompression (compilation : Compilation) (names : list string)
  : Completion (list Effect * list AssetForCompression) :=
  match names with
  | [] => Normal ([], [])
  | name :: rest =>
      match selectAsset compilation name with
      | Throw e => Throw e
      | Normal (effects, selected) =>
          match assetsForCompression compilation rest with
          | Throw e => Throw e
          | Normal (effects', assets') =>
              Normal (effects ++ effects',
                      match selected with
                      | Some asset => asset :: assets'
                      | None => assets'
                      end)
          end
      end
  end.

(** ** [compress]: the task of one asset (lines 339-409) *)

(** [newInfo] (lines 373-383). *)
Definition newInfo (info : AssetInfo) : AssetInfo :=
  mkAssetInfo true
    (info_immutable info &&
     match filename (options this) with
     | FilenameTemplate template => has_name_placeholder template
     | FilenameFn _ _ => false
     end)
    None.

(** What happens to the original asset (lines 385-406). *)
Definition disposeOriginal (asset : AssetForCompression) (newFilename : string)
  : list Effect :=
  match deleteOriginalAssets (options this) with
  | DeleteBool false =>
      [UpdateAsset (a_name asset) (a_source asset)
         {[ a_relatedName asset := RelatedFile newFilename ]}]
  | DeleteKeepSourceMap =>
      [UpdateAsset (a_name asset) (a_source asset) {[ "sourceMap" := RelatedNull ]};
       DeleteAsset (a_name asset)]
  | DeleteFn fn =>
      if fn (a_name asset) then [DeleteAsset (a_name asset)] else []
  | DeleteBool true => [DeleteAsset (a_name asset)]
  end.

(** Lines 369-408: from [getPath] to [emitAsset], with [output.source]. *)
Definition emit (asset : AssetForCompression) (output_source : Source) : list Effect :=
  let newFilename := getPath (filename (options this)) (a_name asset) in
  disposeOriginal asset newFilename
  ++ [EmitAsset newFilename output_source (newInfo (a_info asset))].

(** Where a task is: suspended at an [await], or settled. *)
Inductive TaskState : Type :=
| AwaitAlgorithm (asset : AssetForCompression) (buffer : Buffer)
| AwaitStoreRejected
| AwaitStoreAccepted (asset : AssetForCompression) (output_source : Source)
| Fulfilled
| Rejected (e : Error).

(** [compressed.length / buffer.length > minRatio] (lines 355-358). *)
Definition ratio_exceeds (compressed buffer : Buffer) : bool :=
  (minRatio (options this)
   <? number_of_length (length compressed) / number_of_length (length buffer))%float.

(** Lines 355-366: the ratio test and the call of [storePromise]. *)
Definition afterCompression (asset : AssetForCompression) (buffer compressed : Buffer)
  : list Effect * TaskState :=
  if ratio_exceeds compressed buffer
  then ([StoreItem (a_cacheItem asset) (mkOutput None (Some compressed))],
        AwaitStoreRejected)
  else ([StoreItem (a_cacheItem asset)
           (mkOutput (Some (RawSource compressed)) (Some compressed))],
        AwaitStoreAccepted asset (RawSource compressed)).

(** A task from its creation to its first [await] or its end.  An asset
    with neither [output.source] nor a buffer is never selected (lemma
    [selectAsset_ready]); the task of one would fail on [undefined]. *)
Definition startTask (asset : AssetForCompression) : list Effect * TaskState :=
  match output_source (a_output asset) with
  | Some output_source => (emit asset output_source, Fulfilled)
  | None =>
      match a_buffer asset with
      | None => ([], Rejected (mkError "Cannot read properties of undefined"))
      | Some buffer =>
          match output_compressed (a_output asset) with
          | None => ([RunAlgorithm buffer], AwaitAlgorithm asset buffer)
          | Some compressed => afterCompression asset buffer compressed
          end
      end
  end.

(** A suspended task from the [await] it is at to the next one or its
    end.  Only the algorithm is taken to fail: [storePromise], [getPath],
    a [deleteOriginalAssets] function and the asset methods of the
    compilation stand outside the [try] of lines 346-352, and a throw of
    one of them would reject the task. *)
Definition resumeTask (state : TaskState) : list Effect * TaskState :=
  match state with
  | AwaitAlgorithm asset buffer =>
      match runCompressionAlgorithm this buffer with
      | Throw error => ([PushError error], Fulfilled)
      | Normal compressed => afterCompression asset buffer compressed
      end
  | AwaitStoreRejected => ([], Fulfilled)
  | AwaitStoreAccepted asset output_source => (emit asset output_source, Fulfilled)
  | Fulfilled => ([], Fulfilled)
  | Rejected e => ([], Rejected e)
  end.

Definition settled (state : TaskState) : bool :=
  match state with
  | Fulfilled | Rejected _ => true
  | _ => false
  end.

(** One task run alone from creation to its end: all its effects and its
    final state. *)
Definition runTask (asset : AssetForCompression) : list Effect * TaskState :=
  let '(e0, s0) := startTask asset in
  let '(e1, s1) := resumeTask s0 in
  let '(e2, s2) := resumeTask s1 in
  (e0 ++ e1 ++ e2, s2).

(** ** [compress]: all tasks (lines 337-413) *)

(** The state of a pass after the [for] loop: one task state per selected
    asset, and the compilation. *)
Definition Pool : Type := list TaskState * Compilation.

(** The [for] loop: each task is created in turn and runs to its first
    [await].  The trace labels each group of effects with the index of
    its task. *)
Fixpoint startTasks (i : nat) (selected : list AssetForCompression) (c : Compilation)
  : list (nat * list Effect) * Pool :=
  match selected with
  | [] => ([], ([], c))
  | asset :: rest =>
      let '(effects, state) := startTask asset in
      let '(trace, (states, c')) := startTasks (S i) rest (run_effects c effects) in
      ((i, effects) :: trace, (state :: states, c'))
  end.

(** After the loop the host resumes one suspended task at a time, in an
    order the plugin does not control. *)
Inductive step : Pool -> nat * list Effect -> Pool -> Prop :=
| step_resume (states : list TaskState) (c : Compilation) (i : nat)
    (state state' : TaskState) (effects : list Effect) :
    states !! i = Some state ->
    settled state = false ->
    resumeTask state = (effects, state') ->
    step (states, c) (i, effects) (<[i := state']> states, run_effects c effects).

Inductive steps : Pool -> list (nat * list Effect) -> Pool -> Prop :=
| steps_done (p : Pool) : steps p [] p
| steps_next (p p' p'' : Pool) (label : nat * list Effect)
    (trace : list (nat * list Effect)) :
    step p label p' -> steps p' trace p'' -> steps p (label :: trace) p''.

(** [Promise.all(scheduledTasks)]: rejected as soon as one task is,
    fulfilled once all are, pending otherwise. *)
Inductive PromiseState : Type :=
| PromisePending
| PromiseFulfilled
| PromiseRejected (e : Error).

Fixpoint Promise_all (states : list TaskState) : PromiseState :=
  match states with
  | [] => PromiseFulfilled
  | state :: rest =>
      match state with
      | Rejected e => PromiseRejected e
      | _ =>
          match Promise_all rest with
          | PromiseRejected e => PromiseRejected e
          | PromiseFulfilled =>
              if settled state then PromiseFulfilled else PromisePending
          | PromisePending => PromisePending
          end
      end
  end.

(** The schedule that resumes the suspended tasks in the order of their
    creation, round after round. *)
Fixpoint resumeTasks (i : nat) (states : list TaskState) (c : Compilation)
  : list (nat * list Effect) * Pool :=
  match states with
  | [] => ([], ([], c))
  | state :: rest =>
      let '(effects, state') := resumeTask state in
      let '(trace, (states', c')) := resumeTasks (S i) rest (run_effects c effects) in
      (if settled state then trace else (i, effects) :: trace, (state' :: states', c'))
  end.

(** [compress(compiler, compilation, assets)] with [names] for
    [Object.keys(assets)]: the trace of the pass and the compilation it
    leaves, or the error it rejects with. *)
Definition compress (compilation : Compilation) (names : list string)
  : Completion (list (nat * list Effect) * Compilation) :=
  match assetsForCompression compilation names with
  | Throw e => Throw e
  | Normal (_, selected) =>
      let '(t0, (s0, c0)) := startTasks 0 selected compilation in
      let '(t1, (s1, c1)) := resumeTasks 0 s0 c0 in
      let '(t2, (s2, c2)) := resumeTasks 0 s1 c1 in
      match Promise_all s2 with
      | PromiseRejected e => Throw e
      | _ => Normal (t0 ++ t1 ++ t2, c2)
      end
  end.

(** A pass under any schedule: the assets are selected, the tasks are
    created, the host resumes them in some order, and [Promise.all] is
    fulfilled. *)
Inductive pass (compilation : Compilation) (names : list string)
  : list (nat * list Effect) -> Compilation -> Prop :=
| pass_intro (effects : list Effect) (selected : list AssetForCompression)
    (t0 trace : list (nat * list Effect)) (states0 states : list TaskState)
    (c0 c : Compilation) :
    assetsForCompression compilation names = Normal (effects, selected) ->
    startTasks 0 selected compilation = (t0, (states0, c0)) ->
    steps (states0, c0) trace (states, c) ->
    Promise_all states = PromiseFulfilled ->
    pass compilation names (t0 ++ trace) c.

(** What is left of a task from a state on, run alone. *)
Definition finishTask (state : TaskState) : list Effect * TaskState :=
  let '(e1, s1) := resumeTask state in
  let '(e2, s2) := resumeTask s1 in
  (e1 ++ e2, s2).

End Compress.

(** ** [apply]: the taps (lines 420-450) *)

(** [compiler.webpack.Compilation.PROCESS_ASSETS_STAGE_OPTIMIZE_TRANSFER]. *)
Definition PROCESS_ASSETS_STAGE_OPTIMIZE_TRANSFER : Z := 3000.

(** [this.constructor.name], for an instance of the class itself. *)
Definition constructor_name : string := "CompressionPlugin".

(** What a print hook hands its tap besides the value:
    [{ green, formatFlag }]. *)
Record StatsPrinterContext : Type := mkStatsPrinterContext {
  green : string -> string;
  formatFlag : string -> string;
}.

(** A tap on [compilation.hooks.processAssets]: its options and its
    function, which is handed the assets to process and works on the
    compilation the hook belongs to. *)
Record ProcessAssetsTap : Type := mkProcessAssetsTap {
  tap_name : string;
  tap_stage : Z;
  tap_additionalAssets : bool;
  tap_fn : Compilation -> list string
           -> Completion (list (nat * list Effect) * Compilation);
}.

(** A tap on [stats.hooks.print.for(path)]. *)
Record PrintTap : Type := mkPrintTap {
  print_path : string;
  print_name : string;
  print_fn : bool -> StatsPrinterContext -> string;
}.

(** The tap on [thisCompilation] and what it registers for a compilation:
    a tap on [processAssets], and under a tap on [statsPrinter] a tap on a
    print hook. *)
Record Taps : Type := mkTaps {
  thisCompilation_name : string;
  processAssets : ProcessAssetsTap;
  statsPrinter_name : string;
  statsPrinter : PrintTap;
}.

Section Apply.
Context `{Host}.
Variable this : CompressionPlugin.

(** [apply(compiler)], read as what its tap on [thisCompilation]
    registers for a compilation.  The function of the [processAssets] tap
    is handed the assets; the compilation it works on is the one the hook
    belongs to, in the state it is in at the call. *)
Definition apply : Taps :=
  let pluginName := constructor_name in
  mkTaps pluginName
    (mkProcessAssetsTap pluginName PROCESS_ASSETS_STAGE_OPTIMIZE_TRANSFER true
       (fun compilation assets => compress this compilation assets))
    pluginName
    (mkPrintTap "asset.info.compressed" "compression-webpack-plugin"
       (fun compressed context =>
          if compressed then green context (formatFlag context "compressed") else "")).

(** What the tap on the print hook gives for [info.compressed] of the
    asset of a name, if there is one. *)
Definition shown (context : StatsPrinterContext) (c : Compilation) (name : string)
  : option string :=
  option_map
    (fun asset => print_fn (statsPrinter apply) (info_compressed (info asset)) context)
    (assets c !! name).

End Apply.

(** ** Reading traces, effects and tasks *)

(** The effects of task [i] in a trace, in their order. *)
Fixpoint effects_of (i : nat) (trace : list (nat * list Effect)) : list Effect :=
  match trace with
  | [] => []
  | (j, effects) :: rest =>
      if Nat.eqb j i then effects ++ effects_of i rest else effects_of i rest
  end.

(** All effects of a trace, in their order. *)
Fixpoint flatten (trace : list (nat * list Effect)) : list Effect :=
  match trace with
  | [] => []
  | (_, effects) :: rest => effects ++ flatten rest
  end.

(** An effect that writes the asset store. *)
Definition writes_asset (e : Effect) : bool :=
  match e with
  | UpdateAsset _ _ _ | DeleteAsset _ | EmitAsset _ _ _ => true
  | _ => false
  end.

(** An effect that invokes the algorithm. *)
Definition runs_algorithm (e : Effect) : bool :=
  match e with
  | RunAlgorithm _ => true
  | _ => false
  end.

(** An asset is ready for its task when it has a cached source or its
    buffer. *)
Definition ready (asset : AssetForCompression) : bool :=
  match output_source (a_output asset), a_buffer asset with
  | None, None => false
  | _, _ => true
  end.

(** What an effect does to the binding of [name] in the asset store. *)
Definition asset_effect (name : string) (binding : option Asset) (e : Effect)
  : option Asset :=
  match e with
  | UpdateAsset name' source patch =>
      if decide (name' = name)
      then match binding with
           | Some old => Some (mkAsset source (merge_related (info old) patch))
           | None => None
           end
      else binding
  | DeleteAsset name' => if decide (name' = name) then None else binding
  | EmitAsset name' source info =>
      if decide (name' = name) then Some (mkAsset source info) else binding
  | _ => binding
  end.

(** What an effect does to the value of [item] in the cache. *)
Definition cache_effect (item : CacheItem) (value : option Output) (e : Effect)
  : option Output :=
  match e with
  | StoreItem item' value' => if decide (item = item') then Some value' else value
  | _ => value
  end.

(** The asset an effect writes, if any. *)
Definition written (e : Effect) : option string :=
  match e with
  | UpdateAsset name _ _ | DeleteAsset name | EmitAsset name _ _ => Some name
  | _ => None
  end.

(** The cache item an effect stores, if any. *)
Definition stored_item (e : Effect) : option CacheItem :=
  match e with
  | StoreItem item _ => Some item
  | _ => None
  end.

(** The errors a list of effects pushes, in their order. *)
Definition pushed (es : list Effect) : list Error :=
  flat_map (fun e => match e with PushError error => [error] | _ => [] end) es.

(** The cache entries a list of effects stores, the last one first. *)
Definition stores (es : list Effect) : Cache :=
  rev (flat_map (fun e => match e with
                          | StoreItem item value => [(item, value)]
                          | _ => []
                          end) es).

Section Readings.
Context `{Host}.
Variable this : CompressionPlugin.

(** The name of the derived asset of [name]. *)
Definition derived (name : string) : string := getPath (filename (options this)) name.

(** The compressed bytes a task works with: the cached ones, or the
    result of the algorithm. *)
Definition compressed_of (asset : AssetForCompression) (buffer : Buffer)
  : Completion Buffer :=
  match output_compressed (a_output asset) with
  | Some compressed => Normal compressed
  | None => runCompressionAlgorithm this buffer
  end.

(** The source a task emits, if it emits. *)
Definition emitted (asset : AssetForCompression) : option Source :=
  match output_source (a_output asset) with
  | Some output_source => Some output_source
  | None =>
      match a_buffer asset with
      | None => None
      | Some buffer =>
          match compressed_of asset buffer with
          | Throw _ => None
          | Normal compressed =>
              if ratio_exceeds this compressed buffer then None
              else Some (RawSource compressed)
          end
      end
  end.

(** The value a task stores in its cache item, if it stores. *)
Definition stored (asset : AssetForCompression) : option Output :=
  match output_source (a_output asset) with
  | Some _ => None
  | None =>
      match a_buffer asset with
      | None => None
      | Some buffer =>
          match compressed_of asset buffer with
          | Throw _ => None
          | Normal compressed =>
              Some (if ratio_exceeds this compressed buffer
                    then mkOutput None (Some compressed)
                    else mkOutput (Some (RawSource compressed)) (Some compressed))
          end
      end
  end.

(** The derived names do not collide: two names of the pass have
    different derived names, and no derived name is a name of the pass. *)
Definition collision_free (names : list string) : Prop :=
  (forall a b, In a names -> In b names -> derived a = derived b -> a = b)
  /\ (forall a b, In a names -> In b names -> derived a <> b).

(** The derived names are free: none is bound before the pass, so that
    [emitAsset] meets no asset under the name it binds and reports no
    conflict. *)
Definition derived_free (compilation : Compilation) (names : list string) : Prop :=
  forall name, In name names -> assets compilation !! derived name = None.

End Readings.

(** ** Schedules given by an order *)

Section Schedules.
Context `{Host}.
Variable this : CompressionPlugin.

(** The host resuming suspended tasks in a given order: [None] when the
    order names a task that is settled or does not exist. *)
Fixpoint resumeInOrder (order : list nat) (p : Pool)
  : option (list (nat * list Effect) * Pool) :=
  match order with
  | [] => Some ([], p)
  | i :: rest =>
      match fst p !! i with
      | None => None
      | Some state =>
          if settled state then None
          else
            let '(effects, state') := resumeTask this state in
            match resumeInOrder rest (<[i := state']> (fst p),
                                      run_effects (snd p) effects) with
            | None => None
            | Some (trace, p') => Some ((i, effects) :: trace, p')
            end
      end
  end.

(** A pass whose tasks are resumed in a given order, [None] when the
    order does not settle every task. *)
Definition compressInOrder (order : list nat) (compilation : Compilation)
  (names : list string) : option (list (nat * list Effect) * Compilation) :=
  match assetsForCompression this compilation names with
  | Throw _ => None
  | Normal (_, selected) =>
      let '(t0, p0) := startTasks this 0 selected compilation in
      match resumeInOrder order p0 with
      | None => None
      | Some (trace, (states, c)) =>
          match Promise_all states with
          | PromiseFulfilled => Some (t0 ++ trace, c)
          | _ => None
          end
      end
  end.

End Schedules.

(** ** Sound caches *)

Section Soundness.
Context `{Host}.
Variable this : CompressionPlugin.

(** An output is sound for a content when its compressed bytes are what
    the algorithm gives for that content, and its source wraps such bytes
    that passed the ratio test. *)
Definition output_sound (content : Buffer) (output : Output) : Prop :=
  (forall compressed,
      output_compressed output = Some compressed ->
      runCompressionAlgorithm this content = Normal compressed)
  /\ (forall cached,
         output_source output = Some cached ->
         exists compressed,
           cached = RawSource compressed
           /\ runCompressionAlgorithm this content = Normal compressed
           /\ ratio_exceeds this compressed content = false).

(** A cache is sound for the plugin when every output under an item of
    its algorithm and options is sound for the content the item is keyed
    with (the etag of lines 297-304). *)
Definition cache_sound (cache : Cache) : Prop :=
  forall item output,
    item_algorithm item = serialize_algorithm (algorithm (options this)) ->
    item_compressionOptions item = compressionOptions (options this) ->
    cache_get cache item = Some output ->
    output_sound (item_etag item) output.

End Soundness.

(** ** A concrete host, for running the model

    Node's [path.posix.extname], a small run-length coder standing for the
    compression functions of [zlib], prefix matching for [matchObject] and
    the [[path][base]] template for [getPath]. *)

Module Node.

(** The loop state of [path.posix.extname]. *)
Record ExtState : Type := mkExtState {
  startDot : Z;
  startPart : Z;
  end_ : Z;
  matchedSlash : bool;
  preDotState : Z;
  stopped : bool;
}.

(** One iteration of the loop, at index [i] on character [char]. *)
Definition extname_step (st : ExtState) (ic : Z * ascii) : ExtState :=
  let '(i, char) := ic in
  if stopped st then st
  else if Ascii.eqb char "/" then
    if negb (matchedSlash st)
    then mkExtState (startDot st) (i + 1) (end_ st) (matchedSlash st) (preDotState st) true
    else st
  else
    let st1 :=
      if end_ st =? -1
      then mkExtState (startDot st) (startPart st) (i + 1) false (preDotState st) false
      else st in
    if Ascii.eqb char "."
    then
      if startDot st1 =? -1
      then mkExtState i (startPart st1) (end_ st1) (matchedSlash st1) (preDotState st1) false
      else if negb (preDotState st1 =? 1)
      then mkExtState (startDot st1) (startPart st1) (end_ st1) (matchedSlash st1) 1 false
      else st1
    else if negb (startDot st1 =? -1)
    then mkExtState (startDot st1) (startPart st1) (end_ st1) (matchedSlash st1) (-1) false
    else st1.

(** The characters of a string with their indices. *)
Fixpoint indexed (i : Z) (s : string) : list (Z * ascii) :=
  match s with
  | EmptyString => []
  | String a rest => (i, a) :: indexed (i + 1) rest
  end.

Definition posix_extname (path : string) : string :=
  let st :=
    fold_left extname_step (rev (indexed 0 path)) (mkExtState (-1) 0 (-1) true 0 false) in
  if (startDot st =? -1) || (end_ st =? -1) || (preDotState st =? 0)
     || ((preDotState st =? 1) && (startDot st =? end_ st - 1)
         && (startDot st =? startPart st + 1))
  then EmptyString
  else substring (Z.to_nat (startDot st)) (Z.to_nat (end_ st - startDot st)) path.

(** A run-length coder: pairs of a count (at most 255) and a byte. *)
Fixpoint run_length (input : Buffer) : Buffer :=
  match input with
  | [] => []
  | b :: rest =>
      match run_length rest with
      | count :: b' :: out =>
          if Byte.eqb b b' && (Byte.to_N count <? 255)%N
          then default count (Byte.of_N (Byte.to_N count + 1)) :: b :: out
          else Byte.x01 :: b :: count :: b' :: out
      | _ => [Byte.x01; b]
      end
  end.

Definition run_length_algorithm : AlgorithmFunction :=
  fun input _ => CallbackBuffer (run_length input).

(** Calling a property of [zlib] that is not a function, such as the
    object [zlib.constants], throws a [TypeError] inside the executor of
    the promise of [runCompressionAlgorithm], which rejects with it. *)
Definition not_a_function : Error := mkError "this.algorithm is not a function".

Definition not_a_function_algorithm : AlgorithmFunction :=
  fun _ _ => CallbackError not_a_function.

(** [zlib[name]]: the four compression functions, and [zlib.constants]. *)
Definition zlib_table (name : string) : option AlgorithmFunction :=
  if String.eqb name "gzip" then Some run_length_algorithm
  else if String.eqb name "deflate" then Some run_length_algorithm
  else if String.eqb name "deflateRaw" then Some run_length_algorithm
  else if String.eqb name "brotliCompress" then Some run_length_algorithm
  else if String.eqb name "constants" then Some not_a_function_algorithm
  else None.

(** [matchPart]: a string rule matches a prefix; a pattern is read as a
    literal that must occur. *)
Definition matchRule (name : string) (rule : Rule) : bool :=
  match rule with
  | RuleString s => String.prefix s name
  | RuleRegExp pattern => includes name pattern
  end.

Definition matchPart (name : string) (rules : Rules) : bool :=
  existsb (matchRule name) rules.

Definition matchObject_model (o : InternalPluginOptions) (name : string) : bool :=
  match test o with Some rules => matchPart name rules | None => true end
  && match include o with Some rules => matchPart name rules | None => true end
  && match exclude o with Some rules => negb (matchPart name rules) | None => true end.

(** [getPath] for templates that start with [[path][base]]. *)
Definition getPath_model (filename : Filename) (name : string) : string :=
  match filename with
  | FilenameFn _ fn => fn name
  | FilenameTemplate template =>
      if String.prefix "[path][base]" template
      then name +:+ substring 12 (String.length template - 12)%nat template
      else template
  end.

Definition host : Host := {|
  validate := fun _ => None;
  zlib := zlib_table;
  extname := posix_extname;
  md5_hex := fun text => text;
  matchObject := matchObject_model;
  getPath := getPath_model;
|}.

End Node.


(** ** Scenarios *)

Module Scenario.

Definition zeros : Buffer := repeat Byte.x00 1024.

Definition plain_info : AssetInfo := mkAssetInfo false false None.

Definition app_js : Asset := mkAsset (WebpackSource zeros) plain_info.

(** [new CompressionPlugin({ algorithm: "nope" })]. *)
Definition nope_options : PluginOptions :=
  mkPluginOptions None None None (Some (AlgorithmName "nope")) None None None None None.

(** [new CompressionPlugin({ algorithm: "constants" })]. *)
Definition constants_options : PluginOptions :=
  mkPluginOptions None None None (Some (AlgorithmName "constants")) None None None None None.

(** [new CompressionPlugin({ algorithm: "brotliCompress",
    compressionOptions: { level: 1 } })]. *)
Definition brotli_options : PluginOptions :=
  mkPluginOptions None None None (Some (AlgorithmName "brotliCompress"))
    (Some {[ "level" := JSNumber 1 ]}) None None None None.

(** [this.options] for a function algorithm and a template with a
    query. *)
Definition custom_options (template : string) : InternalPluginOptions :=
  mkInternalPluginOptions None None None (AlgorithmFn "fn" Node.run_length_algorithm) ∅
    (FilenameTemplate template) 0%float default_minRatio (DeleteBool false).

(** [this] after [new CompressionPlugin()]: gzip, the default template,
    no threshold, ratio 0.8, originals kept. *)
Definition gzip_options : InternalPluginOptions :=
  mkInternalPluginOptions None None None (AlgorithmName "gzip")
    {[ "level" := JSNumber Z_BEST_COMPRESSION ]}
    (FilenameTemplate "[path][base].gz") 0%float default_minRatio (DeleteBool false).

Definition gzip_plugin : CompressionPlugin :=
  mkCompressionPlugin gzip_options Node.run_length_algorithm.

(** The same with [threshold: 4096]. *)
Definition threshold_plugin : CompressionPlugin :=
  mkCompressionPlugin
    (mkInternalPluginOptions None None None (AlgorithmName "gzip")
       {[ "level" := JSNumber Z_BEST_COMPRESSION ]}
       (FilenameTemplate "[path][base].gz") 4096%float default_minRatio
       (DeleteBool false))
    Node.run_length_algorithm.

(** The same as [gzip_plugin] with [deleteOriginalAssets: () => false]. *)
Definition keep_plugin : CompressionPlugin :=
  mkCompressionPlugin
    (mkInternalPluginOptions None None None (AlgorithmName "gzip")
       {[ "level" := JSNumber Z_BEST_COMPRESSION ]}
       (FilenameTemplate "[path][base].gz") 0%float default_minRatio
       (DeleteFn (fun _ => false)))
    Node.run_length_algorithm.

(** An algorithm that fails on an input starting with byte 255. *)
Definition picky_algorithm : AlgorithmFunction :=
  fun input _ =>
    match input with
    | Byte.xff :: _ => CallbackError (mkError "bad input")
    | _ => CallbackBuffer (Node.run_length input)
    end.

Definition picky_plugin : CompressionPlugin :=
  mkCompressionPlugin
    (mkInternalPluginOptions None None None (AlgorithmFn "picky" picky_algorithm) ∅
       (FilenameTemplate "[path][base].gz") 0%float default_minRatio (DeleteBool false))
    picky_algorithm.

Definition bad_buffer : Buffer := repeat Byte.xff 16.

Definition bad_js : Asset := mkAsset (WebpackSource bad_buffer) plain_info.

(** A three-byte asset from a plugin without webpack-sources. *)
Definition tiny_js : Asset := mkAsset (PlainStringSource "abc") plain_info.

Definition tiny_build : Compilation :=
  mkCompilation {[ "tiny.js" := tiny_js ]} [] [].

Definition item (name : string) (content : Buffer) : CacheItem :=
  mkCacheItem name (inl "gzip") {[ "level" := JSNumber Z_BEST_COMPRESSION ]} content.

Definition compressed_zeros : Buffer := Node.run_length zeros.

(** A first build: one asset, nothing cached. *)
Definition first_build : Compilation :=
  mkCompilation {[ "app.js" := app_js ]} [] [].

(** A later build: the same asset, its accepted output in the cache. *)
Definition later_build : Compilation :=
  mkCompilation {[ "app.js" := app_js ]} []
    [(item "app.js" zeros,
      mkOutput (Some (RawSource compressed_zeros)) (Some compressed_zeros))].

Definition two_assets : Compilation :=
  mkCompilation {[ "bad.js" := bad_js; "app.js" := app_js ]} [] [].

(** The selected assets of [first_build] and of a build of [tiny_js]. *)
Definition app_js_selected : AssetForCompression :=
  mkAssetForCompression "app.js" (WebpackSource zeros) plain_info (Some zeros)
    (mkOutput None None) (item "app.js" zeros) "gzipped".

Definition tiny_js_selected : AssetForCompression :=
  mkAssetForCompression "tiny.js" (PlainStringSource "abc") plain_info
    (Some (Buffer_from "abc")) (mkOutput None None)
    (item "tiny.js" (Buffer_from "abc")) "gzipped".

(** The selected asset of [later_build]: no buffer, the cached output. *)
Definition app_js_cached : AssetForCompression :=
  mkAssetForCompression "app.js" (WebpackSource zeros) plain_info None
    (mkOutput (Some (RawSource compressed_zeros)) (Some compressed_zeros))
    (item "app.js" zeros) "gzipped".

(** The selected asset of [two_assets] whose algorithm fails. *)
Definition bad_js_selected : AssetForCompression :=
  mkAssetForCompression "bad.js" (WebpackSource bad_buffer) plain_info (Some bad_buffer)
    (mkOutput None None) (mkCacheItem "bad.js" (inr "picky") ∅ bad_buffer) "gzed".

Definition app_js_picky : AssetForCompression :=
  mkAssetForCompression "app.js" (WebpackSource zeros) plain_info (Some zeros)
    (mkOutput None None) (mkCacheItem "app.js" (inr "picky") ∅ zeros) "gzed".

Definition derived_info : AssetInfo := mkAssetInfo true false None.

(** The same as [gzip_plugin] with [deleteOriginalAssets: true]. *)
Definition delete_plugin : CompressionPlugin :=
  mkCompressionPlugin
    (mkInternalPluginOptions None None None (AlgorithmName "gzip")
       {[ "level" := JSNumber Z_BEST_COMPRESSION ]}
       (FilenameTemplate "[path][base].gz") 0%float default_minRatio
       (DeleteBool true))
    Node.run_length_algorithm.

(** The compilation a plugin leaves of [first_build]. *)
Definition after_first (this : CompressionPlugin) : Compilation :=
  match @compress Node.host this first_build ["app.js"] with
  | Normal (_, c) => c
  | Throw _ => first_build
  end.

(** What a plugin leaves of a compilation when the host resumes its
    tasks in a given order: the trace and the compilation. *)
Definition resumed (this : CompressionPlugin) (order : list nat)
  (compilation : Compilation) (names : list string)
  : list (nat * list Effect) * Compilation :=
  default ([], compilation) (@compressInOrder Node.host this order compilation names).

(** An asset that an earlier plugin has compressed. *)
Definition old_gz : Asset :=
  mkAsset (WebpackSource (Node.run_length zeros)) derived_info.

Definition three_assets : Compilation :=
  mkCompilation {[ "bad.js" := bad_js; "app.js" := app_js; "old.gz" := old_gz ]} [] [].

(** [new CompressionPlugin({ algorithm: "brotliCompress" })]. *)
Definition brotli_plugin : CompressionPlugin :=
  mkCompressionPlugin
    (mkInternalPluginOptions None None None (AlgorithmName "brotliCompress")
       {[ "params" := JSObject [(BROTLI_PARAM_QUALITY, JSNumber BROTLI_MAX_QUALITY)] ]}
       (FilenameTemplate "[path][base].br") 0%float default_minRatio (DeleteBool false))
    Node.run_length_algorithm.

(** An empty asset. *)
Definition empty_js : Asset := mkAsset (WebpackSource []) plain_info.

Definition empty_build : Compilation :=
  mkCompilation {[ "empty.js" := empty_js ]} [] [].

Definition empty_js_selected : AssetForCompression :=
  mkAssetForCompression "empty.js" (WebpackSource []) plain_info (Some [])
    (mkOutput None None) (item "empty.js" []) "gzipped".

(** The next build of [first_build]: the assets again, with the cache the
    plugin left. *)
Definition rebuild (this : CompressionPlugin) : Compilation :=
  mkCompilation (assets first_build) [] (cache (after_first this)).

End Scenario.

(** * Properties *)

(** ** The concrete host *)

Example posix_extname_gz : Node.posix_extname "[path][base].gz" = ".gz".
Proof. reflexivity. Qed.

Example posix_extname_dotfile : Node.posix_extname "dir/.bashrc" = "".
Proof. reflexivity. Qed.

Example posix_extname_dotdot : Node.posix_extname "a/.." = "".
Proof. reflexivity. Qed.

Example posix_extname_trailing_slash : Node.posix_extname "a.b/c.tar.gz//" = ".gz".
Proof. reflexivity. Qed.

Example run_length_zeros :
  length (Node.run_length (repeat Byte.x00 1024)) = 10%nat.
Proof. vm_compute. reflexivity. Qed.

(** The scenarios are what the constructor and the selection give. *)
Example constructor_default :
  @constructor Node.host None = Normal Scenario.gzip_plugin.
Proof. vm_compute. reflexivity. Qed.

Example selectAsset_first_build :
  @selectAsset Node.host Scenario.gzip_plugin Scenario.first_build "app.js"
  = Normal ([GetItem (Scenario.item "app.js" Scenario.zeros);
             ReadBuffer (WebpackSource Scenario.zeros)],
            Some Scenario.app_js_selected).
Proof. vm_compute. reflexivity. Qed.

Example selectAsset_tiny_build :
  @selectAsset Node.host Scenario.gzip_plugin Scenario.tiny_build "tiny.js"
  = Normal ([GetItem (Scenario.item "tiny.js" (Buffer_from "abc"));
             ReadBuffer (PlainStringSource "abc")],
            Some Scenario.tiny_js_selected).
Proof. vm_compute. reflexivity. Qed.

Example relatedName_examples :
  @relatedName Node.host Scenario.gzip_options = "gzipped"
  /\ @relatedName Node.host (options Scenario.picky_plugin) = "gzed"
  /\ @relatedName Node.host
       (mkInternalPluginOptions None None None (AlgorithmName "brotliCompress") ∅
          (FilenameTemplate "[path][base].br") 0%float default_minRatio
          (DeleteBool false))
     = "brotliCompressed"
  /\ @relatedName Node.host
       (mkInternalPluginOptions None None None
          (AlgorithmFn "picky" Scenario.picky_algorithm) ∅
          (FilenameFn "f" (fun name => name +:+ ".z")) 0%float default_minRatio
          (DeleteBool false))
     = "compression-function-f".
Proof. repeat split; reflexivity. Qed.

Example selectAsset_later_build :
  @selectAsset Node.host Scenario.gzip_plugin Scenario.later_build "app.js"
  = Normal ([GetItem (Scenario.item "app.js" Scenario.zeros)],
            Some Scenario.app_js_cached).
Proof. vm_compute. reflexivity. Qed.

(** ** Strings *)

Lemma indexOf_range (s : string) (c : ascii) :
  indexOf s c = -1 \/ 0 <= indexOf s c < Z.of_nat (String.length s).
Proof.
  induction s as [|a rest IH]; simpl; [now left |].
  destruct (Ascii.eqb a c); [right; lia |].
  destruct (Z.ltb_spec (indexOf rest c) 0); [now left | right; lia].
Qed.

Lemma slice_to_cons (a : ascii) (rest : string) (i : Z) :
  0 <= i -> slice_to (String a rest) (i + 1) = String a (slice_to rest i).
Proof.
  intros Hi. unfold slice_to.
  replace (Z.to_nat (i + 1)) with (S (Z.to_nat i)) by lia. reflexivity.
Qed.

(** The slice up to the first occurrence holds no occurrence. *)
Lemma indexOf_slice_to (s : string) (c : ascii) :
  0 <= indexOf s c -> indexOf (slice_to s (indexOf s c)) c = -1.
Proof.
  induction s as [|a rest IH]; simpl; [lia |].
  destruct (Ascii.eqb a c) eqn:Hac; [reflexivity |].
  destruct (Z.ltb_spec (indexOf rest c) 0) as [Hneg | Hpos]; [lia |].
  intros _. rewrite slice_to_cons by assumption. simpl. rewrite Hac.
  rewrite IH by assumption. reflexivity.
Qed.

(** The string is that slice, the character, and a rest. *)
Lemma indexOf_split (s : string) (c : ascii) :
  0 <= indexOf s c ->
  exists rest, s = slice_to s (indexOf s c) +:+ String c rest.
Proof.
  induction s as [|a rest IH]; simpl; [lia |].
  destruct (Ascii.eqb_spec a c) as [-> | Hac].
  - intros _. exists rest. reflexivity.
  - destruct (Z.ltb_spec (indexOf rest c) 0) as [Hneg | Hpos]; [lia |].
    intros _. destruct (IH Hpos) as [tail Htail]. exists tail.
    rewrite slice_to_cons by assumption.
    change (String a rest
            = String a (slice_to rest (indexOf rest c) +:+ String c tail)).
    f_equal. exact Htail.
Qed.

(** A string without a character has no index of it. *)
Lemma indexOf_absent (s : string) (c : ascii) :
  (forall a, In a (list_ascii_of_string s) -> a <> c) -> indexOf s c = -1.
Proof.
  induction s as [|a rest IH]; intros Habsent; [reflexivity |]. simpl.
  destruct (Ascii.eqb_spec a c) as [-> | _].
  - now destruct (Habsent c (or_introl eq_refl)).
  - rewrite IH by (intros b Hb; apply Habsent; now right). reflexivity.
Qed.

(** The first occurrence follows a part without the character. *)
Lemma indexOf_first (before rest : string) (c : ascii) :
  (forall a, In a (list_ascii_of_string before) -> a <> c) ->
  indexOf (before +:+ String c rest) c = Z.of_nat (String.length before).
Proof.
  induction before as [|a before IH]; intros Habsent.
  - simpl. now rewrite Ascii.eqb_refl.
  - change (String a before +:+ String c rest) with (String a (before +:+ String c rest)).
    cbn [indexOf]. destruct (Ascii.eqb_spec a c) as [-> | _].
    + now destruct (Habsent c (or_introl eq_refl)).
    + rewrite IH by (intros b Hb; apply Habsent; now right).
      destruct (Z.ltb_spec (Z.of_nat (String.length before)) 0); simpl String.length; lia.
Qed.

(** Slicing at the length of a first part gives that part. *)
Lemma slice_to_append (before rest : string) :
  slice_to (before +:+ rest) (Z.of_nat (String.length before)) = before.
Proof.
  unfold slice_to. rewrite Nat2Z.id.
  induction before as [|a before IH]; simpl.
  - now destruct rest.
  - now rewrite IH.
Qed.

(** ** The constructor *)

Section ConstructorFacts.
Context `{Host}.

Lemma constructor_named (user : option PluginOptions) (name : string) :
  validate user = None ->
  default (AlgorithmName "gzip") (o_algorithm (default empty_options user))
  = AlgorithmName name ->
  constructor user =
  match zlib name with
  | None => Throw (algorithm_not_found name)
  | Some fn =>
      let o := default empty_options user in
      Normal (mkCompressionPlugin
                (mkInternalPluginOptions (o_test o) (o_include o) (o_exclude o)
                   (AlgorithmName name)
                   (spread (defaultCompressionOptions name)
                      (default ∅ (o_compressionOptions o)))
                   (default (FilenameTemplate (if is_brotliCompress (o_algorithm o)
                                               then "[path][base].br"
                                               else "[path][base].gz"))
                      (o_filename o))
                   (default 0%float (o_threshold o))
                   (default default_minRatio (o_minRatio o))
                   (default (DeleteBool false) (o_deleteOriginalAssets o)))
                fn)
  end.
Proof.
  intros Hvalid Halgorithm. unfold constructor. rewrite Hvalid. cbv zeta.
  rewrite Halgorithm. reflexivity.
Qed.

(** C5, as the code has it.  The constructor throws for a named algorithm
    when [zlib] has no property of that name ([zlib[name]] is falsy), so
    that nothing constructed can reach [compress]; the name of any
    property [zlib] holds, a compression function or not, or a function,
    yields a plugin with that algorithm. *)
Theorem constructor_unknown_algorithm (user : PluginOptions) :
  validate (Some user) = None ->
  (forall name,
      o_algorithm user = Some (AlgorithmName name) -> zlib name = None ->
      constructor (Some user) = Throw (algorithm_not_found name)
      /\ forall compilation names,
          Completion_bind (constructor (Some user))
            (fun this => compress this compilation names)
          = Throw (algorithm_not_found name))
  /\ (forall name fn,
         o_algorithm user = Some (AlgorithmName name) -> zlib name = Some fn ->
         exists this, constructor (Some user) = Normal this /\ this_algorithm this = fn)
  /\ (forall code fn,
         o_algorithm user = Some (AlgorithmFn code fn) ->
         exists this, constructor (Some user) = Normal this /\ this_algorithm this = fn).
Proof.
  intros Hvalid. split; [| split].
  - intros name Halgorithm Hzlib.
    assert (Hthrow : constructor (Some user) = Throw (algorithm_not_found name)).
    { rewrite (constructor_named (Some user) name Hvalid)
        by (simpl; now rewrite Halgorithm).
      now rewrite Hzlib. }
    split; [exact Hthrow |]. intros compilation names. now rewrite Hthrow.
  - intros name fn Halgorithm Hzlib.
    rewrite (constructor_named (Some user) name Hvalid)
      by (simpl; now rewrite Halgorithm).
    rewrite Hzlib. eexists. split; reflexivity.
  - intros code fn Halgorithm. unfold constructor. rewrite Hvalid. simpl.
    rewrite Halgorithm. simpl. eexists. split; reflexivity.
Qed.

Lemma spread_lookup (defaults custom : CompressionOptions) (key : string) :
  spread defaults custom !! key
  = match custom !! key with
    | Some v => Some v
    | None => defaults !! key
    end.
Proof.
  unfold spread. rewrite lookup_union.
  destruct (custom !! key), (defaults !! key); reflexivity.
Qed.

Lemma defaultCompressionOptions_other (name : string) :
  name <> "gzip" -> name <> "deflate" -> name <> "deflateRaw" ->
  name <> "brotliCompress" -> defaultCompressionOptions name = ∅.
Proof.
  intros H1 H2 H3 H4. unfold defaultCompressionOptions.
  apply String.eqb_neq in H1, H2, H3, H4. now rewrite H1, H2, H3, H4.
Qed.

(** C8. For an algorithm given by name the constructor leaves in
    [this.options.compressionOptions] the caller's options on top of the
    defaults of that name: level [Z_BEST_COMPRESSION] for gzip, deflate and
    deflateRaw, quality [BROTLI_MAX_QUALITY] for brotliCompress, nothing for
    another name.  A key of the caller wins; the merge does not look inside
    the values. *)
Theorem constructor_default_compressionOptions
  (user : option PluginOptions) (name : string) (fn : AlgorithmFunction) :
  validate user = None ->
  default (AlgorithmName "gzip") (o_algorithm (default empty_options user))
  = AlgorithmName name ->
  zlib name = Some fn ->
  let custom := default ∅ (o_compressionOptions (default empty_options user)) in
  exists this,
    constructor user = Normal this
    /\ (forall key,
           compressionOptions (options this) !! key
           = match custom !! key with
             | Some v => Some v
             | None => defaultCompressionOptions name !! key
             end)
    /\ (name = "gzip" \/ name = "deflate" \/ name = "deflateRaw" ->
        defaultCompressionOptions name = {[ "level" := JSNumber Z_BEST_COMPRESSION ]})
    /\ (name = "brotliCompress" ->
        defaultCompressionOptions name
        = {[ "params" := JSObject [(BROTLI_PARAM_QUALITY, JSNumber BROTLI_MAX_QUALITY)] ]})
    /\ (name <> "gzip" -> name <> "deflate" -> name <> "deflateRaw" ->
        name <> "brotliCompress" ->
        defaultCompressionOptions name = ∅
        /\ compressionOptions (options this) = custom).
Proof.
  intros Hvalid Halgorithm Hzlib custom.
  rewrite (constructor_named user name Hvalid Halgorithm), Hzlib.
  eexists. split; [reflexivity |]. cbn [options compressionOptions].
  split; [intros key; apply spread_lookup |].
  split; [intros [-> | [-> | ->]]; reflexivity |].
  split; [intros ->; reflexivity |].
  intros H1 H2 H3 H4.
  rewrite (defaultCompressionOptions_other name H1 H2 H3 H4).
  split; [reflexivity |]. unfold spread. apply (right_id_L ∅ (∪)).
Qed.

End ConstructorFacts.

(** ** The relation name *)

Section RelatedNameFacts.
Context `{Host}.

Lemma filenameForRelatedName_no_query (template : string) :
  indexOf template "?" = -1 -> filenameForRelatedName template = template.
Proof. intros Hindex. unfold filenameForRelatedName. now rewrite Hindex. Qed.

Lemma selectAsset_relatedName (this : CompressionPlugin) (compilation : Compilation)
  (name : string) (effects : list Effect) (asset : AssetForCompression) :
  selectAsset this compilation name = Normal (effects, Some asset) ->
  a_relatedName asset = relatedName (options this).
Proof.
  unfold selectAsset. intros Hselect.
  destruct (assets compilation !! name) as [[source info] |]; [| discriminate].
  destruct (info_compressed info); [discriminate |].
  destruct (negb (matchObject (options this) name)); [discriminate |].
  destruct (has_related info (relatedName (options this))); [discriminate |].
  destruct (output_source _).
  - now inversion Hselect.
  - destruct (PrimFloat.ltb _ _); [discriminate |]. now inversion Hselect.
Qed.

(** The template up to its first question mark, by decomposition: the
    template itself if it holds none, the part before the first one
    otherwise. *)
Lemma filenameForRelatedName_before (before template : string) :
  (forall a, In a (list_ascii_of_string before) -> a <> "?"%char) ->
  template = before \/ (exists rest, template = before +:+ String "?" rest) ->
  filenameForRelatedName template = before.
Proof.
  intros Habsent [-> | [rest ->]]; unfold filenameForRelatedName.
  - now rewrite (indexOf_absent before "?" Habsent).
  - rewrite (indexOf_first before rest "?" Habsent).
    destruct (Z.leb_spec 0 (Z.of_nat (String.length before))); [| lia].
    apply slice_to_append.
Qed.

(** C6, as the code has it.  The relation name by cases on the
    configuration.  A function algorithm with a function filename gives
    the md5 of the serialized filename after the fixed prefix.  A function
    algorithm with a template gives the extension, followed by "ed", not
    of the template but of its part before the first question mark, the
    whole template if it holds none: [before] is that part, and the
    extension loses its first character, the dot.  The name "gzip" gives
    "gzipped"; another name gives the name followed by "ed".  The result
    depends on the algorithm and the filename only, and every selected
    asset carries it, whatever the compilation. *)
Theorem relatedName_cases (o : InternalPluginOptions) (before : string) :
  (forall a, In a (list_ascii_of_string before) -> a <> "?"%char) ->
  (forall template,
      filename o = FilenameTemplate template ->
      template = before \/ exists rest, template = before +:+ String "?" rest) ->
  (forall acode afn code fn,
      algorithm o = AlgorithmFn acode afn -> filename o = FilenameFn code fn ->
      relatedName o = "compression-function-" +:+ md5_hex code)
  /\ (forall acode afn template,
         algorithm o = AlgorithmFn acode afn -> filename o = FilenameTemplate template ->
         (extname before = "" -> relatedName o = "ed")
         /\ (forall dot extension,
                extname before = String dot extension ->
                relatedName o = extension +:+ "ed"))
  /\ (algorithm o = AlgorithmName "gzip" -> relatedName o = "gzipped")
  /\ (forall name,
         algorithm o = AlgorithmName name -> name <> "gzip" ->
         relatedName o = name +:+ "ed")
  /\ (forall o',
         algorithm o' = algorithm o -> filename o' = filename o ->
         relatedName o' = relatedName o)
  /\ (forall this compilation name effects asset,
         options this = o ->
         selectAsset this compilation name = Normal (effects, Some asset) ->
         a_relatedName asset = relatedName o).
Proof.
  intros Habsent Hbefore. split; [| split; [| split; [| split; [| split]]]].
  - intros acode afn code fn Halgorithm Hfilename. unfold relatedName.
    now rewrite Halgorithm, Hfilename.
  - intros acode afn template Halgorithm Hfilename.
    assert (Hname : relatedName o = slice1 (extname before) +:+ "ed").
    { unfold relatedName. rewrite Halgorithm, Hfilename.
      now rewrite (filenameForRelatedName_before before template Habsent
                     (Hbefore template Hfilename)). }
    split.
    + intros Hext. now rewrite Hname, Hext.
    + intros dot extension Hext. now rewrite Hname, Hext.
  - intros Halgorithm. unfold relatedName. now rewrite Halgorithm.
  - intros name Halgorithm Hname. unfold relatedName. rewrite Halgorithm.
    apply String.eqb_neq in Hname. now rewrite Hname.
  - intros o' Halgorithm Hfilename. unfold relatedName. now rewrite Halgorithm, Hfilename.
  - intros this compilation name effects asset <- Hselect.
    apply (selectAsset_relatedName this compilation name effects asset Hselect).
Qed.

(** C9. With a function algorithm and a template that holds a question
    mark, the relation name is taken from the part of the template before
    the first question mark: that part has no question mark, the template
    continues with one, and a configuration whose template is that part
    alone has the same relation name. *)
Theorem relatedName_strips_query (o : InternalPluginOptions) (code : string)
  (fn : AlgorithmFunction) (template : string) :
  algorithm o = AlgorithmFn code fn ->
  filename o = FilenameTemplate template ->
  0 <= indexOf template "?" ->
  let before := slice_to template (indexOf template "?") in
  (exists rest, template = before +:+ String "?" rest)
  /\ indexOf before "?" = -1
  /\ relatedName o = slice1 (extname before) +:+ "ed"
  /\ (forall o' code' fn',
         algorithm o' = AlgorithmFn code' fn' -> filename o' = FilenameTemplate before ->
         relatedName o' = relatedName o).
Proof.
  intros Halgorithm Hfilename Hindex before.
  assert (Hbefore : indexOf before "?" = -1) by now apply indexOf_slice_to.
  assert (Hname : relatedName o = slice1 (extname before) +:+ "ed").
  { unfold relatedName, filenameForRelatedName. rewrite Halgorithm, Hfilename.
    destruct (Z.leb_spec 0 (indexOf template "?")); [reflexivity | lia]. }
  split; [now apply indexOf_split |]. split; [exact Hbefore |].
  split; [exact Hname |].
  intros o' code' fn' Halgorithm' Hfilename'. rewrite Hname.
  unfold relatedName. rewrite Halgorithm', Hfilename'.
  now rewrite (filenameForRelatedName_no_query before Hbefore).
Qed.

End RelatedNameFacts.

(** ** The scenarios, run *)

Lemma constructor_unknown_algorithm_nope :
  @constructor Node.host (Some Scenario.nope_options)
  = Throw (algorithm_not_found "nope")
  /\ forall compilation names,
      Completion_bind (@constructor Node.host (Some Scenario.nope_options))
        (fun this => @compress Node.host this compilation names)
      = Throw (algorithm_not_found "nope").
Proof.
  apply (@constructor_unknown_algorithm Node.host Scenario.nope_options);
    reflexivity.
Defined.

(** Against C5 as worded: [zlib.constants] is an object, no compression
    function, and the constructor accepts its name.  The failure shows
    only when a task calls it: every run of the algorithm is rejected, and
    the pass over the first build pushes the error and changes no asset. *)
Lemma constructor_accepts_constants :
  exists this,
    @constructor Node.host (Some Scenario.constants_options) = Normal this
    /\ (forall input, runCompressionAlgorithm this input = Throw Node.not_a_function)
    /\ exists trace c,
        @compress Node.host this Scenario.first_build ["app.js"] = Normal (trace, c)
        /\ errors c = [Node.not_a_function]
        /\ assets c = assets Scenario.first_build.
Proof.
  eexists. split; [vm_compute; reflexivity |].
  split; [intros input; reflexivity |].
  eexists. eexists. split; [vm_compute; reflexivity |].
  split; vm_compute; reflexivity.
Qed.

Lemma constructor_default_compressionOptions_brotli :
  exists this,
    @constructor Node.host (Some Scenario.brotli_options) = Normal this
    /\ compressionOptions (options this) !! "level" = Some (JSNumber 1)
    /\ compressionOptions (options this) !! "params"
       = Some (JSObject [(BROTLI_PARAM_QUALITY, JSNumber BROTLI_MAX_QUALITY)]).
Proof.
  destruct (@constructor_default_compressionOptions Node.host
              (Some Scenario.brotli_options) "brotliCompress"
              Node.run_length_algorithm eq_refl eq_refl eq_refl)
    as (this & Hthis & Hlookup & _).
  exists this. split; [exact Hthis |].
  split; rewrite Hlookup; reflexivity.
Defined.

Lemma relatedName_cases_scenario :
  @relatedName Node.host (Scenario.custom_options "[path][base].gz?v=1") = "gzed"
  /\ @relatedName Node.host (Scenario.custom_options "[path][base].gz") = "gzed".
Proof.
  assert (Habsent : forall a, In a (list_ascii_of_string "[path][base].gz") -> a <> "?"%char).
  { intros a Hin ->. vm_compute in Hin. intuition discriminate. }
  split.
  - destruct (@relatedName_cases Node.host (Scenario.custom_options "[path][base].gz?v=1")
                "[path][base].gz" Habsent) as (_ & Htemplate & _).
    + intros template [= <-]. right. now exists "v=1".
    + destruct (Htemplate "fn" Node.run_length_algorithm "[path][base].gz?v=1"
                  eq_refl eq_refl) as [_ Hext].
      apply (Hext "."%char "gz"). reflexivity.
  - destruct (@relatedName_cases Node.host (Scenario.custom_options "[path][base].gz")
                "[path][base].gz" Habsent) as (_ & Htemplate & _).
    + intros template [= <-]. now left.
    + destruct (Htemplate "fn" Node.run_length_algorithm "[path][base].gz"
                  eq_refl eq_refl) as [_ Hext].
      apply (Hext "."%char "gz"). reflexivity.
Defined.

(** Against C6 as worded: the extension of the filename
    [[path][base].gz?v=1] is [.gz?v=1], and the relation name is not that
    extension without its dot followed by "ed", but "gzed". *)
Lemma relatedName_forgets_the_query :
  Node.posix_extname "[path][base].gz?v=1" = ".gz?v=1"
  /\ @relatedName Node.host (Scenario.custom_options "[path][base].gz?v=1") = "gzed"
  /\ @relatedName Node.host (Scenario.custom_options "[path][base].gz?v=1")
     <> "gz?v=1" +:+ "ed".
Proof. repeat split; try reflexivity. vm_compute. discriminate. Qed.

Lemma relatedName_strips_query_gz :
  @relatedName Node.host (Scenario.custom_options "[path][base].gz?v=1") = "gzed"
  /\ @relatedName Node.host (Scenario.custom_options "[path][base].gz")
     = @relatedName Node.host (Scenario.custom_options "[path][base].gz?v=1").
Proof.
  destruct (@relatedName_strips_query Node.host
              (Scenario.custom_options "[path][base].gz?v=1") "fn"
              Node.run_length_algorithm "[path][base].gz?v=1" eq_refl eq_refl
              ltac:(vm_compute; discriminate))
    as (_ & _ & Hname & Hsame).
  split; [rewrite Hname; reflexivity |].
  apply (Hsame _ "fn" Node.run_length_algorithm); reflexivity.
Defined.

(** ** Numbers *)

Lemma SFcompare_swap (x y : spec_float) :
  SFcompare y x = option_map CompOpp (SFcompare x y).
Proof.
  destruct x as [sx | sx | | sx mx ex], y as [sy | sy | | sy my ey];
    simpl; try reflexivity;
    try (destruct sx; reflexivity); try (destruct sy; reflexivity);
    try (destruct sx, sy; reflexivity).
  destruct sx, sy; simpl; try reflexivity;
    rewrite (Z.compare_antisym ex ey); destruct (ex ?= ey)%Z; simpl;
    try reflexivity; f_equal;
    change PosDef.Pos.compare_cont with Pos.compare_cont;
    now rewrite (ZC4 my mx).
Qed.

(** [x <= y] excludes [y < x], also for infinities and NaN. *)
Lemma leb_not_ltb (x y : float) :
  (x <=? y)%float = true -> (y <? x)%float = false.
Proof.
  rewrite leb_spec, ltb_spec. unfold SFleb, SFltb.
  rewrite (SFcompare_swap (Prim2SF x) (Prim2SF y)).
  destruct (SFcompare (Prim2SF x) (Prim2SF y)) as [[| |] |];
    simpl; congruence.
Qed.

(** ** The task of one asset *)

Lemma run_effects_app (c : Compilation) (es es' : list Effect) :
  run_effects c (es ++ es') = run_effects (run_effects c es) es'.
Proof. apply fold_left_app. Qed.

Lemma run_effects_emit_last (c : Compilation) (es : list Effect) (name : string)
  (source : Source) (info : AssetInfo) :
  assets (run_effects c (es ++ [EmitAsset name source info])) !! name
  = Some (mkAsset source info).
Proof. rewrite run_effects_app. simpl. apply lookup_insert_eq. Qed.

Section TaskFacts.
Context `{Host}.
Variable this : CompressionPlugin.

Lemma afterCompression_rejects (asset : AssetForCompression) (buffer compressed : Buffer) :
  ratio_exceeds this compressed buffer = true ->
  afterCompression this asset buffer compressed
  = ([StoreItem (a_cacheItem asset) (mkOutput None (Some compressed))],
     AwaitStoreRejected).
Proof. intros Hratio. unfold afterCompression. now rewrite Hratio. Qed.

Lemma afterCompression_accepts (asset : AssetForCompression) (buffer compressed : Buffer) :
  ratio_exceeds this compressed buffer = false ->
  afterCompression this asset buffer compressed
  = ([StoreItem (a_cacheItem asset)
        (mkOutput (Some (RawSource compressed)) (Some compressed))],
     AwaitStoreAccepted asset (RawSource compressed)).
Proof. intros Hratio. unfold afterCompression. now rewrite Hratio. Qed.

(** A task that has its compressed bytes, cached or from the algorithm,
    is one [afterCompression] away from its end. *)
Lemma runTask_compressed (asset : AssetForCompression) (buffer compressed : Buffer) :
  output_source (a_output asset) = None ->
  a_buffer asset = Some buffer ->
  output_compressed (a_output asset) = Some compressed
  \/ (output_compressed (a_output asset) = None
      /\ runCompressionAlgorithm this buffer = Normal compressed) ->
  runTask this asset
  = let '(e, s) := afterCompression this asset buffer compressed in
    let '(e', s') := resumeTask this s in
    (match output_compressed (a_output asset) with
     | None => [RunAlgorithm buffer]
     | Some _ => []
     end ++ e ++ e', s').
Proof.
  intros Hsource Hbuffer Hcompressed. unfold runTask, startTask.
  rewrite Hsource, Hbuffer.
  destruct Hcompressed as [-> | [-> Hrun]].
  - destruct (afterCompression this asset buffer compressed) as [e s] eqn:Hafter.
    unfold afterCompression in Hafter.
    destruct (ratio_exceeds this compressed buffer); inversion Hafter; subst;
      simpl; rewrite ?app_nil_r; reflexivity.
  - simpl. rewrite Hrun.
    destruct (afterCompression this asset buffer compressed) as [e s].
    destruct (resumeTask this s) as [e' s']. reflexivity.
Qed.

(** C1. A task whose compression completed with [compressed] for the
    original [buffer].  If [compressed.length / buffer.length] is above
    [minRatio], the task stores the compressed bytes alone in the cache
    and ends: no asset is updated, deleted or emitted, and the asset store
    is as before.  If the ratio is at most [minRatio], the task stores the
    compressed bytes with their [RawSource] in the cache, disposes of the
    original as configured and emits the derived asset. *)
Theorem ratio_policy (asset : AssetForCompression) (buffer compressed : Buffer)
  (c : Compilation) :
  output_source (a_output asset) = None ->
  a_buffer asset = Some buffer ->
  output_compressed (a_output asset) = Some compressed
  \/ (output_compressed (a_output asset) = None
      /\ runCompressionAlgorithm this buffer = Normal compressed) ->
  let ratio :=
    (number_of_length (length compressed) / number_of_length (length buffer))%float in
  let ran :=
    match output_compressed (a_output asset) with
    | None => [RunAlgorithm buffer]
    | Some _ => []
    end in
  let newFilename := getPath (filename (options this)) (a_name asset) in
  let after := run_effects c (fst (runTask this asset)) in
  ((minRatio (options this) <? ratio)%float = true ->
   runTask this asset
   = (ran ++ [StoreItem (a_cacheItem asset) (mkOutput None (Some compressed))],
      Fulfilled)
   /\ assets after = assets c
   /\ errors after = errors c
   /\ cache_get (cache after) (a_cacheItem asset)
      = Some (mkOutput None (Some compressed)))
  /\ ((ratio <=? minRatio (options this))%float = true ->
      runTask this asset
      = (ran
         ++ [StoreItem (a_cacheItem asset)
               (mkOutput (Some (RawSource compressed)) (Some compressed))]
         ++ disposeOriginal this asset newFilename
         ++ [EmitAsset newFilename (RawSource compressed) (newInfo this (a_info asset))],
         Fulfilled)
      /\ assets after !! newFilename
         = Some (mkAsset (RawSource compressed) (newInfo this (a_info asset)))).
Proof.
  intros Hsource Hbuffer Hcompressed ratio ran newFilename after.
  pose proof (runTask_compressed asset buffer compressed Hsource Hbuffer Hcompressed)
    as Hrun.
  split.
  - intros Hratio.
    rewrite (afterCompression_rejects asset buffer compressed Hratio) in Hrun.
    simpl in Hrun. fold ran in Hrun.
    split; [exact Hrun |].
    subst after. rewrite Hrun. simpl. rewrite run_effects_app.
    assert (Hran : run_effects c ran = c) by (subst ran; now destruct (output_compressed _)).
    rewrite Hran. simpl.
    repeat split. destruct (decide (a_cacheItem asset = a_cacheItem asset)); congruence.
  - intros Hratio. apply leb_not_ltb in Hratio.
    rewrite (afterCompression_accepts asset buffer compressed Hratio) in Hrun.
    simpl in Hrun. fold ran newFilename in Hrun. unfold emit in Hrun.
    fold newFilename in Hrun.
    split; [exact Hrun |].
    subst after. rewrite Hrun. simpl.
    rewrite app_comm_cons, app_assoc. apply run_effects_emit_last.
Qed.

End TaskFacts.

(** ** Tasks under any schedule *)

Lemma effects_of_app (i : nat) (t t' : list (nat * list Effect)) :
  effects_of i (t ++ t') = effects_of i t ++ effects_of i t'.
Proof.
  induction t as [|[j es] t IH]; simpl; [reflexivity |].
  destruct (Nat.eqb j i); [rewrite IH; apply app_assoc | exact IH].
Qed.

Lemma flatten_app (t t' : list (nat * list Effect)) :
  flatten (t ++ t') = flatten t ++ flatten t'.
Proof.
  induction t as [|[j es] t IH]; simpl; [reflexivity |].
  rewrite IH. apply app_assoc.
Qed.

Section PoolFacts.
Context `{Host}.
Variable this : CompressionPlugin.

Lemma resumeTask_settled (state : TaskState) :
  settled state = true -> resumeTask this state = ([], state).
Proof. destruct state; simpl; intros Hsettled; congruence. Qed.

(** A resumed task is settled, or at a store whose end settles it. *)
Lemma resumeTask_next (state state' : TaskState) (effects : list Effect) :
  resumeTask this state = (effects, state') ->
  settled state' = true
  \/ exists effects', resumeTask this state' = (effects', Fulfilled).
Proof.
  destruct state as [asset buffer | | asset source | | e]; simpl.
  - destruct (runCompressionAlgorithm this buffer) as [compressed | error].
    + unfold afterCompression. destruct (ratio_exceeds this compressed buffer);
        intros [= <- <-]; right; eexists; reflexivity.
    + intros [= <- <-]. now left.
  - intros [= <- <-]. now left.
  - intros [= <- <-]. now left.
  - intros [= <- <-]. now left.
  - intros [= <- <-]. now left.
Qed.

Lemma finishTask_settled (state : TaskState) :
  settled state = true -> finishTask this state = ([], state).
Proof.
  intros Hsettled. unfold finishTask.
  now rewrite !(resumeTask_settled state Hsettled).
Qed.

Lemma finishTask_is_settled (state : TaskState) :
  settled (snd (finishTask this state)) = true.
Proof.
  unfold finishTask.
  destruct (resumeTask this state) as [e1 s1] eqn:H1.
  destruct (resumeTask this s1) as [e2 s2] eqn:H2. simpl.
  destruct (resumeTask_next state s1 e1 H1) as [Hs1 | [e Hs1]].
  - rewrite (resumeTask_settled s1 Hs1) in H2. now inversion H2; subst.
  - rewrite Hs1 in H2. now inversion H2.
Qed.

(** One step of a task leaves, after it, what was left before it. *)
Lemma finishTask_step (state state' : TaskState) (effects : list Effect) :
  resumeTask this state = (effects, state') ->
  finishTask this state
  = (effects ++ fst (finishTask this state'), snd (finishTask this state')).
Proof.
  intros Hresume. unfold finishTask. rewrite Hresume.
  destruct (resumeTask this state') as [e2 s2] eqn:H2.
  destruct (resumeTask_next state state' effects Hresume) as [Hs | [e Hs]].
  - rewrite (resumeTask_settled state' Hs) in H2. inversion H2; subst.
    rewrite (resumeTask_settled s2 Hs). reflexivity.
  - rewrite Hs in H2. inversion H2; subst. simpl. now rewrite app_nil_r.
Qed.

Lemma runTask_finishTask (asset : AssetForCompression) :
  runTask this asset
  = (fst (startTask this asset) ++ fst (finishTask this (snd (startTask this asset))),
     snd (finishTask this (snd (startTask this asset)))).
Proof.
  unfold runTask, finishTask. destruct (startTask this asset) as [e0 s0]. simpl.
  destruct (resumeTask this s0) as [e1 s1]. destruct (resumeTask this s1) as [e2 s2].
  reflexivity.
Qed.

Lemma runTask_is_settled (asset : AssetForCompression) :
  settled (snd (runTask this asset)) = true.
Proof. rewrite runTask_finishTask. apply finishTask_is_settled. Qed.

(** The compilation after some steps is the compilation before them under
    the effects of the trace. *)
Lemma steps_compilation (p p' : Pool) (trace : list (nat * list Effect)) :
  steps this p trace p' -> snd p' = run_effects (snd p) (flatten trace).
Proof.
  induction 1 as [p | p p' p'' label trace Hstep Hsteps IH]; [reflexivity |].
  rewrite IH. destruct Hstep. simpl. now rewrite run_effects_app.
Qed.

Lemma steps_length (p p' : Pool) (trace : list (nat * list Effect)) :
  steps this p trace p' -> length (fst p') = length (fst p).
Proof.
  induction 1 as [p | p p' p'' label trace Hstep Hsteps IH]; [reflexivity |].
  rewrite IH. destruct Hstep. simpl. apply length_insert.
Qed.

(** Under any schedule each task goes through its own steps: what is left
    of task [j] before the steps is its effects in the trace followed by
    what is left of it after them. *)
Lemma steps_finishTask (p p' : Pool) (trace : list (nat * list Effect)) :
  steps this p trace p' ->
  forall j state, fst p !! j = Some state ->
  exists state',
    fst p' !! j = Some state'
    /\ finishTask this state
       = (effects_of j trace ++ fst (finishTask this state'),
          snd (finishTask this state')).
Proof.
  induction 1 as [p | p p' p'' label trace Hstep Hsteps IH]; intros j st Hj.
  - exists st. split; [exact Hj |]. simpl. now destruct (finishTask this st).
  - destruct Hstep as [states c i state state' effects Hi Hpending Hresume].
    simpl in *. destruct (Nat.eqb_spec i j) as [-> | Hij].
    + assert (st = state) by congruence. subst st.
      destruct (IH j state') as (st'' & Hj'' & Hfinish).
      { apply list_lookup_insert_eq. now apply lookup_lt_Some in Hi. }
      exists st''. split; [exact Hj'' |].
      rewrite (finishTask_step state state' effects Hresume), Hfinish. simpl.
      now rewrite app_assoc.
    + destruct (IH j st) as (st'' & Hj'' & Hfinish).
      { rewrite list_lookup_insert_ne by exact Hij. exact Hj. }
      exists st''. split; assumption.
Qed.

Lemma Promise_all_fulfilled (states : list TaskState) :
  Promise_all states = PromiseFulfilled ->
  forall j state, states !! j = Some state -> state = Fulfilled.
Proof.
  induction states as [|st states IH]; intros Hall j state Hj; [easy |].
  simpl in Hall.
  assert (Hst : st = Fulfilled /\ Promise_all states = PromiseFulfilled).
  { destruct st; try discriminate; destruct (Promise_all states);
      simpl in Hall; try discriminate; now split. }
  destruct Hst as [-> Hrest]. destruct j as [|j]; simpl in Hj.
  - congruence.
  - now apply (IH Hrest j).
Qed.

Lemma startTasks_spec (selected : list AssetForCompression) :
  forall (k : nat) (c c0 : Compilation) (t0 : list (nat * list Effect))
    (states0 : list TaskState),
  startTasks this k selected c = (t0, (states0, c0)) ->
  c0 = run_effects c (flatten t0)
  /\ length states0 = length selected
  /\ (forall i, (i < k)%nat -> effects_of i t0 = [])
  /\ (forall j asset, selected !! j = Some asset ->
        states0 !! j = Some (snd (startTask this asset))
        /\ effects_of (k + j) t0 = fst (startTask this asset)).
Proof.
  induction selected as [|asset rest IH]; intros k c c0 t0 states0 Hstart.
  - simpl in Hstart. inversion Hstart; subst. repeat split; easy.
  - simpl in Hstart. destruct (startTask this asset) as [effects state] eqn:Htask.
    destruct (startTasks this (S k) rest (run_effects c effects))
      as [trace [states c']] eqn:Hrest.
    inversion Hstart; subst. clear Hstart.
    destruct (IH _ _ _ _ _ Hrest) as (Hc & Hlen & Hbelow & Hat).
    split; [simpl; now rewrite run_effects_app |].
    split; [simpl; now rewrite Hlen |].
    split.
    + intros i Hi. simpl. destruct (Nat.eqb_spec k i); [lia |].
      apply Hbelow. lia.
    + intros [|j] a Hj; simpl in Hj.
      * inversion Hj; subst a. rewrite Htask. simpl. split; [reflexivity |].
        replace (k + 0)%nat with k by lia. rewrite Nat.eqb_refl.
        rewrite Hbelow by lia. apply app_nil_r.
      * destruct (Hat j a Hj) as [Hstate Heffects]. split; [exact Hstate |].
        simpl. destruct (Nat.eqb_spec k (k + S j)); [lia |].
        replace (k + S j)%nat with (S k + j)%nat by lia. exact Heffects.
Qed.

(** Under any schedule of a pass, the effects of the task of each selected
    asset are those of the task run alone, in the same order, and the
    compilation left is the one before the pass under the whole trace. *)
Lemma pass_projection (compilation c : Compilation) (names : list string)
  (trace : list (nat * list Effect)) :
  pass this compilation names trace c ->
  exists effects selected,
    assetsForCompression this compilation names = Normal (effects, selected)
    /\ c = run_effects compilation (flatten trace)
    /\ forall j asset, selected !! j = Some asset ->
         runTask this asset = (effects_of j trace, Fulfilled).
Proof.
  intros [effects selected t0 tr states0 states c0 c' Hselect Hstart Hsteps Hall].
  exists effects, selected. split; [exact Hselect |].
  destruct (startTasks_spec selected 0 compilation c0 t0 states0 Hstart)
    as (Hc0 & Hlen & _ & Hat).
  split.
  - rewrite flatten_app, run_effects_app, <- Hc0.
    apply (steps_compilation _ _ _ Hsteps).
  - intros j asset Hj. destruct (Hat j asset Hj) as [Hstate Heffects].
    destruct (steps_finishTask _ _ _ Hsteps j _ Hstate) as (state' & Hj' & Hfinish).
    simpl in Hj'. rewrite (Promise_all_fulfilled states Hall j state' Hj') in Hfinish.
    rewrite runTask_finishTask, Hfinish, effects_of_app. simpl.
    rewrite app_nil_r. now rewrite <- Heffects.
Qed.

(** *** The schedule of [compress] is one of them *)

Lemma steps_app (p p' p'' : Pool) (t t' : list (nat * list Effect)) :
  steps this p t p' -> steps this p' t' p'' -> steps this p (t ++ t') p''.
Proof.
  induction 1 as [p | p q p' label trace Hstep Hsteps IH]; intros Hrest.
  - exact Hrest.
  - simpl. eapply steps_next; [exact Hstep | now apply IH].
Qed.

Lemma resumeTasks_steps (suffix : list TaskState) :
  forall (prefix : list TaskState) (c c' : Compilation)
    (t : list (nat * list Effect)) (suffix' : list TaskState),
  resumeTasks this (length prefix) suffix c = (t, (suffix', c')) ->
  steps this (prefix ++ suffix, c) t (prefix ++ suffix', c')
  /\ suffix' = map (fun state => snd (resumeTask this state)) suffix.
Proof.
  induction suffix as [|state rest IH]; intros prefix c c' t suffix' Hresume.
  - simpl in Hresume. inversion Hresume; subst. split; [constructor | reflexivity].
  - simpl in Hresume. destruct (resumeTask this state) as [effects state'] eqn:Hstate.
    destruct (resumeTasks this (S (length prefix)) rest (run_effects c effects))
      as [trace [states' c'']] eqn:Hrest.
    inversion Hresume; subst. clear Hresume.
    destruct (IH (prefix ++ [state']) (run_effects c effects) c' trace states')
      as [Hsteps Hmap].
    { rewrite length_app. simpl. now rewrite Nat.add_1_r. }
    rewrite <- !app_assoc in Hsteps. simpl in Hsteps.
    split; [| simpl; rewrite Hstate; simpl; now rewrite Hmap].
    destruct (settled state) eqn:Hsettled.
    + rewrite (resumeTask_settled state Hsettled) in Hstate.
      inversion Hstate; subst. exact Hsteps.
    + eapply steps_next; [| exact Hsteps].
      replace (prefix ++ state' :: rest)
        with (<[length prefix := state']> (prefix ++ state :: rest)).
      * apply step_resume with (state := state); try assumption.
        now apply list_lookup_middle.
      * replace (length prefix) with (length prefix + 0)%nat at 1 by lia.
        now rewrite insert_app_r.
Qed.


Lemma selectAsset_ready (compilation : Compilation) (name : string)
  (effects : list Effect) (asset : AssetForCompression) :
  selectAsset this compilation name = Normal (effects, Some asset) ->
  ready asset = true.
Proof.
  unfold selectAsset. intros Hselect.
  destruct (assets compilation !! name) as [[source info] |]; [| discriminate].
  destruct (info_compressed info); [discriminate |].
  destruct (negb (matchObject (options this) name)); [discriminate |].
  destruct (has_related info (relatedName (options this))); [discriminate |].
  destruct (output_source _) eqn:Hsource.
  - inversion Hselect; subst. unfold ready. simpl. now rewrite Hsource.
  - destruct (PrimFloat.ltb _ _); [discriminate |].
    inversion Hselect; subst. unfold ready. simpl. now rewrite Hsource.
Qed.

Lemma assetsForCompression_ready (compilation : Compilation) (names : list string) :
  forall effects selected,
  assetsForCompression this compilation names = Normal (effects, selected) ->
  forall j asset, selected !! j = Some asset -> ready asset = true.
Proof.
  induction names as [|name rest IH]; intros effects selected Hselect j asset Hj.
  - simpl in Hselect. inversion Hselect; subst. easy.
  - simpl in Hselect.
    destruct (selectAsset this compilation name) as [[e a] | err] eqn:Hname;
      [| discriminate].
    destruct (assetsForCompression this compilation rest) as [[e' l] | err'];
      [| discriminate].
    inversion Hselect; subst. clear Hselect. destruct a as [a |].
    + destruct j as [|j]; simpl in Hj.
      * inversion Hj; subst. now apply (selectAsset_ready _ _ _ _ Hname).
      * now apply (IH e' l eq_refl j).
    + now apply (IH e' l eq_refl j).
Qed.

(** The task of a ready asset is fulfilled: an error of the algorithm is
    caught, and nothing else throws. *)
Lemma runTask_fulfilled (asset : AssetForCompression) :
  ready asset = true -> snd (runTask this asset) = Fulfilled.
Proof.
  unfold ready, runTask, startTask. intros Hready.
  destruct (output_source (a_output asset)); [reflexivity |].
  destruct (a_buffer asset) as [buffer |]; [| discriminate].
  destruct (output_compressed (a_output asset)) as [compressed |].
  - unfold afterCompression. now destruct (ratio_exceeds this compressed buffer).
  - simpl. destruct (runCompressionAlgorithm this buffer) as [compressed | error];
      [| reflexivity].
    unfold afterCompression. now destruct (ratio_exceeds this compressed buffer).
Qed.

Lemma Promise_all_intro (states : list TaskState) :
  (forall j state, states !! j = Some state -> state = Fulfilled) ->
  Promise_all states = PromiseFulfilled.
Proof.
  induction states as [|st states IH]; intros Hall; [reflexivity |].
  simpl. rewrite (Hall 0%nat st eq_refl).
  rewrite IH; [reflexivity |]. intros j state Hj. now apply (Hall (S j)).
Qed.

(** [compress] does not reject once its assets are selected, and what it
    returns is a pass. *)
Lemma compress_pass (compilation : Compilation) (names : list string)
  (effects : list Effect) (selected : list AssetForCompression) :
  assetsForCompression this compilation names = Normal (effects, selected) ->
  exists trace c,
    compress this compilation names = Normal (trace, c)
    /\ pass this compilation names trace c.
Proof.
  intros Hselect. unfold compress. rewrite Hselect.
  destruct (startTasks this 0 selected compilation) as [t0 [s0 c0]] eqn:Hstart.
  destruct (resumeTasks this 0 s0 c0) as [t1 [s1 c1]] eqn:Hround1.
  destruct (resumeTasks this 0 s1 c1) as [t2 [s2 c2]] eqn:Hround2.
  destruct (resumeTasks_steps s0 [] c0 c1 t1 s1 Hround1) as [Hsteps1 Hs1].
  destruct (resumeTasks_steps s1 [] c1 c2 t2 s2 Hround2) as [Hsteps2 Hs2].
  simpl in Hsteps1, Hsteps2.
  destruct (startTasks_spec selected 0 compilation c0 t0 s0 Hstart)
    as (_ & Hlen & _ & Hat).
  assert (Hall : Promise_all s2 = PromiseFulfilled).
  { apply Promise_all_intro. intros j state Hj.
    rewrite Hs2, Hs1, map_map in Hj.
    rewrite list_lookup_fmap in Hj.
    destruct (s0 !! j) as [st0 |] eqn:Hst0; [| discriminate].
    simpl in Hj. inversion Hj; subst state. clear Hj.
    destruct (selected !! j) as [asset |] eqn:Hasset.
    - destruct (Hat j asset Hasset) as [Hstate _].
      assert (st0 = snd (startTask this asset)) by congruence. subst st0.
      pose proof (runTask_fulfilled asset
                    (assetsForCompression_ready _ _ _ _ Hselect j asset Hasset))
        as Hfulfilled.
      rewrite runTask_finishTask in Hfulfilled. simpl in Hfulfilled.
      rewrite <- Hfulfilled. unfold finishTask.
      destruct (resumeTask this (snd (startTask this asset))) as [e1 x1].
      simpl. now destruct (resumeTask this x1).
    - apply lookup_ge_None in Hasset. apply lookup_lt_Some in Hst0. lia. }
  rewrite Hall. eexists. eexists. split; [reflexivity |].
  rewrite app_assoc. rewrite <- (app_assoc t0 t1 t2).
  eapply pass_intro; eauto. eapply steps_app; eassumption.
Qed.

End PoolFacts.

(** ** A failing algorithm *)

Lemma errors_run_effects (c : Compilation) (es : list Effect) (error : Error) :
  In error (errors c) -> In error (errors (run_effects c es)).
Proof.
  revert c. induction es as [|e es IH]; intros c Hin; [exact Hin |].
  simpl. apply IH. destruct e; simpl; try exact Hin.
  - apply in_or_app. now left.
  - now destruct (assets c !! name).
Qed.

Lemma errors_PushError (c : Compilation) (es : list Effect) (error : Error) :
  In (PushError error) es -> In error (errors (run_effects c es)).
Proof.
  revert c. induction es as [|e es IH]; intros c Hin; [easy |].
  destruct Hin as [-> | Hin].
  - simpl. apply errors_run_effects. simpl. apply in_or_app. right. now left.
  - simpl. now apply IH.
Qed.

Lemma effects_of_flatten (i : nat) (trace : list (nat * list Effect)) (e : Effect) :
  In e (effects_of i trace) -> In e (flatten trace).
Proof.
  induction trace as [|[j es] trace IH]; simpl; [easy |].
  destruct (Nat.eqb j i); intros Hin; apply in_or_app.
  - apply in_app_or in Hin. destruct Hin; [now left | right; now apply IH].
  - right. now apply IH.
Qed.

(** Without a rejected task, [Promise.all] is fulfilled exactly when every
    task is settled, and pending otherwise. *)
Lemma Promise_all_settled (states : list TaskState) :
  (forall j state e, states !! j = Some state -> state <> Rejected e) ->
  (Promise_all states = PromiseFulfilled
   /\ forall j state, states !! j = Some state -> settled state = true)
  \/ (Promise_all states = PromisePending
      /\ exists j state, states !! j = Some state /\ settled state = false).
Proof.
  induction states as [|st states IH]; intros Hnone.
  - left. split; [reflexivity | easy].
  - assert (Hrest : forall j state e, states !! j = Some state -> state <> Rejected e)
      by (intros j state e Hj; now apply (Hnone (S j))).
    assert (Hst : forall e, st <> Rejected e)
      by (intros e; now apply (Hnone 0%nat)).
    simpl. destruct (IH Hrest) as [[Hall Hsettled] | [Hall (j & state & Hj & Hpending)]];
      rewrite Hall.
    + destruct st; try (exfalso; now apply (Hst e)).
      * right. split; [reflexivity |]. now exists 0%nat, (AwaitAlgorithm asset buffer).
      * right. split; [reflexivity |]. now exists 0%nat, AwaitStoreRejected.
      * right. split; [reflexivity |].
        now exists 0%nat, (AwaitStoreAccepted asset output_source0).
      * left. split; [reflexivity |]. intros [|j] state Hj; simpl in Hj.
        -- now inversion Hj.
        -- now apply (Hsettled j).
    + right. split.
      * destruct st; try reflexivity. exfalso. now apply (Hst e).
      * now exists (S j), state.
Qed.

Section FailureFacts.
Context `{Host}.
Variable this : CompressionPlugin.

(** No task of a selected asset is ever rejected, whatever the schedule. *)
Lemma steps_never_rejected (compilation c0 c : Compilation) (names : list string)
  (effects : list Effect) (selected : list AssetForCompression)
  (t0 trace : list (nat * list Effect)) (states0 states : list TaskState) :
  assetsForCompression this compilation names = Normal (effects, selected) ->
  startTasks this 0 selected compilation = (t0, (states0, c0)) ->
  steps this (states0, c0) trace (states, c) ->
  forall j state e, states !! j = Some state -> state <> Rejected e.
Proof.
  intros Hselect Hstart Hsteps j state e Hj ->.
  destruct (startTasks_spec this selected 0 compilation c0 t0 states0 Hstart)
    as (_ & Hlen & _ & Hat).
  pose proof (steps_length this _ _ _ Hsteps) as Hlen'. simpl in Hlen'.
  destruct (selected !! j) as [asset |] eqn:Hasset.
  - destruct (Hat j asset Hasset) as [Hstate _].
    destruct (steps_finishTask this _ _ _ Hsteps j _ Hstate) as (state' & Hj' & Hfinish).
    simpl in Hj'. assert (state' = Rejected e) by congruence. subst state'.
    pose proof (runTask_fulfilled this asset
                  (assetsForCompression_ready this _ _ _ _ Hselect j asset Hasset))
      as Hfulfilled.
    rewrite runTask_finishTask, Hfinish in Hfulfilled. simpl in Hfulfilled.
    discriminate.
  - apply lookup_ge_None in Hasset. apply lookup_lt_Some in Hj. lia.
Qed.

(** C4. An asset whose algorithm fails, among the selected assets of a
    pass.  Under every schedule its task pushes the error on the errors of
    the compilation and does nothing else after invoking the algorithm: it
    writes no asset and stores nothing.  The task of every other asset has
    exactly the effects it has when run alone and is fulfilled.  No task is
    ever rejected, so the join is fulfilled exactly when every task is
    settled and is pending until then; and the pass does complete. *)
Theorem algorithm_failure_is_isolated (compilation : Compilation)
  (names : list string) (effects : list Effect) (selected : list AssetForCompression)
  (i : nat) (asset : AssetForCompression) (buffer : Buffer) (error : Error) :
  assetsForCompression this compilation names = Normal (effects, selected) ->
  selected !! i = Some asset ->
  output_source (a_output asset) = None ->
  output_compressed (a_output asset) = None ->
  a_buffer asset = Some buffer ->
  runCompressionAlgorithm this buffer = Throw error ->
  (forall trace c,
      pass this compilation names trace c ->
      effects_of i trace = [RunAlgorithm buffer; PushError error]
      /\ In error (errors c)
      /\ (forall e, In e (effects_of i trace) -> writes_asset e = false)
      /\ (forall j other,
             j <> i -> selected !! j = Some other ->
             runTask this other = (effects_of j trace, Fulfilled)))
  /\ (forall t0 states0 c0 trace states c,
         startTasks this 0 selected compilation = (t0, (states0, c0)) ->
         steps this (states0, c0) trace (states, c) ->
         (Promise_all states = PromiseFulfilled
          /\ forall j state, states !! j = Some state -> settled state = true)
         \/ (Promise_all states = PromisePending
             /\ exists j state, states !! j = Some state /\ settled state = false))
  /\ (exists trace c, pass this compilation names trace c).
Proof.
  intros Hselect Hi Hsource Hcompressed Hbuffer Hrun.
  assert (Htask : runTask this asset = ([RunAlgorithm buffer; PushError error], Fulfilled)).
  { unfold runTask, startTask. rewrite Hsource, Hbuffer, Hcompressed. simpl.
    now rewrite Hrun. }
  split; [| split].
  - intros trace c Hpass.
    destruct (pass_projection this _ _ _ _ Hpass)
      as (effects' & selected' & Hselect' & Hc & Hproj).
    assert (selected' = selected) by congruence. subst selected'.
    pose proof (Hproj i asset Hi) as Hmine. rewrite Htask in Hmine.
    assert (Heffects : effects_of i trace = [RunAlgorithm buffer; PushError error])
      by congruence.
    rewrite Heffects.
    split; [reflexivity |]. split; [| split].
    + rewrite Hc. apply errors_PushError. apply (effects_of_flatten i).
      rewrite Heffects. right. now left.
    + intros e [<- | [<- | []]]; reflexivity.
    + intros j other _ Hj. now apply Hproj.
  - intros t0 states0 c0 trace states c Hstart Hsteps.
    apply Promise_all_settled.
    apply (steps_never_rejected compilation c0 c names effects selected t0 trace
             states0 states Hselect Hstart Hsteps).
  - destruct (compress_pass this compilation names effects selected Hselect)
      as (trace & c & _ & Hpass).
    now exists trace, c.
Qed.

End FailureFacts.

(** ** A cached output *)

Section CacheFacts.
Context `{Host}.
Variable this : CompressionPlugin.

Lemma selectAsset_eligible (compilation : Compilation) (name : string)
  (original : Asset) :
  assets compilation !! name = Some original ->
  info_compressed (info original) = false ->
  matchObject (options this) name = true ->
  has_related (info original) (relatedName (options this)) = false ->
  selectAsset this compilation name
  = let cacheItem := getItemCache this name (source original) in
    let output :=
      default (mkOutput None None) (cache_get (cache compilation) cacheItem) in
    match output_source output with
    | Some _ =>
        Normal ([GetItem cacheItem],
                Some (mkAssetForCompression name (source original) (info original)
                        None output cacheItem (relatedName (options this))))
    | None =>
        let buffer := source_buffer (source original) in
        if (number_of_length (length buffer) <? threshold (options this))%float
        then Normal ([GetItem cacheItem; ReadBuffer (source original)], None)
        else Normal ([GetItem cacheItem; ReadBuffer (source original)],
                     Some (mkAssetForCompression name (source original)
                             (info original) (Some buffer) output cacheItem
                             (relatedName (options this))))
    end.
Proof.
  intros Hname Hcompressed Hmatch Hrelated. unfold selectAsset. rewrite Hname.
  destruct original as [source info]. simpl in *.
  now rewrite Hcompressed, Hmatch, Hrelated.
Qed.

(** Every effect of selecting an asset that reads a buffer comes from an
    asset whose cache lookup gave no output source. *)
Lemma selectAsset_ReadBuffer (compilation : Compilation) (name : string)
  (effects : list Effect) (selected : option AssetForCompression) (read : Source) :
  selectAsset this compilation name = Normal (effects, selected) ->
  In (ReadBuffer read) effects ->
  exists original,
    assets compilation !! name = Some original
    /\ read = source original
    /\ output_source
         (default (mkOutput None None)
            (cache_get (cache compilation) (getItemCache this name (source original))))
       = None.
Proof.
  unfold selectAsset. intros Hselect Hin.
  destruct (assets compilation !! name) as [[source info] |]; [| discriminate].
  exists (mkAsset source info). split; [reflexivity |]. simpl.
  destruct (info_compressed info); [inversion Hselect; subst; easy |].
  destruct (negb (matchObject (options this) name)); [inversion Hselect; subst; easy |].
  destruct (has_related info (relatedName (options this)));
    [inversion Hselect; subst; easy |].
  destruct (output_source _) eqn:Hsource.
  - inversion Hselect; subst. destruct Hin as [Hin | []]. discriminate.
  - split; [| reflexivity].
    destruct (PrimFloat.ltb _ _); inversion Hselect; subst;
      destruct Hin as [Hin | [Hin | []]]; congruence.
Qed.

(** C10. An eligible asset whose cache item holds an output with a source
    is selected with the one effect of the lookup: its buffer is not read
    and stays undefined, whatever the threshold.  Its task is the emission
    alone, from the cached source.  The same asset without a cached source
    and below the threshold is read and dropped.  In general a buffer is
    read only after a lookup that gave no output source. *)
Theorem cached_output_skips_buffer (compilation : Compilation) (name : string)
  (original : Asset) (cached : Output) (cached_source : Source) :
  assets compilation !! name = Some original ->
  info_compressed (info original) = false ->
  matchObject (options this) name = true ->
  has_related (info original) (relatedName (options this)) = false ->
  cache_get (cache compilation) (getItemCache this name (source original)) = Some cached ->
  output_source cached = Some cached_source ->
  let cacheItem := getItemCache this name (source original) in
  let newFilename := getPath (filename (options this)) name in
  exists asset,
    selectAsset this compilation name = Normal ([GetItem cacheItem], Some asset)
    /\ a_name asset = name
    /\ a_buffer asset = None
    /\ runTask this asset
       = (disposeOriginal this asset newFilename
          ++ [EmitAsset newFilename cached_source (newInfo this (info original))],
          Fulfilled)
    /\ (forall uncached,
           assets uncached = assets compilation ->
           cache_get (cache uncached) cacheItem = None ->
           (number_of_length (length (source_buffer (source original)))
            <? threshold (options this))%float = true ->
           selectAsset this uncached name
           = Normal ([GetItem cacheItem; ReadBuffer (source original)], None))
    /\ (forall compilation' name' effects selected read,
           selectAsset this compilation' name' = Normal (effects, selected) ->
           In (ReadBuffer read) effects ->
           exists original',
             assets compilation' !! name' = Some original'
             /\ read = source original'
             /\ output_source
                  (default (mkOutput None None)
                     (cache_get (cache compilation')
                        (getItemCache this name' (source original'))))
                = None).
Proof.
  intros Hname Hcompressed Hmatch Hrelated Hcached Hsource cacheItem newFilename.
  pose proof (selectAsset_eligible compilation name original Hname Hcompressed
                Hmatch Hrelated) as Hselect.
  cbv zeta in Hselect. fold cacheItem in Hselect. fold cacheItem in Hcached.
  rewrite Hcached in Hselect. simpl in Hselect. rewrite Hsource in Hselect.
  eexists. split; [exact Hselect |]. split; [reflexivity |].
  split; [reflexivity |]. split; [| split].
  - unfold runTask, startTask. simpl. rewrite Hsource. simpl.
    now rewrite app_nil_r.
  - intros uncached Hassets Hnone Hsmall.
    rewrite (selectAsset_eligible uncached name original) by congruence.
    cbv zeta. fold cacheItem. rewrite Hnone. simpl. now rewrite Hsmall.
  - apply selectAsset_ReadBuffer.
Qed.

Lemma assetsForCompression_selected (compilation : Compilation) (names : list string) :
  forall effects selected,
  assetsForCompression this compilation names = Normal (effects, selected) ->
  forall j asset, selected !! j = Some asset ->
  exists name effects',
    In name names
    /\ selectAsset this compilation name = Normal (effects', Some asset).
Proof.
  induction names as [|name rest IH]; intros effects selected Hselect j asset Hj.
  - simpl in Hselect. inversion Hselect; subst. easy.
  - simpl in Hselect.
    destruct (selectAsset this compilation name) as [[e a] | err] eqn:Hname;
      [| discriminate].
    destruct (assetsForCompression this compilation rest) as [[e' l] | err'];
      [| discriminate].
    inversion Hselect; subst. clear Hselect.
    assert (Hrest : forall j, l !! j = Some asset ->
                    exists name' effects',
                      In name' (name :: rest)
                      /\ selectAsset this compilation name' = Normal (effects', Some asset)).
    { intros k Hk. destruct (IH e' l eq_refl k asset Hk) as (n & ef & Hin & Hn).
      exists n, ef. split; [now right | exact Hn]. }
    destruct a as [a |]; [| now apply (Hrest j)].
    destruct j as [|j]; simpl in Hj; [| now apply (Hrest j)].
    inversion Hj; subst. exists name, e. split; [now left | exact Hname].
Qed.

Lemma selectAsset_output (compilation : Compilation) (name : string)
  (effects : list Effect) (asset : AssetForCompression) :
  selectAsset this compilation name = Normal (effects, Some asset) ->
  exists original,
    assets compilation !! name = Some original
    /\ a_name asset = name
    /\ a_source asset = source original
    /\ a_info asset = info original
    /\ a_cacheItem asset = getItemCache this name (source original)
    /\ a_output asset
       = default (mkOutput None None)
           (cache_get (cache compilation) (getItemCache this name (source original)))
    /\ info_compressed (info original) = false
    /\ matchObject (options this) name = true
    /\ has_related (info original) (relatedName (options this)) = false.
Proof.
  unfold selectAsset. intros Hselect.
  destruct (assets compilation !! name) as [[source info] |]; [| discriminate].
  exists (mkAsset source info). split; [reflexivity |]. simpl.
  destruct (info_compressed info); [discriminate |].
  destruct (matchObject (options this) name); [| discriminate]. simpl in Hselect.
  destruct (has_related info (relatedName (options this))); [discriminate |].
  destruct (output_source _) eqn:Hsource.
  - inversion Hselect; subst. simpl. repeat split; reflexivity.
  - destruct (PrimFloat.ltb _ _); [discriminate |].
    inversion Hselect; subst. simpl. repeat split; reflexivity.
Qed.

(** What the callback returns for a name of the pass is among the
    selected assets. *)
Lemma assetsForCompression_holds (compilation : Compilation) (names : list string) :
  forall effects selected,
  assetsForCompression this compilation names = Normal (effects, selected) ->
  forall name e asset,
  In name names ->
  selectAsset this compilation name = Normal (e, Some asset) ->
  In asset selected.
Proof.
  induction names as [|first rest IH]; intros effects selected Hselect name e asset Hin
    Hname; [destruct Hin |].
  simpl in Hselect.
  destruct (selectAsset this compilation first) as [[e1 r1] | err] eqn:Hfirst;
    [| discriminate].
  destruct (assetsForCompression this compilation rest) as [[e' l] | err'] eqn:Hrest;
    [| discriminate].
  inversion Hselect; subst. clear Hselect.
  destruct Hin as [-> | Hin].
  - rewrite Hname in Hfirst. inversion Hfirst; subst. now left.
  - pose proof (IH e' l eq_refl name e asset Hin Hname) as Hl.
    destruct r1; [now right | exact Hl].
Qed.

(** C3, as the code has it.  An eligible asset whose cache lookup returns
    an output with a source is selected with the one effect of the lookup:
    its buffer is not read and no threshold is tested.  It is not skipped:
    it is among the selected assets of every pass over names that hold its
    name, such a pass exists, and under every schedule its task invokes no
    algorithm and stores nothing, disposes of the original as configured
    and emits the derived asset with the cached source. *)
Theorem cached_output_is_emitted (compilation : Compilation) (names : list string)
  (name : string) (original : Asset) (cached : Output) (cached_source : Source) :
  In name names ->
  assets compilation !! name = Some original ->
  info_compressed (info original) = false ->
  matchObject (options this) name = true ->
  has_related (info original) (relatedName (options this)) = false ->
  cache_get (cache compilation) (getItemCache this name (source original)) = Some cached ->
  output_source cached = Some cached_source ->
  let cacheItem := getItemCache this name (source original) in
  let asset :=
    mkAssetForCompression name (source original) (info original) None cached cacheItem
      (relatedName (options this)) in
  let newFilename := getPath (filename (options this)) name in
  let emission := EmitAsset newFilename cached_source (newInfo this (info original)) in
  selectAsset this compilation name = Normal ([GetItem cacheItem], Some asset)
  /\ forall effects selected,
      assetsForCompression this compilation names = Normal (effects, selected) ->
      (exists i, selected !! i = Some asset)
      /\ (exists trace c, pass this compilation names trace c)
      /\ forall i trace c,
          selected !! i = Some asset ->
          pass this compilation names trace c ->
          effects_of i trace = disposeOriginal this asset newFilename ++ [emission]
          /\ (forall e, In e (effects_of i trace) -> runs_algorithm e = false)
          /\ (forall e item value, In e (effects_of i trace) -> e <> StoreItem item value)
          /\ In emission (flatten trace).
Proof.
  intros Hin Hname Hcompressed Hmatch Hrelated Hcached Hsource cacheItem asset
    newFilename emission.
  assert (Hselect : selectAsset this compilation name
                    = Normal ([GetItem cacheItem], Some asset)).
  { rewrite (selectAsset_eligible compilation name original Hname Hcompressed
               Hmatch Hrelated).
    cbv zeta. fold cacheItem. fold cacheItem in Hcached. rewrite Hcached. simpl.
    now rewrite Hsource. }
  split; [exact Hselect |]. intros effects selected Hselected.
  assert (Htask : runTask this asset
                  = (disposeOriginal this asset newFilename ++ [emission], Fulfilled)).
  { unfold runTask, startTask. simpl. rewrite Hsource. simpl. now rewrite app_nil_r. }
  split; [| split].
  - apply list_elem_of_lookup, list_elem_of_In.
    apply (assetsForCompression_holds compilation names effects selected Hselected
             name _ asset Hin Hselect).
  - destruct (compress_pass this compilation names effects selected Hselected)
      as (trace & c & _ & Hpass).
    now exists trace, c.
  - intros i trace c Hi Hpass.
    destruct (pass_projection this _ _ _ _ Hpass)
      as (effects' & selected' & Hselect' & Hc & Hproj).
    assert (selected' = selected) by congruence. subst selected'.
    pose proof (Hproj i asset Hi) as Hmine. rewrite Htask in Hmine.
    assert (Heffects : effects_of i trace
                       = disposeOriginal this asset newFilename ++ [emission])
      by congruence.
    assert (Hkinds : forall e, In e (effects_of i trace) ->
                     runs_algorithm e = false /\ forall item value, e <> StoreItem item value).
    { rewrite Heffects. intros e He. apply in_app_or in He.
      destruct He as [He | [<- | []]]; [| now split].
      unfold disposeOriginal in He.
      destruct (deleteOriginalAssets (options this)) as [[|] | | fn];
        try destruct (fn (a_name asset)); simpl in He;
        repeat (destruct He as [<- | He]; [now split |]); destruct He. }
    split; [exact Heffects |]. split; [intros e He; now apply Hkinds |].
    split; [intros e item value He; now apply Hkinds |].
    apply (effects_of_flatten i). rewrite Heffects. apply in_or_app. right. now left.
Qed.

End CacheFacts.

(** ** The scenarios of the tasks, run *)

Lemma ratio_policy_scenarios :
  @runTask Node.host Scenario.gzip_plugin Scenario.app_js_selected
  = ([RunAlgorithm Scenario.zeros;
      StoreItem (Scenario.item "app.js" Scenario.zeros)
        (mkOutput (Some (RawSource Scenario.compressed_zeros))
           (Some Scenario.compressed_zeros));
      UpdateAsset "app.js" (WebpackSource Scenario.zeros)
        {[ "gzipped" := RelatedFile "app.js.gz" ]};
      EmitAsset "app.js.gz" (RawSource Scenario.compressed_zeros)
        Scenario.derived_info],
     Fulfilled)
  /\ @runTask Node.host Scenario.gzip_plugin Scenario.tiny_js_selected
     = ([RunAlgorithm (Buffer_from "abc");
         StoreItem (Scenario.item "tiny.js" (Buffer_from "abc"))
           (mkOutput None (Some (Node.run_length (Buffer_from "abc"))))],
        Fulfilled).
Proof.
  assert (Hzeros : @runCompressionAlgorithm Scenario.gzip_plugin Scenario.zeros
                   = Normal Scenario.compressed_zeros)
    by (vm_compute; reflexivity).
  assert (Habc : @runCompressionAlgorithm Scenario.gzip_plugin (Buffer_from "abc")
                 = Normal (Node.run_length (Buffer_from "abc")))
    by (vm_compute; reflexivity).
  split.
  - pose proof (@ratio_policy Node.host Scenario.gzip_plugin Scenario.app_js_selected
                  Scenario.zeros Scenario.compressed_zeros Scenario.first_build
                  eq_refl eq_refl (or_intror (conj eq_refl Hzeros)))
      as Hpolicy.
    cbv zeta in Hpolicy. destruct Hpolicy as [_ Haccept].
    destruct Haccept as [Hrun _]; [vm_compute; reflexivity | exact Hrun].
  - pose proof (@ratio_policy Node.host Scenario.gzip_plugin Scenario.tiny_js_selected
                  (Buffer_from "abc") (Node.run_length (Buffer_from "abc"))
                  Scenario.first_build eq_refl eq_refl
                  (or_intror (conj eq_refl Habc)))
      as Hpolicy.
    cbv zeta in Hpolicy. destruct Hpolicy as [Hreject _].
    destruct Hreject as [Hrun _]; [vm_compute; reflexivity | exact Hrun].
Defined.

Lemma algorithm_failure_is_isolated_scenario :
  @assetsForCompression Node.host Scenario.picky_plugin Scenario.two_assets
    ["bad.js"; "app.js"]
  = Normal ([GetItem (a_cacheItem Scenario.bad_js_selected);
             ReadBuffer (WebpackSource Scenario.bad_buffer);
             GetItem (a_cacheItem Scenario.app_js_picky);
             ReadBuffer (WebpackSource Scenario.zeros)],
            [Scenario.bad_js_selected; Scenario.app_js_picky])
  /\ exists trace c,
      @pass Node.host Scenario.picky_plugin Scenario.two_assets ["bad.js"; "app.js"]
        trace c
      /\ effects_of 0 trace
         = [RunAlgorithm Scenario.bad_buffer; PushError (mkError "bad input")]
      /\ In (mkError "bad input") (errors c)
      /\ @runTask Node.host Scenario.picky_plugin Scenario.app_js_picky
         = (effects_of 1 trace, Fulfilled).
Proof.
  assert (Hselect :
            @assetsForCompression Node.host Scenario.picky_plugin Scenario.two_assets
              ["bad.js"; "app.js"]
            = Normal ([GetItem (a_cacheItem Scenario.bad_js_selected);
                       ReadBuffer (WebpackSource Scenario.bad_buffer);
                       GetItem (a_cacheItem Scenario.app_js_picky);
                       ReadBuffer (WebpackSource Scenario.zeros)],
                      [Scenario.bad_js_selected; Scenario.app_js_picky]))
    by (vm_compute; reflexivity).
  split; [exact Hselect |].
  destruct (@algorithm_failure_is_isolated Node.host Scenario.picky_plugin
              Scenario.two_assets ["bad.js"; "app.js"] _ _ 0%nat
              Scenario.bad_js_selected Scenario.bad_buffer (mkError "bad input")
              Hselect eq_refl eq_refl eq_refl eq_refl eq_refl)
    as (Hpasses & _ & (trace & c & Hpass)).
  exists trace, c. split; [exact Hpass |].
  destruct (Hpasses trace c Hpass) as (Hmine & Herror & _ & Hothers).
  split; [exact Hmine |]. split; [exact Herror |].
  apply (Hothers 1%nat); [discriminate | reflexivity].
Defined.

Lemma cached_output_skips_buffer_scenario :
  @selectAsset Node.host Scenario.threshold_plugin Scenario.later_build "app.js"
  = Normal ([GetItem (Scenario.item "app.js" Scenario.zeros)],
            Some Scenario.app_js_cached)
  /\ a_buffer Scenario.app_js_cached = None
  /\ (number_of_length (length Scenario.zeros)
      <? threshold (options Scenario.threshold_plugin))%float = true
  /\ @runTask Node.host Scenario.threshold_plugin Scenario.app_js_cached
     = ([UpdateAsset "app.js" (WebpackSource Scenario.zeros)
           {[ "gzipped" := RelatedFile "app.js.gz" ]};
         EmitAsset "app.js.gz" (RawSource Scenario.compressed_zeros)
           Scenario.derived_info],
        Fulfilled).
Proof.
  pose proof (@cached_output_skips_buffer Node.host Scenario.threshold_plugin
                Scenario.later_build "app.js" Scenario.app_js
                (mkOutput (Some (RawSource Scenario.compressed_zeros))
                   (Some Scenario.compressed_zeros))
                (RawSource Scenario.compressed_zeros)
                eq_refl eq_refl eq_refl eq_refl
                ltac:(vm_compute; reflexivity) eq_refl) as Hcached.
  cbv zeta in Hcached.
  destruct Hcached as (asset & Hselect & _ & Hbuffer & Hrun & _).
  assert (Hasset : Some asset = Some Scenario.app_js_cached).
  { assert (Hcomputed :
              @selectAsset Node.host Scenario.threshold_plugin Scenario.later_build
                "app.js"
              = Normal ([GetItem (Scenario.item "app.js" Scenario.zeros)],
                        Some Scenario.app_js_cached))
      by (vm_compute; reflexivity).
    rewrite Hcomputed in Hselect. congruence. }
  inversion Hasset; subst asset.
  split; [exact Hselect |]. split; [exact Hbuffer |].
  split; [vm_compute; reflexivity |]. rewrite Hrun. reflexivity.
Defined.

(** Against C3 read as a skip: on the later build the asset with a cached
    source is not left as it was.  The derived asset, absent before the
    pass, is emitted from the cache, and the original gains the relation. *)
Lemma cached_output_not_skipped :
  match @compress Node.host Scenario.gzip_plugin Scenario.later_build ["app.js"] with
  | Normal (trace, c) =>
      assets Scenario.later_build !! "app.js.gz" = None
      /\ assets c !! "app.js.gz"
         = Some (mkAsset (RawSource Scenario.compressed_zeros) Scenario.derived_info)
      /\ info_related (info Scenario.app_js) = None
      /\ assets c !! "app.js"
         = Some (mkAsset (WebpackSource Scenario.zeros)
                   (mkAssetInfo false false
                      (Some {[ "gzipped" := RelatedFile "app.js.gz" ]})))
  | Throw _ => False
  end.
Proof. vm_compute. repeat split; reflexivity. Qed.

Lemma cached_output_is_emitted_scenario :
  (number_of_length (length Scenario.zeros)
   <? threshold (options Scenario.threshold_plugin))%float = true
  /\ @selectAsset Node.host Scenario.threshold_plugin Scenario.later_build "app.js"
     = Normal ([GetItem (Scenario.item "app.js" Scenario.zeros)],
               Some Scenario.app_js_cached)
  /\ (exists trace c,
         @pass Node.host Scenario.threshold_plugin Scenario.later_build ["app.js"] trace c)
  /\ forall trace c,
      @pass Node.host Scenario.threshold_plugin Scenario.later_build ["app.js"] trace c ->
      In (EmitAsset "app.js.gz" (RawSource Scenario.compressed_zeros)
            Scenario.derived_info)
        (flatten trace).
Proof.
  pose proof (@cached_output_is_emitted Node.host Scenario.threshold_plugin
                Scenario.later_build ["app.js"] "app.js" Scenario.app_js
                (mkOutput (Some (RawSource Scenario.compressed_zeros))
                   (Some Scenario.compressed_zeros))
                (RawSource Scenario.compressed_zeros)
                (or_introl eq_refl) eq_refl eq_refl eq_refl eq_refl
                ltac:(vm_compute; reflexivity) eq_refl) as Hcached.
  cbv zeta in Hcached. destruct Hcached as [Hselect Hpasses].
  assert (Hselected :
            @assetsForCompression Node.host Scenario.threshold_plugin Scenario.later_build
              ["app.js"]
            = Normal ([GetItem (Scenario.item "app.js" Scenario.zeros)],
                      [Scenario.app_js_cached]))
    by (vm_compute; reflexivity).
  destruct (Hpasses _ _ Hselected) as (_ & Hexists & Htask).
  split; [vm_compute; reflexivity |]. split; [exact Hselect |].
  split; [exact Hexists |]. intros trace c Hpass.
  destruct (Htask 0%nat trace c eq_refl Hpass) as (_ & _ & _ & Hin). exact Hin.
Defined.

(** C2 at [deleteOriginalAssets: () => false] on the first build: the
    derived asset is emitted and the original is kept as it was, with no
    related entry. *)
Lemma predicate_false_sets_no_relation :
  match @compress Node.host Scenario.keep_plugin Scenario.first_build ["app.js"] with
  | Normal (trace, c) =>
      assets c !! "app.js.gz"
      = Some (mkAsset (RawSource Scenario.compressed_zeros) Scenario.derived_info)
      /\ assets c !! "app.js" = Some Scenario.app_js
      /\ info_related (info Scenario.app_js) = None
      /\ forall name source related, ~ In (UpdateAsset name source related) (flatten trace)
  | Throw _ => False
  end.
Proof.
  vm_compute. repeat split; try reflexivity.
  intros name source related Hin.
  repeat (destruct Hin as [Hin | Hin]; [discriminate |]). exact Hin.
Qed.

(** ** One name at a time *)


Lemma run_effect_lookup (c : Compilation) (e : Effect) (name : string) :
  assets (run_effect c e) !! name = asset_effect name (assets c !! name) e.
Proof.
  destruct e as [| | | | | name' source patch | name' | name' source info]; simpl;
    try reflexivity.
  - destruct (assets c !! name') as [old |] eqn:Hold; simpl.
    + destruct (decide (name' = name)) as [-> | Hne].
      * rewrite lookup_insert_eq, Hold. reflexivity.
      * now rewrite lookup_insert_ne.
    + destruct (decide (name' = name)) as [-> | Hne]; [now rewrite Hold | reflexivity].
  - destruct (decide (name' = name)) as [-> | Hne].
    + apply lookup_delete_eq.
    + now apply lookup_delete_ne.
  - destruct (decide (name' = name)) as [-> | Hne].
    + apply lookup_insert_eq.
    + now apply lookup_insert_ne.
Qed.

Lemma run_effects_lookup (es : list Effect) (c : Compilation) (name : string) :
  assets (run_effects c es) !! name = fold_left (asset_effect name) es (assets c !! name).
Proof.
  revert c. induction es as [|e es IH]; intros c; [reflexivity |].
  unfold run_effects in *. simpl. now rewrite IH, run_effect_lookup.
Qed.

Lemma run_effect_cache (c : Compilation) (e : Effect) (item : CacheItem) :
  cache_get (cache (run_effect c e)) item = cache_effect item (cache_get (cache c) item) e.
Proof.
  destruct e; simpl; try reflexivity. now destruct (assets c !! name).
Qed.

Lemma run_effects_cache (es : list Effect) (c : Compilation) (item : CacheItem) :
  cache_get (cache (run_effects c es)) item
  = fold_left (cache_effect item) es (cache_get (cache c) item).
Proof.
  revert c. induction es as [|e es IH]; intros c; [reflexivity |].
  unfold run_effects in *. simpl. now rewrite IH, run_effect_cache.
Qed.

Lemma asset_effect_inert (name : string) (binding : option Asset) (e : Effect) :
  written e <> Some name -> asset_effect name binding e = binding.
Proof.
  destruct e; simpl; try reflexivity; intros Hne;
    destruct (decide (_ = name)); congruence.
Qed.

Lemma cache_effect_inert (item : CacheItem) (value : option Output) (e : Effect) :
  stored_item e <> Some item -> cache_effect item value e = value.
Proof.
  destruct e; simpl; try reflexivity; intros Hne.
  destruct (decide (item = item0)); congruence.
Qed.

Lemma fold_left_inert {B : Type} (f : B -> Effect -> B) (es : list Effect) (b : B) :
  (forall e x, In e es -> f x e = x) -> fold_left f es b = b.
Proof.
  induction es as [|e es IH]; intros Hinert; [reflexivity |].
  simpl. rewrite (Hinert e b) by now left.
  apply IH. intros e' x Hin. apply Hinert. now right.
Qed.

(** In a trace where only task [j] acts on a state, the state goes
    through the effects of task [j]. *)
Lemma fold_left_owner {B : Type} (f : B -> Effect -> B) (j : nat)
  (trace : list (nat * list Effect)) (b : B) :
  (forall i es e x, In (i, es) trace -> i <> j -> In e es -> f x e = x) ->
  fold_left f (flatten trace) b = fold_left f (effects_of j trace) b.
Proof.
  revert b. induction trace as [|[i es] trace IH]; intros b Hinert; [reflexivity |].
  simpl. rewrite fold_left_app.
  assert (Hrest : forall i es e x, In (i, es) trace -> i <> j -> In e es -> f x e = x)
    by (intros i' es' e x Hin; apply (Hinert i' es'); now right).
  destruct (Nat.eqb_spec i j) as [-> | Hij].
  - rewrite fold_left_app. now apply IH.
  - rewrite (fold_left_inert f es b).
    + now apply IH.
    + intros e x Hin. apply (Hinert i es e x); [now left | exact Hij | exact Hin].
Qed.

Lemma fold_left_nobody {B : Type} (f : B -> Effect -> B)
  (trace : list (nat * list Effect)) (b : B) :
  (forall i es e x, In (i, es) trace -> In e es -> f x e = x) ->
  fold_left f (flatten trace) b = b.
Proof.
  intros Hinert. apply fold_left_inert. intros e x Hin.
  induction trace as [|[i es] trace IH]; [easy |].
  simpl in Hin. apply in_app_or in Hin. destruct Hin as [Hin | Hin].
  - apply (Hinert i es e x); [now left | exact Hin].
  - apply IH; [| exact Hin]. intros i' es' e' x' Hin'. apply (Hinert i' es').
    now right.
Qed.

Lemma effects_of_group (i : nat) (es : list Effect) (e : Effect)
  (trace : list (nat * list Effect)) :
  In (i, es) trace -> In e es -> In e (effects_of i trace).
Proof.
  induction trace as [|[j es'] trace IH]; [easy |].
  intros [Heq | Hin] He; simpl.
  - inversion Heq; subst. rewrite Nat.eqb_refl. apply in_or_app. now left.
  - destruct (Nat.eqb j i); [apply in_or_app; right |]; now apply IH.
Qed.

(** ** What a task writes and stores *)

Section FootprintFacts.
Context `{Host}.
Variable this : CompressionPlugin.


(** The effects of a task, by cases. *)
Lemma runTask_effects (asset : AssetForCompression) :
  fst (runTask this asset)
  = match output_source (a_output asset) with
    | Some output_source => emit this asset output_source
    | None =>
        match a_buffer asset with
        | None => []
        | Some buffer =>
            match output_compressed (a_output asset) with
            | Some _ => []
            | None => [RunAlgorithm buffer]
            end
            ++ match compressed_of this asset buffer with
               | Throw error => [PushError error]
               | Normal compressed =>
                   if ratio_exceeds this compressed buffer
                   then [StoreItem (a_cacheItem asset) (mkOutput None (Some compressed))]
                   else StoreItem (a_cacheItem asset)
                          (mkOutput (Some (RawSource compressed)) (Some compressed))
                        :: emit this asset (RawSource compressed)
               end
        end
    end.
Proof.
  unfold runTask, startTask, compressed_of.
  destruct (output_source (a_output asset)); [simpl; now rewrite app_nil_r |].
  destruct (a_buffer asset) as [buffer |]; [| reflexivity].
  destruct (output_compressed (a_output asset)) as [compressed |].
  - unfold afterCompression. destruct (ratio_exceeds this compressed buffer); simpl;
      now rewrite ?app_nil_r.
  - simpl. destruct (runCompressionAlgorithm this buffer) as [compressed | error];
      [| reflexivity].
    unfold afterCompression. destruct (ratio_exceeds this compressed buffer); simpl;
      now rewrite ?app_nil_r.
Qed.

Lemma emit_written (asset : AssetForCompression) (source : Source) (e : Effect) :
  In e (emit this asset source) ->
  stored_item e = None
  /\ (written e = Some (a_name asset) \/ written e = Some (derived this (a_name asset))).
Proof.
  unfold emit, disposeOriginal. intros Hin. apply in_app_or in Hin.
  destruct Hin as [Hin | [<- | []]]; [| split; [reflexivity | now right]].
  destruct (deleteOriginalAssets (options this)) as [[|] | | fn];
    try destruct (fn (a_name asset)); simpl in Hin;
    repeat (destruct Hin as [<- | Hin]; [split; [reflexivity | now left] |]);
    destruct Hin.
Qed.

(** A task writes its own asset and the derived one and no other, and
    stores in its own cache item and no other. *)
Lemma runTask_written (asset : AssetForCompression) (e : Effect) (name : string) :
  In e (fst (runTask this asset)) -> written e = Some name ->
  name = a_name asset \/ name = derived this (a_name asset).
Proof.
  rewrite runTask_effects. intros Hin Hwritten.
  assert (Hemit : forall source, In e (emit this asset source) ->
                  name = a_name asset \/ name = derived this (a_name asset)).
  { intros source Hemit. destruct (emit_written asset source e Hemit) as [_ [Hw | Hw]];
      [left | right]; congruence. }
  destruct (output_source (a_output asset)); [now apply (Hemit s) |].
  destruct (a_buffer asset) as [buffer |]; [| easy].
  apply in_app_or in Hin. destruct Hin as [Hin | Hin].
  - destruct (output_compressed (a_output asset)); [easy |].
    destruct Hin as [<- | []]. discriminate.
  - destruct (compressed_of this asset buffer) as [compressed | error].
    + destruct (ratio_exceeds this compressed buffer).
      * destruct Hin as [<- | []]. discriminate.
      * destruct Hin as [<- | Hin]; [discriminate | now apply (Hemit _ Hin)].
    + destruct Hin as [<- | []]. discriminate.
Qed.

Lemma runTask_stored (asset : AssetForCompression) (e : Effect) (item : CacheItem) :
  In e (fst (runTask this asset)) -> stored_item e = Some item ->
  item = a_cacheItem asset.
Proof.
  rewrite runTask_effects. intros Hin Hstored.
  assert (Hemit : forall source, In e (emit this asset source) -> False).
  { intros source Hemit. destruct (emit_written asset source e Hemit) as [Hs _].
    congruence. }
  destruct (output_source (a_output asset)); [now destruct (Hemit s) |].
  destruct (a_buffer asset) as [buffer |]; [| easy].
  apply in_app_or in Hin. destruct Hin as [Hin | Hin].
  - destruct (output_compressed (a_output asset)); [easy |].
    destruct Hin as [<- | []]. discriminate.
  - destruct (compressed_of this asset buffer) as [compressed | error].
    + destruct (ratio_exceeds this compressed buffer).
      * destruct Hin as [<- | []]. simpl in Hstored. congruence.
      * destruct Hin as [<- | Hin]; [simpl in Hstored; congruence |].
        now destruct (Hemit _ Hin).
    + destruct Hin as [<- | []]. discriminate.
Qed.

Lemma emit_cache (asset : AssetForCompression) (source : Source) (item : CacheItem)
  (value : option Output) :
  fold_left (cache_effect item) (emit this asset source) value = value.
Proof.
  apply fold_left_inert. intros e x Hin. apply cache_effect_inert.
  destruct (emit_written asset source e Hin) as [Hs _]. congruence.
Qed.

(** On the asset store a task acts as its emission, if it emits, and not
    at all otherwise. *)
Lemma runTask_assets (asset : AssetForCompression) (name : string)
  (binding : option Asset) :
  fold_left (asset_effect name) (fst (runTask this asset)) binding
  = match emitted this asset with
    | Some source => fold_left (asset_effect name) (emit this asset source) binding
    | None => binding
    end.
Proof.
  rewrite runTask_effects. unfold emitted.
  destruct (output_source (a_output asset)); [reflexivity |].
  destruct (a_buffer asset) as [buffer |]; [| reflexivity].
  rewrite fold_left_app.
  replace (fold_left (asset_effect name)
             match output_compressed (a_output asset) with
             | Some _ => []
             | None => [RunAlgorithm buffer]
             end binding) with binding
    by now destruct (output_compressed (a_output asset)).
  destruct (compressed_of this asset buffer) as [compressed | error]; [| reflexivity].
  now destruct (ratio_exceeds this compressed buffer).
Qed.

(** On its cache item a task leaves what it stores, if it stores. *)
Lemma runTask_cache (asset : AssetForCompression) (value : option Output) :
  fold_left (cache_effect (a_cacheItem asset)) (fst (runTask this asset)) value
  = match stored this asset with
    | Some output => Some output
    | None => value
    end.
Proof.
  rewrite runTask_effects. unfold stored.
  destruct (output_source (a_output asset)); [apply emit_cache |].
  destruct (a_buffer asset) as [buffer |]; [| reflexivity].
  rewrite fold_left_app.
  replace (fold_left (cache_effect (a_cacheItem asset))
             match output_compressed (a_output asset) with
             | Some _ => []
             | None => [RunAlgorithm buffer]
             end value) with value
    by now destruct (output_compressed (a_output asset)).
  destruct (compressed_of this asset buffer) as [compressed | error]; [| reflexivity].
  destruct (ratio_exceeds this compressed buffer); simpl;
    destruct (decide (a_cacheItem asset = a_cacheItem asset)); try congruence.
  apply emit_cache.
Qed.

End FootprintFacts.

(** ** A pass, one name at a time *)

Section PassFacts.
Context `{Host}.
Variable this : CompressionPlugin.

Lemma selected_In (compilation : Compilation) (names : list string)
  (effects : list Effect) (selected : list AssetForCompression)
  (asset : AssetForCompression) :
  assetsForCompression this compilation names = Normal (effects, selected) ->
  In asset selected ->
  In (a_name asset) names
  /\ exists e, selectAsset this compilation (a_name asset) = Normal (e, Some asset).
Proof.
  intros Hselect Hin. apply list_elem_of_In, list_elem_of_lookup in Hin.
  destruct Hin as [j Hj].
  destruct (assetsForCompression_selected this compilation names effects selected
              Hselect j asset Hj) as (name & e & Hname & Hasset).
  destruct (selectAsset_output this compilation name e asset Hasset)
    as (_ & _ & Ha & _). subst name. split; [exact Hname | now exists e].
Qed.

Lemma names_selected (compilation : Compilation) (names : list string) :
  forall effects selected,
  assetsForCompression this compilation names = Normal (effects, selected) ->
  forall name, In name names ->
  exists e r,
    selectAsset this compilation name = Normal (e, r)
    /\ forall asset, r = Some asset -> In asset selected.
Proof.
  induction names as [|first rest IH]; intros effects selected Hselect name Hin;
    [easy |].
  simpl in Hselect.
  destruct (selectAsset this compilation first) as [[e a] | err] eqn:Hfirst;
    [| discriminate].
  destruct (assetsForCompression this compilation rest) as [[e' l] | err'];
    [| discriminate].
  inversion Hselect; subst. clear Hselect. destruct Hin as [-> | Hin].
  - exists e, a. split; [exact Hfirst |]. intros asset ->. now left.
  - destruct (IH e' l eq_refl name Hin) as (e0 & r & Hname & Hr).
    exists e0, r. split; [exact Hname |]. intros asset Hasset.
    destruct a; [right |]; now apply Hr.
Qed.

Lemma selected_NoDup (compilation : Compilation) (names : list string) :
  forall effects selected,
  assetsForCompression this compilation names = Normal (effects, selected) ->
  List.NoDup names -> List.NoDup selected.
Proof.
  induction names as [|first rest IH]; intros effects selected Hselect Hnodup.
  - simpl in Hselect. inversion Hselect; subst. constructor.
  - simpl in Hselect.
    destruct (selectAsset this compilation first) as [[e a] | err] eqn:Hfirst;
      [| discriminate].
    destruct (assetsForCompression this compilation rest) as [[e' l] | err'] eqn:Hrest;
      [| discriminate].
    inversion Hselect; subst. clear Hselect.
    inversion Hnodup as [| ? ? Hnotin Hnodup']; subst.
    destruct a as [a |]; [| now apply (IH e' l)].
    constructor; [| now apply (IH e' l)].
    intros Hin. destruct (selected_In compilation rest e' l a Hrest Hin) as [Hname _].
    destruct (selectAsset_output this compilation first e a Hfirst)
      as (_ & _ & Ha & _). congruence.
Qed.

(** Two selected assets of the same name are the same task. *)
Lemma selected_same_name (compilation : Compilation) (names : list string)
  (effects : list Effect) (selected : list AssetForCompression) (i j : nat)
  (asset asset' : AssetForCompression) :
  assetsForCompression this compilation names = Normal (effects, selected) ->
  List.NoDup names ->
  selected !! i = Some asset -> selected !! j = Some asset' ->
  a_name asset = a_name asset' -> i = j.
Proof.
  intros Hselect Hnodup Hi Hj Hname.
  assert (Hin : In asset selected)
    by (apply list_elem_of_In, list_elem_of_lookup; now exists i).
  assert (Hin' : In asset' selected)
    by (apply list_elem_of_In, list_elem_of_lookup; now exists j).
  destruct (selected_In compilation names effects selected asset Hselect Hin)
    as [_ [e He]].
  destruct (selected_In compilation names effects selected asset' Hselect Hin')
    as [_ [e' He']].
  rewrite Hname in He. assert (asset = asset') by congruence. subst asset'.
  apply (NoDup_lookup selected i j asset); [| exact Hi | exact Hj].
  apply NoDup_ListNoDup. now apply (selected_NoDup compilation names effects).
Qed.

Lemma startTasks_labels (selected : list AssetForCompression) :
  forall (k : nat) (c : Compilation) (t0 : list (nat * list Effect)) (p : Pool),
  startTasks this k selected c = (t0, p) ->
  forall i es, In (i, es) t0 -> (k <= i < k + length selected)%nat.
Proof.
  induction selected as [|asset rest IH]; intros k c t0 p Hstart i es Hin.
  - simpl in Hstart. inversion Hstart; subst. easy.
  - simpl in Hstart. destruct (startTask this asset) as [effects state].
    destruct (startTasks this (S k) rest (run_effects c effects))
      as [trace [states c']] eqn:Hrest.
    inversion Hstart; subst. clear Hstart. destruct Hin as [Heq | Hin].
    + inversion Heq; subst. simpl. lia.
    + pose proof (IH _ _ _ _ Hrest i es Hin). simpl. lia.
Qed.

Lemma steps_labels (p p' : Pool) (trace : list (nat * list Effect)) :
  steps this p trace p' ->
  forall i es, In (i, es) trace -> (i < length (fst p))%nat.
Proof.
  induction 1 as [p | p p' p'' label trace Hstep Hsteps IH]; intros i es Hin;
    [easy |].
  destruct Hstep as [states c j state state' effects Hj Hpending Hresume].
  simpl in *. destruct Hin as [Heq | Hin].
  - inversion Heq; subst. now apply lookup_lt_Some in Hj.
  - pose proof (IH i es Hin) as Hlt. now rewrite length_insert in Hlt.
Qed.

(** Every label of the trace of a pass is the index of a selected
    asset. *)
Lemma pass_labels (compilation c : Compilation) (names : list string)
  (trace : list (nat * list Effect)) (effects : list Effect)
  (selected : list AssetForCompression) :
  pass this compilation names trace c ->
  assetsForCompression this compilation names = Normal (effects, selected) ->
  forall i es, In (i, es) trace -> exists asset, selected !! i = Some asset.
Proof.
  intros [effects' selected' t0 tr states0 states c0 c' Hselect' Hstart Hsteps Hall]
    Hselect i es Hin.
  assert (selected' = selected) by congruence. subst selected'.
  destruct (startTasks_spec this selected 0 compilation c0 t0 states0 Hstart)
    as (_ & Hlen & _).
  assert (Hlt : (i < length selected)%nat).
  { apply in_app_or in Hin. destruct Hin as [Hin | Hin].
    - pose proof (startTasks_labels selected 0 compilation t0 _ Hstart i es Hin). lia.
    - pose proof (steps_labels _ _ _ Hsteps i es Hin) as Hlt. simpl in Hlt. lia. }
  apply lookup_lt_is_Some_2 in Hlt. destruct Hlt as [asset Hasset]. now exists asset.
Qed.


Lemma collision_free_incl (names names' : list string) :
  collision_free this names -> (forall name, In name names' -> In name names) ->
  collision_free this names'.
Proof.
  intros [Hinj Hfresh] Hincl. split.
  - intros a b Ha Hb. apply Hinj; now apply Hincl.
  - intros a b Ha Hb. apply Hfresh; now apply Hincl.
Qed.

(** Without collisions, the binding of the asset of a task, the binding
    of its derived asset and the value of its cache item after the pass
    are those before the pass under the effects of that task alone. *)
Lemma pass_owner (compilation c : Compilation) (names : list string)
  (trace : list (nat * list Effect)) (effects : list Effect)
  (selected : list AssetForCompression) (j : nat) (asset : AssetForCompression) :
  pass this compilation names trace c ->
  assetsForCompression this compilation names = Normal (effects, selected) ->
  List.NoDup names -> collision_free this (map a_name selected) ->
  selected !! j = Some asset ->
  (forall name,
      name = a_name asset \/ name = derived this (a_name asset) ->
      assets c !! name
      = fold_left (asset_effect name) (fst (runTask this asset))
          (assets compilation !! name))
  /\ cache_get (cache c) (a_cacheItem asset)
     = fold_left (cache_effect (a_cacheItem asset)) (fst (runTask this asset))
         (cache_get (cache compilation) (a_cacheItem asset)).
Proof.
  intros Hpass Hselect Hnodup [Hinj Hfresh] Hj.
  destruct (pass_projection this _ _ _ _ Hpass)
    as (effects' & selected' & Hselect' & Hc & Hproj).
  assert (selected' = selected) by congruence. subst selected'.
  assert (Hmine : effects_of j trace = fst (runTask this asset))
    by now rewrite (Hproj j asset Hj).
  assert (Hother : forall i es e, In (i, es) trace -> i <> j -> In e es ->
            exists other,
              selected !! i = Some other /\ In e (fst (runTask this other))
              /\ a_name other <> a_name asset
              /\ In (a_name other) (map a_name selected)
              /\ In (a_name asset) (map a_name selected)).
  { intros i es e Hin Hij He.
    destruct (pass_labels _ _ _ _ _ _ Hpass Hselect i es Hin) as [other Hi].
    exists other. split; [exact Hi |]. split.
    - rewrite (Hproj i other Hi). simpl. now apply (effects_of_group i es).
    - split.
      + intros Hname. apply Hij.
        now apply (selected_same_name compilation names effects selected i j other asset).
      + split; apply in_map; apply list_elem_of_In, list_elem_of_lookup; eauto. }
  split.
  - intros name Hname. rewrite Hc, run_effects_lookup, <- Hmine.
    apply fold_left_owner. intros i es e x Hin Hij He.
    destruct (Hother i es e Hin Hij He) as (other & _ & Hrun & Hne & Hino & Hina).
    apply asset_effect_inert. intros Hwritten.
    destruct (runTask_written this other e name Hrun Hwritten) as [Ho | Ho];
      destruct Hname as [Ha | Ha]; subst name.
    + congruence.
    + now apply (Hfresh (a_name asset) (a_name other)).
    + now apply (Hfresh (a_name other) (a_name asset)).
    + apply Hne. now apply Hinj.
  - rewrite Hc, run_effects_cache, <- Hmine.
    apply fold_left_owner. intros i es e x Hin Hij He.
    destruct (Hother i es e Hin Hij He) as (other & Hi & Hrun & Hne & _).
    apply cache_effect_inert. intros Hstored.
    pose proof (runTask_stored this other e _ Hrun Hstored) as Hitem.
    apply Hne.
    assert (Hnames : forall k a, selected !! k = Some a -> item_name (a_cacheItem a) = a_name a).
    { intros k a Hk.
      destruct (assetsForCompression_selected this compilation names effects selected
                  Hselect k a Hk) as (n & e0 & _ & Hn).
      destruct (selectAsset_output this compilation n e0 a Hn)
        as (original & _ & Ha & _ & _ & Hitem' & _).
      rewrite Hitem'. simpl. now rewrite Ha. }
    rewrite <- (Hnames i other Hi), <- (Hnames j asset Hj). now rewrite Hitem.
Qed.

(** A name that is neither the asset nor the derived asset of a task is
    bound after the pass as before it. *)
Lemma pass_nobody (compilation c : Compilation) (names : list string)
  (trace : list (nat * list Effect)) (effects : list Effect)
  (selected : list AssetForCompression) (name : string) :
  pass this compilation names trace c ->
  assetsForCompression this compilation names = Normal (effects, selected) ->
  (forall asset, In asset selected ->
     name <> a_name asset /\ name <> derived this (a_name asset)) ->
  assets c !! name = assets compilation !! name.
Proof.
  intros Hpass Hselect Hname.
  destruct (pass_projection this _ _ _ _ Hpass)
    as (effects' & selected' & Hselect' & Hc & Hproj).
  assert (selected' = selected) by congruence. subst selected'.
  rewrite Hc, run_effects_lookup. apply fold_left_nobody.
  intros i es e x Hin He.
  destruct (pass_labels _ _ _ _ _ _ Hpass Hselect i es Hin) as [other Hi].
  apply asset_effect_inert. intros Hwritten.
  assert (Hrun : In e (fst (runTask this other))).
  { rewrite (Hproj i other Hi). simpl. now apply (effects_of_group i es). }
  assert (Hino : In other selected)
    by (apply list_elem_of_In, list_elem_of_lookup; eauto).
  destruct (Hname other Hino) as [Hn1 Hn2].
  destruct (runTask_written this other e name Hrun Hwritten); congruence.
Qed.

(** A cache item of no task holds after the pass what it held before. *)
Lemma pass_cache_nobody (compilation c : Compilation) (names : list string)
  (trace : list (nat * list Effect)) (effects : list Effect)
  (selected : list AssetForCompression) (item : CacheItem) :
  pass this compilation names trace c ->
  assetsForCompression this compilation names = Normal (effects, selected) ->
  (forall asset, In asset selected -> item <> a_cacheItem asset) ->
  cache_get (cache c) item = cache_get (cache compilation) item.
Proof.
  intros Hpass Hselect Hitem.
  destruct (pass_projection this _ _ _ _ Hpass)
    as (effects' & selected' & Hselect' & Hc & Hproj).
  assert (selected' = selected) by congruence. subst selected'.
  rewrite Hc, run_effects_cache. apply fold_left_nobody.
  intros i es e x Hin He.
  destruct (pass_labels _ _ _ _ _ _ Hpass Hselect i es Hin) as [other Hi].
  apply cache_effect_inert. intros Hstored.
  assert (Hrun : In e (fst (runTask this other))).
  { rewrite (Hproj i other Hi). simpl. now apply (effects_of_group i es). }
  assert (Hino : In other selected)
    by (apply list_elem_of_In, list_elem_of_lookup; eauto).
  apply (Hitem other Hino). now apply (runTask_stored this other e).
Qed.

End PassFacts.

(** ** The same task again *)

Lemma merge_related_twice (info : AssetInfo) (patch : gmap string RelatedValue) :
  merge_related (merge_related info patch) patch = merge_related info patch.
Proof.
  unfold merge_related. simpl. f_equal. f_equal.
  now rewrite (assoc (∪)), (idemp (∪)).
Qed.

Section AgainFacts.
Context `{Host}.
Variable this : CompressionPlugin.

(** Selecting a name looks at its binding and at its cache items only. *)
Lemma selectAsset_ext (c c' : Compilation) (name : string) :
  assets c !! name = assets c' !! name ->
  (forall source,
      cache_get (cache c) (getItemCache this name source)
      = cache_get (cache c') (getItemCache this name source)) ->
  selectAsset this c name = selectAsset this c' name.
Proof.
  intros Hassets Hcache. unfold selectAsset. rewrite Hassets.
  destruct (assets c' !! name) as [[source info] |]; [| reflexivity].
  now rewrite Hcache.
Qed.

(** A selected asset has its buffer exactly when it has no cached
    source. *)
Lemma selectAsset_buffer (c : Compilation) (name : string) (effects : list Effect)
  (asset : AssetForCompression) :
  selectAsset this c name = Normal (effects, Some asset) ->
  a_buffer asset
  = match output_source (a_output asset) with
    | Some _ => None
    | None => Some (source_buffer (a_source asset))
    end.
Proof.
  unfold selectAsset. intros Hselect.
  destruct (assets c !! name) as [[source info] |]; [| discriminate].
  destruct (info_compressed info); [discriminate |].
  destruct (negb (matchObject (options this) name)); [discriminate |].
  destruct (has_related info (relatedName (options this))); [discriminate |].
  destruct (output_source _) eqn:Hsource.
  - inversion Hselect; subst. simpl. now rewrite Hsource.
  - destruct (PrimFloat.ltb _ _); [discriminate |].
    inversion Hselect; subst. simpl. now rewrite Hsource.
Qed.

(** A task that starts from what an earlier task of the same buffer left
    in the cache emits what the earlier one emitted, or nothing if that
    one emitted nothing. *)
Lemma emitted_again (first second : AssetForCompression) (buffer : Buffer) :
  a_buffer first
  = match output_source (a_output first) with
    | Some _ => None
    | None => Some buffer
    end ->
  a_buffer second
  = match output_source (a_output second) with
    | Some _ => None
    | None => Some buffer
    end ->
  a_output second
  = match stored this first with
    | Some output => output
    | None => a_output first
    end ->
  emitted this second = emitted this first.
Proof.
  intros Hfirst Hsecond Houtput. unfold stored in Houtput. unfold emitted.
  destruct (output_source (a_output first)) as [source |] eqn:Hsource.
  - rewrite Houtput, Hsource. reflexivity.
  - rewrite Hfirst in *.
    destruct (compressed_of this first buffer) as [compressed | error] eqn:Hcompressed.
    + destruct (ratio_exceeds this compressed buffer) eqn:Hratio.
      * rewrite Houtput in *. simpl in *. rewrite Hsecond.
        unfold compressed_of. rewrite Houtput. simpl. now rewrite Hratio.
      * rewrite Houtput. reflexivity.
    + rewrite Houtput in *. rewrite Hsource in *. rewrite Hsecond.
      unfold compressed_of in *. rewrite Houtput. now rewrite Hcompressed.
Qed.

(** The emission of a task depends on the name, the source, the relation
    name and the immutable flag of its asset. *)
Lemma emit_ext (first second : AssetForCompression) (source : Source) :
  a_name second = a_name first ->
  a_source second = a_source first ->
  a_relatedName second = a_relatedName first ->
  info_immutable (a_info second) = info_immutable (a_info first) ->
  emit this second source = emit this first source.
Proof.
  intros Hname Hsource Hrelated Himmutable.
  unfold emit, disposeOriginal, newInfo.
  now rewrite Hname, Hsource, Hrelated, Himmutable.
Qed.

(** Emitting twice leaves every binding as emitting once. *)
Lemma emit_twice (asset : AssetForCompression) (source : Source) (name : string)
  (binding : option Asset) :
  fold_left (asset_effect name) (emit this asset source)
    (fold_left (asset_effect name) (emit this asset source) binding)
  = fold_left (asset_effect name) (emit this asset source) binding.
Proof.
  unfold emit. rewrite !fold_left_app. simpl.
  destruct (decide (getPath (filename (options this)) (a_name asset) = name));
    [reflexivity |].
  unfold disposeOriginal.
  destruct (deleteOriginalAssets (options this)) as [[|] | | fn];
    try destruct (fn (a_name asset)); simpl;
    destruct (decide (a_name asset = name)); try reflexivity;
    destruct binding as [old |]; simpl; try reflexivity.
  now rewrite merge_related_twice.
Qed.

(** What the emission leaves of an original that it keeps: the source of
    the task, and the immutable flag as before. *)
Lemma emit_keeps (asset : AssetForCompression) (emitted_source : Source)
  (original kept : Asset) :
  derived this (a_name asset) <> a_name asset ->
  a_source asset = source original ->
  fold_left (asset_effect (a_name asset)) (emit this asset emitted_source)
    (Some original)
  = Some kept ->
  source kept = source original
  /\ info_immutable (info kept) = info_immutable (info original)
  /\ info_compressed (info kept) = info_compressed (info original).
Proof.
  intros Hfresh Hsource. unfold emit. rewrite fold_left_app. simpl.
  unfold derived in Hfresh.
  destruct (decide (getPath (filename (options this)) (a_name asset) = a_name asset));
    [congruence |].
  unfold disposeOriginal.
  destruct (deleteOriginalAssets (options this)) as [[|] | | fn];
    try destruct (fn (a_name asset)); simpl;
    destruct (decide (a_name asset = a_name asset)); try congruence;
    intros [= <-]; simpl; repeat split; congruence.
Qed.

End AgainFacts.

(** ** Two passes *)

Section TwiceFacts.
Context `{Host}.
Variable this : CompressionPlugin.

Lemma owner_or_nobody (selected : list AssetForCompression) (name : string) :
  (exists asset,
      In asset selected
      /\ (name = a_name asset \/ name = derived this (a_name asset)))
  \/ (forall asset, In asset selected ->
        name <> a_name asset /\ name <> derived this (a_name asset)).
Proof.
  induction selected as [|asset rest IH].
  - right. easy.
  - destruct (string_dec name (a_name asset)) as [Ha | Ha];
      [left; exists asset; split; [now left | now left] |].
    destruct (string_dec name (derived this (a_name asset))) as [Hd | Hd];
      [left; exists asset; split; [now left | now right] |].
    destruct IH as [(other & Hin & Hother) | Hnone].
    + left. exists other. split; [now right | exact Hother].
    + right. intros other [<- | Hin]; [now split | now apply Hnone].
Qed.

Lemma selected_names (compilation : Compilation) (names : list string)
  (effects : list Effect) (selected : list AssetForCompression) (name : string) :
  assetsForCompression this compilation names = Normal (effects, selected) ->
  In name (map a_name selected) -> In name names.
Proof.
  intros Hselect Hin. apply in_map_iff in Hin. destruct Hin as (asset & <- & Hin).
  now apply (selected_In this compilation names effects selected asset Hselect).
Qed.

Lemma selected_item_name (compilation : Compilation) (names : list string)
  (effects : list Effect) (selected : list AssetForCompression)
  (asset : AssetForCompression) :
  assetsForCompression this compilation names = Normal (effects, selected) ->
  In asset selected -> item_name (a_cacheItem asset) = a_name asset.
Proof.
  intros Hselect Hin.
  destruct (selected_In this compilation names effects selected asset Hselect Hin)
    as [_ [e He]].
  destruct (selectAsset_output this compilation _ e asset He)
    as (original & _ & _ & _ & _ & Hitem & _).
  now rewrite Hitem.
Qed.

(** An asset of the first pass that the second pass selects was selected
    by the first pass too.  Its source and its immutable flag are as
    before, its cache item is the same, and its cache lookup returns what
    the first task stored, or what the first lookup returned if that task
    stored nothing. *)
Lemma second_selection (compilation c1 : Compilation) (names : list string)
  (trace1 : list (nat * list Effect)) (effects1 e2 : list Effect)
  (selected1 : list AssetForCompression) (second : AssetForCompression) :
  pass this compilation names trace1 c1 ->
  assetsForCompression this compilation names = Normal (effects1, selected1) ->
  List.NoDup names -> collision_free this names ->
  In (a_name second) names ->
  selectAsset this c1 (a_name second) = Normal (e2, Some second) ->
  exists first e j,
    selectAsset this compilation (a_name second) = Normal (e, Some first)
    /\ selected1 !! j = Some first
    /\ a_name first = a_name second
    /\ a_source second = a_source first
    /\ info_immutable (a_info second) = info_immutable (a_info first)
    /\ a_output second
       = match stored this first with
         | Some output => output
         | None => a_output first
         end.
Proof.
  intros Hpass Hselect Hnodup Hfree Hin Hsecond.
  assert (Hfree1 : collision_free this (map a_name selected1)).
  { apply (collision_free_incl this names); [exact Hfree |].
    intros n. apply (selected_names compilation names effects1 selected1 n Hselect). }
  destruct (names_selected this compilation names effects1 selected1 Hselect
              (a_name second) Hin) as (e & r & Hfirst & Hr).
  destruct (selectAsset_output this c1 _ e2 second Hsecond)
    as (original1 & Ho1 & _ & Hs2 & Hi2 & Hk2 & Hout2 & _).
  destruct r as [first |].
  - pose proof (Hr first eq_refl) as Hin1.
    apply list_elem_of_In, list_elem_of_lookup in Hin1. destruct Hin1 as [j Hj].
    destruct (selectAsset_output this compilation _ e first Hfirst)
      as (original0 & Ho0 & Hn1 & Hs1 & Hi1 & Hk1 & Hout1 & _).
    destruct (pass_owner this compilation c1 names trace1 effects1 selected1 j first
                Hpass Hselect Hnodup Hfree1 Hj) as [Hassets Hcache].
    rewrite Hn1 in Hassets.
    assert (Hd : derived this (a_name second) <> a_name second)
      by (destruct Hfree as [_ Hfresh]; now apply Hfresh).
    (* the original after the first pass *)
    pose proof (Hassets (a_name second) (or_introl eq_refl)) as Hbound.
    rewrite runTask_assets, Ho0, Ho1 in Hbound.
    assert (Hkept : source original1 = source original0
                    /\ info_immutable (info original1) = info_immutable (info original0)).
    { destruct (emitted this first) as [src |].
      - symmetry in Hbound. rewrite <- Hn1 in Hbound, Hd.
        destruct (emit_keeps this first src original0 original1 Hd Hs1 Hbound)
          as (Hsrc & Himm & _). now split.
      - inversion Hbound; subst. now split. }
    destruct Hkept as [Hsource Himmutable].
    (* the cache item after the first pass *)
    assert (Hitem : a_cacheItem second = a_cacheItem first)
      by (rewrite Hk2, Hk1; now rewrite Hsource).
    rewrite runTask_cache in Hcache.
    exists first, e, j. split; [exact Hfirst |]. split; [exact Hj |].
    split; [exact Hn1 |]. split; [now rewrite Hs2, Hs1 |].
    split; [now rewrite Hi2, Hi1 |].
    rewrite Hout2, <- Hk2, Hitem, Hcache.
    destruct (stored this first); [reflexivity |].
    now rewrite Hout1, <- Hk1.
  - (* not selected by the first pass: not selected by the second either *)
    exfalso.
    assert (Hothers : forall asset, In asset selected1 -> a_name asset <> a_name second).
    { intros asset Hasset Heq.
      destruct (selected_In this compilation names effects1 selected1 asset Hselect
                  Hasset) as [_ [e' He']].
      rewrite Heq in He'. congruence. }
    assert (Hassets : assets c1 !! a_name second = assets compilation !! a_name second).
    { apply (pass_nobody this compilation c1 names trace1 effects1 selected1);
        try assumption.
      intros asset Hasset. split; [intros Heq; now apply (Hothers asset) |].
      intros Heq. destruct Hfree as [_ Hfresh].
      apply (Hfresh (a_name asset) (a_name second)); [| exact Hin | now symmetry].
      now apply (selected_In this compilation names effects1 selected1 asset Hselect). }
    assert (Hcache : forall source0,
               cache_get (cache c1) (getItemCache this (a_name second) source0)
               = cache_get (cache compilation)
                   (getItemCache this (a_name second) source0)).
    { intros source0.
      apply (pass_cache_nobody this compilation c1 names trace1 effects1 selected1);
        try assumption.
      intros asset Hasset Heq. apply (Hothers asset Hasset).
      rewrite <- (selected_item_name compilation names effects1 selected1 asset
                    Hselect Hasset).
      now rewrite <- Heq. }
    rewrite (selectAsset_ext this c1 compilation (a_name second) Hassets Hcache)
      in Hsecond.
    congruence.
Qed.

(** The task of an asset of the first pass, selected again after it,
    emits what the first task emitted, if it did. *)
Lemma second_emitted (compilation c1 : Compilation) (e e2 : list Effect)
  (first second : AssetForCompression) :
  selectAsset this compilation (a_name second) = Normal (e, Some first) ->
  selectAsset this c1 (a_name second) = Normal (e2, Some second) ->
  a_source second = a_source first ->
  a_output second
  = match stored this first with
    | Some output => output
    | None => a_output first
    end ->
  emitted this second = emitted this first.
Proof.
  intros Hfirst Hsecond Hsource Houtput.
  apply (emitted_again this first second (source_buffer (a_source first))).
  - apply (selectAsset_buffer this compilation _ e first Hfirst).
  - rewrite (selectAsset_buffer this c1 _ e2 second Hsecond). now rewrite Hsource.
  - exact Houtput.
Qed.

(** The task of an asset of the first pass, selected again after it,
    leaves its asset and the derived asset as the first pass left them. *)
Lemma second_task (compilation c1 : Compilation) (names : list string)
  (trace1 : list (nat * list Effect)) (effects1 e2 : list Effect)
  (selected1 : list AssetForCompression) (second : AssetForCompression)
  (name : string) :
  pass this compilation names trace1 c1 ->
  assetsForCompression this compilation names = Normal (effects1, selected1) ->
  List.NoDup names -> collision_free this names ->
  In (a_name second) names ->
  selectAsset this c1 (a_name second) = Normal (e2, Some second) ->
  name = a_name second \/ name = derived this (a_name second) ->
  fold_left (asset_effect name) (fst (runTask this second)) (assets c1 !! name)
  = assets c1 !! name.
Proof.
  intros Hpass Hselect Hnodup Hfree Hin Hsecond Hname.
  destruct (second_selection compilation c1 names trace1 effects1 e2 selected1 second
              Hpass Hselect Hnodup Hfree Hin Hsecond)
    as (first & e & j & Hfirst & Hj & Hn1 & Hsource & Himmutable & Houtput).
  assert (Hfree1 : collision_free this (map a_name selected1)).
  { apply (collision_free_incl this names); [exact Hfree |].
    intros n. apply (selected_names compilation names effects1 selected1 n Hselect). }
  destruct (pass_owner this compilation c1 names trace1 effects1 selected1 j first
              Hpass Hselect Hnodup Hfree1 Hj) as [Hassets _].
  rewrite Hn1 in Hassets.
  rewrite runTask_assets.
  rewrite (second_emitted compilation c1 e e2 first second Hfirst Hsecond Hsource
             Houtput).
  destruct (emitted this first) as [src |] eqn:Hfirst_emitted; [| reflexivity].
  rewrite (emit_ext this first second src).
  - rewrite (Hassets name Hname), runTask_assets, Hfirst_emitted.
    apply emit_twice.
  - now rewrite Hn1.
  - exact Hsource.
  - rewrite (selectAsset_relatedName this c1 _ e2 second Hsecond).
    now rewrite (selectAsset_relatedName this compilation _ e first Hfirst).
  - exact Himmutable.
Qed.

(** The emission binds the derived name to the emitted source, marked
    compressed. *)
Lemma emit_derived (asset : AssetForCompression) (emitted_source : Source)
  (binding : option Asset) :
  fold_left (asset_effect (derived this (a_name asset)))
    (emit this asset emitted_source) binding
  = Some (mkAsset emitted_source (newInfo this (a_info asset))).
Proof.
  unfold emit, derived. rewrite fold_left_app. simpl.
  now destruct (decide (getPath (filename (options this)) (a_name asset)
                        = getPath (filename (options this)) (a_name asset))).
Qed.

(** With [deleteOriginalAssets: false] the emission leaves the original
    with the relation to the derived name. *)
Lemma emit_related (asset : AssetForCompression) (emitted_source : Source)
  (original : Asset) :
  deleteOriginalAssets (options this) = DeleteBool false ->
  derived this (a_name asset) <> a_name asset ->
  fold_left (asset_effect (a_name asset)) (emit this asset emitted_source)
    (Some original)
  = Some (mkAsset (a_source asset)
            (merge_related (info original)
               {[ a_relatedName asset := RelatedFile (derived this (a_name asset)) ]})).
Proof.
  intros Hpolicy Hfresh. unfold emit, disposeOriginal, derived in *.
  rewrite Hpolicy, fold_left_app. simpl.
  destruct (decide (a_name asset = a_name asset)); [| congruence].
  now destruct (decide (getPath (filename (options this)) (a_name asset) = a_name asset)).
Qed.

Lemma has_related_merge (info : AssetInfo) (relatedName file : string) :
  file <> "" ->
  has_related (merge_related info {[ relatedName := RelatedFile file ]}) relatedName
  = true.
Proof.
  intros Hfile. unfold has_related, merge_related. simpl.
  rewrite (lookup_union_Some_l _ _ relatedName (RelatedFile file))
    by apply lookup_singleton_eq.
  simpl. apply String.eqb_neq in Hfile. now rewrite Hfile.
Qed.

Lemma selectAsset_skips (c : Compilation) (name : string) (asset : Asset) :
  assets c !! name = Some asset ->
  info_compressed (info asset) = true
  \/ has_related (info asset) (relatedName (options this)) = true ->
  selectAsset this c name = Normal ([], None).
Proof.
  intros Hname Hskip. unfold selectAsset. rewrite Hname. destruct asset as [src inf].
  simpl in Hskip. destruct (info_compressed inf); [reflexivity |].
  destruct (negb (matchObject (options this) name)); [reflexivity |].
  destruct Hskip as [Hskip | Hskip]; [discriminate | now rewrite Hskip].
Qed.

(** C7. A first pass over names without collisions among their derived
    names, then a second pass over the assets that are there: names of the
    first pass, and assets marked compressed.  Under every schedule of
    either pass the second pass leaves the asset store as the first left
    it: the same names, sources and infos, relations included.  After the
    first pass the derived asset of every task that emitted is marked
    compressed, and with [deleteOriginalAssets: false] and a derived name
    that is not empty its original carries the relation name; an asset
    marked compressed or carrying the relation name is dropped by the
    second pass before any cache lookup, buffer read or task. *)
Theorem compress_twice (compilation c1 c2 : Compilation) (names names2 : list string)
  (trace1 trace2 : list (nat * list Effect)) :
  List.NoDup names ->
  collision_free this names ->
  pass this compilation names trace1 c1 ->
  List.NoDup names2 ->
  (forall name, In name names2 ->
     In name names
     \/ exists asset,
         assets c1 !! name = Some asset /\ info_compressed (info asset) = true) ->
  pass this c1 names2 trace2 c2 ->
  assets c2 = assets c1
  /\ (forall effects1 selected1 first emitted_source,
         assetsForCompression this compilation names = Normal (effects1, selected1) ->
         In first selected1 ->
         emitted this first = Some emitted_source ->
         assets c1 !! derived this (a_name first)
         = Some (mkAsset emitted_source (newInfo this (a_info first)))
         /\ info_compressed (newInfo this (a_info first)) = true
         /\ (deleteOriginalAssets (options this) = DeleteBool false ->
             derived this (a_name first) <> "" ->
             exists original,
               assets c1 !! a_name first = Some original
               /\ has_related (info original) (relatedName (options this)) = true))
  /\ (forall name asset,
         assets c1 !! name = Some asset ->
         info_compressed (info asset) = true
         \/ has_related (info asset) (relatedName (options this)) = true ->
         selectAsset this c1 name = Normal ([], None)).
Proof.
  intros Hnodup Hfree Hpass1 Hnodup2 Hnames2 Hpass2.
  split; [| split].
  - destruct (pass_projection this _ _ _ _ Hpass1)
      as (effects1 & selected1 & Hselect1 & _).
    destruct (pass_projection this _ _ _ _ Hpass2)
      as (effects2 & selected2 & Hselect2 & _).
    assert (Hold : forall second, In second selected2 ->
              In (a_name second) names
              /\ exists e2, selectAsset this c1 (a_name second) = Normal (e2, Some second)).
    { intros second Hin.
      destruct (selected_In this c1 names2 effects2 selected2 second Hselect2 Hin)
        as [Hin2 [e2 He2]].
      split; [| now exists e2].
      destruct (Hnames2 _ Hin2) as [Hin1 | (asset & Hasset & Hflag)]; [exact Hin1 |].
      destruct (selectAsset_output this c1 _ e2 second He2)
        as (original & Horiginal & _ & _ & _ & _ & _ & Hplain & _).
      congruence. }
    assert (Hfree2 : collision_free this (map a_name selected2)).
    { apply (collision_free_incl this names); [exact Hfree |].
      intros n Hin. apply in_map_iff in Hin. destruct Hin as (second & <- & Hin).
      now apply Hold. }
    apply map_eq. intros name.
    destruct (owner_or_nobody selected2 name) as [(second & Hin & Hname) | Hnone].
    + destruct (Hold second Hin) as [Hin1 [e2 He2]].
      apply list_elem_of_In, list_elem_of_lookup in Hin. destruct Hin as [j Hj].
      destruct (pass_owner this c1 c2 names2 trace2 effects2 selected2 j second
                  Hpass2 Hselect2 Hnodup2 Hfree2 Hj) as [Hassets _].
      rewrite (Hassets name Hname).
      now apply (second_task compilation c1 names trace1 effects1 e2 selected1 second).
    + now apply (pass_nobody this c1 c2 names2 trace2 effects2 selected2).
  - intros effects1 selected1 first emitted_source Hselect1 Hin Hemitted.
    assert (Hfree1 : collision_free this (map a_name selected1)).
    { apply (collision_free_incl this names); [exact Hfree |].
      intros n. apply (selected_names compilation names effects1 selected1 n Hselect1). }
    destruct (selected_In this compilation names effects1 selected1 first Hselect1 Hin)
      as [Hin1 [e He]].
    apply list_elem_of_In, list_elem_of_lookup in Hin. destruct Hin as [j Hj].
    destruct (pass_owner this compilation c1 names trace1 effects1 selected1 j first
                Hpass1 Hselect1 Hnodup Hfree1 Hj) as [Hassets _].
    split; [| split; [reflexivity |]].
    + rewrite (Hassets _ (or_intror eq_refl)), runTask_assets, Hemitted.
      apply emit_derived.
    + intros Hpolicy Hfile.
      destruct (selectAsset_output this compilation _ e first He)
        as (original & Horiginal & _ & _ & _ & _ & _ & _ & _ & _).
      eexists. split.
      * rewrite (Hassets _ (or_introl eq_refl)), runTask_assets, Hemitted, Horiginal.
        apply emit_related; [exact Hpolicy |].
        destruct Hfree as [_ Hfresh]. now apply Hfresh.
      * simpl. rewrite (selectAsset_relatedName this compilation _ e first He).
        now apply has_related_merge.
  - apply selectAsset_skips.
Qed.

End TwiceFacts.

Lemma compress_twice_scenario :
  exists t1 t2 c2,
    @pass Node.host Scenario.gzip_plugin Scenario.first_build ["app.js"] t1
      (Scenario.after_first Scenario.gzip_plugin)
    /\ @pass Node.host Scenario.gzip_plugin (Scenario.after_first Scenario.gzip_plugin)
         ["app.js"; "app.js.gz"] t2 c2
    /\ assets c2 = assets (Scenario.after_first Scenario.gzip_plugin)
    /\ assets c2 !! "app.js.gz"
       = Some (mkAsset (RawSource Scenario.compressed_zeros) Scenario.derived_info).
Proof.
  destruct (@compress_pass Node.host Scenario.gzip_plugin Scenario.first_build
              ["app.js"]
              [GetItem (Scenario.item "app.js" Scenario.zeros);
               ReadBuffer (WebpackSource Scenario.zeros)]
              [Scenario.app_js_selected] ltac:(vm_compute; reflexivity))
    as (t1 & c1 & Hc1 & Hpass1).
  assert (Hafter : c1 = Scenario.after_first Scenario.gzip_plugin)
    by (unfold Scenario.after_first; now rewrite Hc1).
  subst c1.
  destruct (@compress_pass Node.host Scenario.gzip_plugin
              (Scenario.after_first Scenario.gzip_plugin) ["app.js"; "app.js.gz"]
              [] [] ltac:(vm_compute; reflexivity))
    as (t2 & c2 & _ & Hpass2).
  exists t1, t2, c2. split; [exact Hpass1 |]. split; [exact Hpass2 |].
  assert (Hnodup : List.NoDup ["app.js"])
    by (constructor; [simpl; tauto | constructor]).
  assert (Hnodup2 : List.NoDup ["app.js"; "app.js.gz"]).
  { constructor; [simpl; intros [Heq | []]; discriminate |].
    constructor; [simpl; tauto | constructor]. }
  assert (Hfree : @collision_free Node.host Scenario.gzip_plugin ["app.js"]).
  { split.
    - intros a b [<- | []] [<- | []] _. reflexivity.
    - intros a b [<- | []] [<- | []]. vm_compute. discriminate. }
  destruct (@compress_twice Node.host Scenario.gzip_plugin Scenario.first_build
              (Scenario.after_first Scenario.gzip_plugin) c2 ["app.js"]
              ["app.js"; "app.js.gz"] t1 t2 Hnodup Hfree Hpass1 Hnodup2)
    as (Hsame & _).
  - intros name [<- | [<- | []]].
    + left. now left.
    + right. eexists. split; [vm_compute; reflexivity | reflexivity].
  - exact Hpass2.
  - split; [exact Hsame |]. rewrite Hsame. vm_compute. reflexivity.
Defined.

(** ** Further properties of a pass *)

Section MoreFacts.
Context `{Host}.
Variable this : CompressionPlugin.

(** An eligible asset below the threshold, without a cached output source,
    is read and dropped: the selection returns [false] for it after the
    lookup and the read, and no pass over that compilation has a task for
    it. *)
Theorem below_threshold_is_dropped (compilation : Compilation) (name : string)
  (original : Asset) :
  assets compilation !! name = Some original ->
  info_compressed (info original) = false ->
  matchObject (options this) name = true ->
  has_related (info original) (relatedName (options this)) = false ->
  output_source
    (default (mkOutput None None)
       (cache_get (cache compilation) (getItemCache this name (source original))))
  = None ->
  (number_of_length (length (source_buffer (source original)))
   <? threshold (options this))%float = true ->
  selectAsset this compilation name
  = Normal ([GetItem (getItemCache this name (source original));
             ReadBuffer (source original)], None)
  /\ forall names effects selected asset,
      assetsForCompression this compilation names = Normal (effects, selected) ->
      In asset selected -> a_name asset <> name.
Proof.
  intros Hname Hcompressed Hmatch Hrelated Hsource Hsmall.
  assert (Hselect : selectAsset this compilation name
                    = Normal ([GetItem (getItemCache this name (source original));
                               ReadBuffer (source original)], None)).
  { rewrite (selectAsset_eligible this compilation name original Hname Hcompressed
               Hmatch Hrelated).
    cbv zeta. now rewrite Hsource, Hsmall. }
  split; [exact Hselect |].
  intros names effects selected asset Hselected Hin Heq.
  destruct (selected_In this compilation names effects selected asset Hselected Hin)
    as [_ [e He]].
  rewrite Heq in He. congruence.
Qed.

(** What the emission does to the binding of the original, by policy. *)
Lemma emit_original (asset : AssetForCompression) (emitted_source : Source)
  (binding : option Asset) :
  derived this (a_name asset) <> a_name asset ->
  fold_left (asset_effect (a_name asset)) (emit this asset emitted_source) binding
  = match deleteOriginalAssets (options this) with
    | DeleteBool false =>
        match binding with
        | Some old =>
            Some (mkAsset (a_source asset)
                    (merge_related (info old)
                       {[ a_relatedName asset
                          := RelatedFile (derived this (a_name asset)) ]}))
        | None => None
        end
    | DeleteBool true | DeleteKeepSourceMap => None
    | DeleteFn fn => if fn (a_name asset) then None else binding
    end.
Proof.
  intros Hfresh. unfold emit, disposeOriginal, derived in *.
  rewrite fold_left_app. simpl.
  destruct (decide (getPath (filename (options this)) (a_name asset) = a_name asset));
    [congruence |].
  destruct (deleteOriginalAssets (options this)) as [[|] | | fn];
    try destruct (fn (a_name asset)); simpl;
    destruct (decide (a_name asset = a_name asset)); try congruence;
    now destruct binding.
Qed.

(** A pass over distinct names whose derived names are free and do not
    collide, and whose assets relate to no other asset, so that deleting
    one deletes nothing else.  After it, under any schedule, an asset whose
    task emitted is gone under [deleteOriginalAssets: true] and under
    ["keep-source-map"]; under a function it is gone if the function holds
    of its name and as before the pass otherwise; and the derived name is
    bound to the emitted source. *)
Theorem delete_policy (compilation c : Compilation) (names : list string)
  (trace : list (nat * list Effect)) (effects : list Effect)
  (selected : list AssetForCompression) (asset : AssetForCompression)
  (emitted_source : Source) :
  pass this compilation names trace c ->
  assetsForCompression this compilation names = Normal (effects, selected) ->
  List.NoDup names -> collision_free this names ->
  derived_free this compilation names -> unrelated compilation names ->
  In asset selected ->
  emitted this asset = Some emitted_source ->
  (deleteOriginalAssets (options this) = DeleteBool true
   \/ deleteOriginalAssets (options this) = DeleteKeepSourceMap ->
   assets c !! a_name asset = None)
  /\ (forall fn,
         deleteOriginalAssets (options this) = DeleteFn fn ->
         assets c !! a_name asset
         = if fn (a_name asset) then None else assets compilation !! a_name asset)
  /\ assets c !! derived this (a_name asset)
     = Some (mkAsset emitted_source (newInfo this (a_info asset))).
Proof.
  intros Hpass Hselect Hnodup Hfree _ _ Hin Hemitted.
  assert (Hfree1 : collision_free this (map a_name selected)).
  { apply (collision_free_incl this names); [exact Hfree |].
    intros n. apply (selected_names this compilation names effects selected n Hselect). }
  assert (Hfresh : derived this (a_name asset) <> a_name asset).
  { destruct Hfree1 as [_ Hfresh]. apply Hfresh; now apply in_map. }
  apply list_elem_of_In, list_elem_of_lookup in Hin. destruct Hin as [j Hj].
  destruct (pass_owner this compilation c names trace effects selected j asset
              Hpass Hselect Hnodup Hfree1 Hj) as [Hassets _].
  split; [| split].
  - intros Hpolicy.
    rewrite (Hassets _ (or_introl eq_refl)), runTask_assets, Hemitted.
    rewrite (emit_original asset emitted_source _ Hfresh).
    now destruct Hpolicy as [-> | ->].
  - intros fn Hpolicy.
    rewrite (Hassets _ (or_introl eq_refl)), runTask_assets, Hemitted.
    rewrite (emit_original asset emitted_source _ Hfresh). now rewrite Hpolicy.
  - rewrite (Hassets _ (or_intror eq_refl)), runTask_assets, Hemitted.
    apply emit_derived.
Qed.

(** A task invokes the algorithm at most once, and not at all when its
    cache lookup returned compressed bytes or a source. *)
Lemma runTask_runs_algorithm (asset : AssetForCompression) :
  List.filter runs_algorithm (fst (runTask this asset))
  = match output_source (a_output asset), a_buffer asset,
          output_compressed (a_output asset) with
    | None, Some buffer, None => [RunAlgorithm buffer]
    | _, _, _ => []
    end.
Proof.
  assert (Hemit : forall src, List.filter runs_algorithm (emit this asset src) = []).
  { intros src. unfold emit, disposeOriginal. rewrite List.filter_app. simpl.
    destruct (deleteOriginalAssets (options this)) as [[|] | | fn];
      try destruct (fn (a_name asset)); reflexivity. }
  rewrite runTask_effects.
  destruct (output_source (a_output asset)); [apply Hemit |].
  destruct (a_buffer asset) as [buffer |]; [| reflexivity].
  rewrite List.filter_app. unfold compressed_of.
  destruct (output_compressed (a_output asset)) as [compressed |]; simpl.
  - destruct (ratio_exceeds this compressed buffer); [reflexivity | apply Hemit].
  - destruct (runCompressionAlgorithm this buffer) as [compressed | error];
      [| reflexivity].
    destruct (ratio_exceeds this compressed buffer); simpl; [reflexivity |].
    now rewrite Hemit.
Qed.

(** Two passes without collisions, under any schedules.  An asset whose
    compression completed in the first pass, or was cached before it, and
    that the second pass selects again, finds compressed bytes or a source
    in the cache: over both passes the algorithm is invoked at most once
    for it, and never by the second. *)
Theorem cache_hit_skips_algorithm (compilation c1 c2 : Compilation)
  (names names2 : list string) (trace1 trace2 : list (nat * list Effect))
  (effects1 effects2 : list Effect) (selected1 selected2 : list AssetForCompression)
  (j1 j2 : nat) (first second : AssetForCompression) :
  List.NoDup names -> collision_free this names ->
  pass this compilation names trace1 c1 ->
  pass this c1 names2 trace2 c2 ->
  assetsForCompression this compilation names = Normal (effects1, selected1) ->
  assetsForCompression this c1 names2 = Normal (effects2, selected2) ->
  selected1 !! j1 = Some first ->
  selected2 !! j2 = Some second ->
  a_name second = a_name first ->
  stored this first <> None \/ output_source (a_output first) <> None ->
  List.filter runs_algorithm (effects_of j2 trace2) = []
  /\ (length (List.filter runs_algorithm (effects_of j1 trace1 ++ effects_of j2 trace2))
      <= 1)%nat.
Proof.
  intros Hnodup Hfree Hpass1 Hpass2 Hselect1 Hselect2 Hj1 Hj2 Hname Hdone.
  destruct (pass_projection this _ _ _ _ Hpass1)
    as (effects1' & selected1' & Hselect1' & _ & Hproj1).
  assert (selected1' = selected1) by congruence. subst selected1'.
  destruct (pass_projection this _ _ _ _ Hpass2)
    as (effects2' & selected2' & Hselect2' & _ & Hproj2).
  assert (selected2' = selected2) by congruence. subst selected2'.
  assert (Hin1 : In first selected1)
    by (apply list_elem_of_In, list_elem_of_lookup; eauto).
  assert (Hin2 : In second selected2)
    by (apply list_elem_of_In, list_elem_of_lookup; eauto).
  destruct (selected_In this compilation names effects1 selected1 first Hselect1 Hin1)
    as [Hnames [e1 He1]].
  destruct (selected_In this c1 names2 effects2 selected2 second Hselect2 Hin2)
    as [_ [e2 He2]].
  rewrite <- Hname in Hnames.
  destruct (second_selection this compilation c1 names trace1 effects1 e2 selected1
              second Hpass1 Hselect1 Hnodup Hfree Hnames He2)
    as (first' & e & j & Hfirst & _ & _ & _ & _ & Houtput).
  rewrite Hname in Hfirst. assert (first' = first) by congruence. subst first'.
  assert (Hsecond : List.filter runs_algorithm (effects_of j2 trace2) = []).
  { pose proof (Hproj2 j2 second Hj2) as Hrun.
    assert (Heffects : effects_of j2 trace2 = fst (runTask this second))
      by now rewrite Hrun.
    rewrite Heffects, runTask_runs_algorithm, Houtput.
    unfold stored in *.
    destruct (output_source (a_output first)) as [src |] eqn:Hsource.
    - now rewrite Hsource.
    - destruct (a_buffer first) as [buffer |]; [| destruct Hdone; congruence].
      destruct (compressed_of this first buffer) as [compressed | error];
        [| destruct Hdone; congruence].
      destruct (ratio_exceeds this compressed buffer); simpl;
        now destruct (a_buffer second). }
  split; [exact Hsecond |].
  rewrite List.filter_app, Hsecond, app_nil_r.
  pose proof (Hproj1 j1 first Hj1) as Hrun.
  assert (Heffects : effects_of j1 trace1 = fst (runTask this first))
    by now rewrite Hrun.
  rewrite Heffects, runTask_runs_algorithm.
  destruct (output_source (a_output first)), (a_buffer first),
    (output_compressed (a_output first)); simpl; lia.
Qed.

End MoreFacts.

Lemma below_threshold_is_dropped_scenario :
  (number_of_length (length Scenario.zeros)
   <? threshold (options Scenario.threshold_plugin))%float = true
  /\ @selectAsset Node.host Scenario.threshold_plugin Scenario.first_build "app.js"
     = Normal ([GetItem (Scenario.item "app.js" Scenario.zeros);
                ReadBuffer (WebpackSource Scenario.zeros)], None).
Proof.
  assert (Hsmall : (number_of_length (length Scenario.zeros)
                    <? threshold (options Scenario.threshold_plugin))%float = true)
    by (vm_compute; reflexivity).
  split; [exact Hsmall |].
  destruct (@below_threshold_is_dropped Node.host Scenario.threshold_plugin
              Scenario.first_build "app.js" Scenario.app_js
              eq_refl eq_refl eq_refl eq_refl eq_refl Hsmall) as [Hselect _].
  exact Hselect.
Defined.

Lemma delete_policy_scenario :
  exists trace,
    @pass Node.host Scenario.delete_plugin Scenario.first_build ["app.js"] trace
      (Scenario.after_first Scenario.delete_plugin)
    /\ assets (Scenario.after_first Scenario.delete_plugin) !! "app.js" = None
    /\ assets (Scenario.after_first Scenario.delete_plugin) !! "app.js.gz"
       = Some (mkAsset (RawSource Scenario.compressed_zeros) Scenario.derived_info).
Proof.
  assert (Hselect :
            @assetsForCompression Node.host Scenario.delete_plugin Scenario.first_build
              ["app.js"]
            = Normal ([GetItem (Scenario.item "app.js" Scenario.zeros);
                       ReadBuffer (WebpackSource Scenario.zeros)],
                      [Scenario.app_js_selected]))
    by (vm_compute; reflexivity).
  destruct (@compress_pass Node.host Scenario.delete_plugin Scenario.first_build
              ["app.js"] _ _ Hselect) as (trace & c & Hc & Hpass).
  assert (Hafter : c = Scenario.after_first Scenario.delete_plugin)
    by (unfold Scenario.after_first; now rewrite Hc).
  subst c. exists trace. split; [exact Hpass |].
  assert (Hnodup : List.NoDup ["app.js"])
    by (constructor; [simpl; tauto | constructor]).
  assert (Hfree : @collision_free Node.host Scenario.delete_plugin ["app.js"]).
  { split.
    - intros a b [<- | []] [<- | []] _. reflexivity.
    - intros a b [<- | []] [<- | []]. vm_compute. discriminate. }
  assert (Hemitted : emitted Scenario.delete_plugin Scenario.app_js_selected
                     = Some (RawSource Scenario.compressed_zeros))
    by (vm_compute; reflexivity).
  assert (Hderived_free : @derived_free Node.host Scenario.delete_plugin
                            Scenario.first_build ["app.js"])
    by (intros name [<- | []]; vm_compute; reflexivity).
  assert (Hunrelated : unrelated Scenario.first_build ["app.js"]).
  { intros name original [<- | []] Horiginal.
    assert (Hsame : Some original = Some Scenario.app_js)
      by (rewrite <- Horiginal; vm_compute; reflexivity).
    inversion Hsame; subst original. intros related key value Hrelated.
    discriminate. }
  destruct (@delete_policy Node.host Scenario.delete_plugin Scenario.first_build
              (Scenario.after_first Scenario.delete_plugin) ["app.js"] trace _ _
              Scenario.app_js_selected (RawSource Scenario.compressed_zeros)
              Hpass Hselect Hnodup Hfree Hderived_free Hunrelated
              (or_introl eq_refl) Hemitted)
    as (Hgone & _ & Hderived).
  split; [apply Hgone; now left | exact Hderived].
Defined.

Lemma cache_hit_skips_algorithm_scenario :
  exists t1 t2 c2,
    @pass Node.host Scenario.keep_plugin Scenario.first_build ["app.js"] t1
      (Scenario.after_first Scenario.keep_plugin)
    /\ @pass Node.host Scenario.keep_plugin (Scenario.after_first Scenario.keep_plugin)
         ["app.js"; "app.js.gz"] t2 c2
    /\ List.filter runs_algorithm (effects_of 0 t1) = [RunAlgorithm Scenario.zeros]
    /\ List.filter runs_algorithm (effects_of 0 t2) = [].
Proof.
  assert (Hselect1 :
            @assetsForCompression Node.host Scenario.keep_plugin Scenario.first_build
              ["app.js"]
            = Normal ([GetItem (Scenario.item "app.js" Scenario.zeros);
                       ReadBuffer (WebpackSource Scenario.zeros)],
                      [Scenario.app_js_selected]))
    by (vm_compute; reflexivity).
  destruct (@compress_pass Node.host Scenario.keep_plugin Scenario.first_build
              ["app.js"] _ _ Hselect1) as (t1 & c1 & Hc1 & Hpass1).
  assert (Hafter : c1 = Scenario.after_first Scenario.keep_plugin)
    by (unfold Scenario.after_first; now rewrite Hc1).
  subst c1.
  assert (Hselect2 :
            @assetsForCompression Node.host Scenario.keep_plugin
              (Scenario.after_first Scenario.keep_plugin) ["app.js"; "app.js.gz"]
            = Normal ([GetItem (Scenario.item "app.js" Scenario.zeros)],
                      [Scenario.app_js_cached]))
    by (vm_compute; reflexivity).
  destruct (@compress_pass Node.host Scenario.keep_plugin
              (Scenario.after_first Scenario.keep_plugin) ["app.js"; "app.js.gz"]
              _ _ Hselect2) as (t2 & c2 & _ & Hpass2).
  exists t1, t2, c2. split; [exact Hpass1 |]. split; [exact Hpass2 |].
  assert (Hnodup : List.NoDup ["app.js"])
    by (constructor; [simpl; tauto | constructor]).
  assert (Hfree : @collision_free Node.host Scenario.keep_plugin ["app.js"]).
  { split.
    - intros a b [<- | []] [<- | []] _. reflexivity.
    - intros a b [<- | []] [<- | []]. vm_compute. discriminate. }
  assert (Hstored : stored Scenario.keep_plugin Scenario.app_js_selected <> None)
    by (vm_compute; discriminate).
  destruct (@cache_hit_skips_algorithm Node.host Scenario.keep_plugin
              Scenario.first_build (Scenario.after_first Scenario.keep_plugin) c2
              ["app.js"] ["app.js"; "app.js.gz"] t1 t2 _ _ _ _ 0%nat 0%nat
              Scenario.app_js_selected Scenario.app_js_cached
              Hnodup Hfree Hpass1 Hpass2 Hselect1 Hselect2 eq_refl eq_refl eq_refl
              (or_introl Hstored))
    as [Hsecond _].
  split; [| exact Hsecond].
  destruct (@pass_projection Node.host Scenario.keep_plugin _ _ _ _ Hpass1)
    as (e & l & Hl & _ & Hproj).
  assert (l = [Scenario.app_js_selected]) by congruence. subst l.
  pose proof (Hproj 0%nat Scenario.app_js_selected eq_refl) as Hrun.
  assert (Heffects : effects_of 0 t1
                     = fst (@runTask Node.host Scenario.keep_plugin
                              Scenario.app_js_selected))
    by now rewrite Hrun.
  rewrite Heffects. vm_compute. reflexivity.
Defined.

(** ** The effects of a pass *)

Lemma errors_pushed (es : list Effect) (c : Compilation) :
  errors (run_effects c es) = errors c ++ pushed es.
Proof.
  revert c. induction es as [|e es IH]; intros c.
  - simpl. now rewrite app_nil_r.
  - unfold run_effects in *. simpl. rewrite IH. unfold pushed. simpl.
    destruct e; simpl; try reflexivity.
    + now rewrite <- app_assoc.
    + now destruct (assets c !! name).
Qed.

Lemma cache_stores (es : list Effect) (c : Compilation) :
  cache (run_effects c es) = stores es ++ cache c.
Proof.
  revert c. induction es as [|e es IH]; intros c; [reflexivity |].
  unfold run_effects in *. simpl. rewrite IH. unfold stores. simpl.
  destruct e; simpl; try reflexivity.
  - now rewrite <- app_assoc.
  - now destruct (assets c !! name).
Qed.

Lemma pushed_In (es : list Effect) (error : Error) :
  In error (pushed es) <-> In (PushError error) es.
Proof.
  unfold pushed. rewrite in_flat_map. split.
  - intros (e & Hin & He). destruct e; simpl in He; try easy.
    destruct He as [-> | []]. exact Hin.
  - intros Hin. exists (PushError error). split; [exact Hin | now left].
Qed.

Lemma stores_In (es : list Effect) (item : CacheItem) (value : Output) :
  In (item, value) (stores es) <-> In (StoreItem item value) es.
Proof.
  unfold stores. rewrite <- in_rev, in_flat_map. split.
  - intros (e & Hin & He). destruct e; simpl in He; try easy.
    destruct He as [[= -> ->] | []]. exact Hin.
  - intros Hin. exists (StoreItem item value). split; [exact Hin | now left].
Qed.

Lemma cache_get_app (l l' : Cache) (item : CacheItem) :
  cache_get (l ++ l') item
  = match cache_get l item with
    | Some value => Some value
    | None => cache_get l' item
    end.
Proof.
  induction l as [|[item' value] l IH]; [reflexivity |].
  simpl. now destruct (decide (item = item')).
Qed.

Lemma cache_get_In (l : Cache) (item : CacheItem) (value : Output) :
  cache_get l item = Some value -> In (item, value) l.
Proof.
  induction l as [|[item' value'] l IH]; [discriminate |].
  simpl. destruct (decide (item = item')) as [-> | Hne].
  - intros [= ->]. now left.
  - intros Hget. right. now apply IH.
Qed.

Lemma flatten_In (trace : list (nat * list Effect)) (e : Effect) :
  In e (flatten trace) <-> exists i es, In (i, es) trace /\ In e es.
Proof.
  induction trace as [|[j es'] trace IH]; simpl.
  - split; [easy | now intros (i & es & [] & _)].
  - rewrite in_app_iff, IH. split.
    + intros [Hin | (i & es & Hin & He)].
      * exists j, es'. split; [now left | exact Hin].
      * exists i, es. split; [now right | exact He].
    + intros (i & es & [[= -> ->] | Hin] & He); [now left |].
      right. now exists i, es.
Qed.

Section EffectFacts.
Context `{Host}.
Variable this : CompressionPlugin.

(** Every effect of a pass is an effect of the task of a selected asset. *)
Lemma pass_effect_owner (compilation c : Compilation) (names : list string)
  (trace : list (nat * list Effect)) (effects : list Effect)
  (selected : list AssetForCompression) (e : Effect) :
  pass this compilation names trace c ->
  assetsForCompression this compilation names = Normal (effects, selected) ->
  In e (flatten trace) ->
  exists asset, In asset selected /\ In e (fst (runTask this asset)).
Proof.
  intros Hpass Hselect Hin. apply flatten_In in Hin. destruct Hin as (i & es & Hin & He).
  destruct (pass_labels this _ _ _ _ _ _ Hpass Hselect i es Hin) as [asset Hi].
  destruct (pass_projection this _ _ _ _ Hpass)
    as (effects' & selected' & Hselect' & _ & Hproj).
  assert (selected' = selected) by congruence. subst selected'.
  exists asset. split; [apply list_elem_of_In, list_elem_of_lookup; eauto |].
  rewrite (Hproj i asset Hi). simpl. now apply (effects_of_group i es).
Qed.

(** And every effect of the task of a selected asset is an effect of the
    pass. *)
Lemma pass_task_effect (compilation c : Compilation) (names : list string)
  (trace : list (nat * list Effect)) (effects : list Effect)
  (selected : list AssetForCompression) (asset : AssetForCompression) (e : Effect) :
  pass this compilation names trace c ->
  assetsForCompression this compilation names = Normal (effects, selected) ->
  In asset selected -> In e (fst (runTask this asset)) ->
  In e (flatten trace).
Proof.
  intros Hpass Hselect Hin He.
  apply list_elem_of_In, list_elem_of_lookup in Hin. destruct Hin as [j Hj].
  destruct (pass_projection this _ _ _ _ Hpass)
    as (effects' & selected' & Hselect' & _ & Hproj).
  assert (selected' = selected) by congruence. subst selected'.
  apply (effects_of_flatten j). now rewrite (Hproj j asset Hj) in He.
Qed.

Lemma emit_effects (asset : AssetForCompression) (emitted_source : Source) (e : Effect) :
  In e (emit this asset emitted_source) ->
  (forall error, e <> PushError error)
  /\ (forall item value, e <> StoreItem item value)
  /\ (forall input, e <> RunAlgorithm input)
  /\ (forall name src inf,
         e = EmitAsset name src inf ->
         name = derived this (a_name asset) /\ src = emitted_source
         /\ inf = newInfo this (a_info asset)).
Proof.
  unfold emit, disposeOriginal. intros Hin. apply in_app_or in Hin.
  destruct Hin as [Hin | [<- | []]].
  - destruct (deleteOriginalAssets (options this)) as [[|] | | fn];
      try destruct (fn (a_name asset)); simpl in Hin;
      repeat (destruct Hin as [<- | Hin]; [repeat split; discriminate |]);
      destruct Hin.
  - split; [discriminate |]. split; [discriminate |]. split; [discriminate |].
    intros name src inf [= <- <- <-]. repeat split.
Qed.

(** The effects of a task, one kind at a time. *)
Lemma runTask_PushError (asset : AssetForCompression) (error : Error) :
  In (PushError error) (fst (runTask this asset)) ->
  exists buffer,
    a_buffer asset = Some buffer /\ runCompressionAlgorithm this buffer = Throw error.
Proof.
  rewrite runTask_effects.
  destruct (output_source (a_output asset)) as [src |].
  - intros Hin. destruct (emit_effects asset src _ Hin) as (Hno & _). now destruct (Hno error).
  - destruct (a_buffer asset) as [buffer |]; [| easy].
    intros Hin. exists buffer. split; [reflexivity |].
    apply in_app_or in Hin. destruct Hin as [Hin | Hin].
    + destruct (output_compressed (a_output asset)); [easy |].
      destruct Hin as [Hin | []]. discriminate.
    + unfold compressed_of in Hin.
      destruct (output_compressed (a_output asset)) as [compressed |].
      * destruct (ratio_exceeds this compressed buffer).
        -- destruct Hin as [Hin | []]. discriminate.
        -- destruct Hin as [Hin | Hin]; [discriminate |].
           destruct (emit_effects asset _ _ Hin) as (Hno & _). now destruct (Hno error).
      * destruct (runCompressionAlgorithm this buffer) as [compressed | err].
        -- destruct (ratio_exceeds this compressed buffer).
           ++ destruct Hin as [Hin | []]. discriminate.
           ++ destruct Hin as [Hin | Hin]; [discriminate |].
              destruct (emit_effects asset _ _ Hin) as (Hno & _). now destruct (Hno error).
        -- destruct Hin as [[= ->] | []]. reflexivity.
Qed.

End EffectFacts.

Section FrameFacts.
Context `{Host}.
Variable this : CompressionPlugin.

(** What the selection records of an asset it selects. *)
Lemma selected_original (compilation : Compilation) (names : list string)
  (effects : list Effect) (selected : list AssetForCompression)
  (asset : AssetForCompression) :
  assetsForCompression this compilation names = Normal (effects, selected) ->
  In asset selected ->
  exists original,
    In (a_name asset) names
    /\ assets compilation !! a_name asset = Some original
    /\ a_source asset = source original
    /\ a_info asset = info original
    /\ a_cacheItem asset = getItemCache this (a_name asset) (source original)
    /\ a_output asset
       = default (mkOutput None None)
           (cache_get (cache compilation)
              (getItemCache this (a_name asset) (source original)))
    /\ a_buffer asset
       = match output_source (a_output asset) with
         | Some _ => None
         | None => Some (source_buffer (source original))
         end.
Proof.
  intros Hselect Hin.
  destruct (selected_In this compilation names effects selected asset Hselect Hin)
    as [Hname [e He]].
  destruct (selectAsset_output this compilation _ e asset He)
    as (original & Horiginal & _ & Hsource & Hinfo & Hitem & Houtput & _).
  exists original. repeat split; try assumption.
  rewrite (selectAsset_buffer this compilation _ e asset He). now rewrite Hsource.
Qed.

(** What a pass leaves alone, under any schedule.  The pass is over
    distinct names whose derived names are free and do not collide, so
    that no [emitAsset] reports a conflict, and it deletes nothing but the
    assets it names: the originals are kept, or the assets of the pass
    relate to no other asset.  A name that is not a name of the pass, or
    that the selection drops, and that is not the derived name of a name
    of the pass, is bound after the pass as before it.  The errors are
    those before the pass followed by the errors the tasks pushed, each an
    error of the algorithm on the content of an asset of the pass.  The
    cache is the one before the pass with the stored entries in front,
    each under the cache item of an asset of the pass. *)
Theorem pass_frame (compilation c : Compilation) (names : list string)
  (trace : list (nat * list Effect)) :
  List.NoDup names -> collision_free this names ->
  derived_free this compilation names ->
  deleteOriginalAssets (options this) = DeleteBool false
  \/ unrelated compilation names ->
  pass this compilation names trace c ->
  (forall name,
      ~ In name names
      \/ (exists effects, selectAsset this compilation name = Normal (effects, None)) ->
      (forall other, In other names -> name <> derived this other) ->
      assets c !! name = assets compilation !! name)
  /\ errors c = errors compilation ++ pushed (flatten trace)
  /\ cache c = stores (flatten trace) ++ cache compilation
  /\ (forall error,
         In error (pushed (flatten trace)) ->
         exists name original,
           In name names
           /\ assets compilation !! name = Some original
           /\ runCompressionAlgorithm this (source_buffer (source original))
              = Throw error)
  /\ (forall item value,
         In (item, value) (stores (flatten trace)) ->
         exists name original,
           In name names
           /\ assets compilation !! name = Some original
           /\ item = getItemCache this name (source original)).
Proof.
  intros _ _ _ _ Hpass.
  destruct (pass_projection this _ _ _ _ Hpass)
    as (effects & selected & Hselect & Hc & _).
  split; [| split; [| split; [| split]]].
  - intros name Hname Hfresh.
    apply (pass_nobody this compilation c names trace effects selected name Hpass Hselect).
    intros asset Hin.
    destruct (selected_In this compilation names effects selected asset Hselect Hin)
      as [Hin' [e He]].
    split.
    + intros ->. destruct Hname as [Hname | [e' He']]; [now apply Hname | congruence].
    + now apply Hfresh.
  - rewrite Hc. apply errors_pushed.
  - rewrite Hc. apply cache_stores.
  - intros error Hin. apply pushed_In in Hin.
    destruct (pass_effect_owner this _ _ _ _ _ _ _ Hpass Hselect Hin)
      as (asset & Hasset & Hrun).
    destruct (runTask_PushError this asset error Hrun) as (buffer & Hbuffer & Hthrow).
    destruct (selected_original compilation names effects selected asset Hselect Hasset)
      as (original & Hname & Horiginal & _ & _ & _ & _ & Hread).
    exists (a_name asset), original. split; [exact Hname |]. split; [exact Horiginal |].
    rewrite Hread in Hbuffer. destruct (output_source (a_output asset)); [discriminate |].
    inversion Hbuffer; subst buffer. exact Hthrow.
  - intros item value Hin. apply stores_In in Hin.
    destruct (pass_effect_owner this _ _ _ _ _ _ _ Hpass Hselect Hin)
      as (asset & Hasset & Hrun).
    destruct (selected_original compilation names effects selected asset Hselect Hasset)
      as (original & Hname & Horiginal & _ & _ & Hitem & _).
    exists (a_name asset), original. split; [exact Hname |]. split; [exact Horiginal |].
    rewrite <- Hitem. now apply (runTask_stored this asset (StoreItem item value)).
Qed.

End FrameFacts.

Section SoundFacts.
Context `{Host}.
Variable this : CompressionPlugin.

Lemma output_sound_empty (content : Buffer) :
  output_sound this content (mkOutput None None).
Proof. split; intros x Hx; discriminate. Qed.

(** With a sound cache the output a selected asset starts from is sound
    for the content of its source. *)
Lemma selected_sound (compilation : Compilation) (names : list string)
  (effects : list Effect) (selected : list AssetForCompression)
  (asset : AssetForCompression) :
  cache_sound this (cache compilation) ->
  assetsForCompression this compilation names = Normal (effects, selected) ->
  In asset selected ->
  output_sound this (source_buffer (a_source asset)) (a_output asset).
Proof.
  intros Hsound Hselect Hin.
  destruct (selected_original this compilation names effects selected asset Hselect Hin)
    as (original & _ & _ & Hsource & _ & _ & Houtput & _).
  rewrite Houtput, Hsource.
  destruct (cache_get _ _) as [output |] eqn:Hget; [| apply output_sound_empty].
  simpl. apply (Hsound (getItemCache this (a_name asset) (source original)) output);
    [reflexivity | reflexivity | exact Hget].
Qed.

(** What a task stores and what it emits is sound when the output it
    starts from is. *)
Lemma runTask_sound (asset : AssetForCompression) (buffer : Buffer) :
  a_buffer asset
  = match output_source (a_output asset) with
    | Some _ => None
    | None => Some buffer
    end ->
  output_sound this buffer (a_output asset) ->
  (forall item value,
      In (StoreItem item value) (fst (runTask this asset)) ->
      item = a_cacheItem asset /\ output_sound this buffer value)
  /\ (forall name emitted_source emitted_info,
         In (EmitAsset name emitted_source emitted_info) (fst (runTask this asset)) ->
         name = derived this (a_name asset)
         /\ emitted_info = newInfo this (a_info asset)
         /\ exists compressed,
             emitted_source = RawSource compressed
             /\ runCompressionAlgorithm this buffer = Normal compressed
             /\ ratio_exceeds this compressed buffer = false).
Proof.
  intros Hbuffer [Hcompressed Hsource]. rewrite runTask_effects.
  destruct (output_source (a_output asset)) as [cached |] eqn:Hcached.
  - split.
    + intros item value Hin. destruct (emit_effects this asset cached _ Hin) as (_ & Hno & _).
      now destruct (Hno item value).
    + intros name src inf Hin.
      destruct (emit_effects this asset cached _ Hin) as (_ & _ & _ & Hemit).
      destruct (Hemit name src inf eq_refl) as (-> & -> & ->).
      split; [reflexivity |]. split; [reflexivity |]. now apply Hsource.
  - rewrite Hbuffer.
    assert (Hresult : forall compressed,
               compressed_of this asset buffer = Normal compressed ->
               runCompressionAlgorithm this buffer = Normal compressed).
    { unfold compressed_of. intros compressed.
      destruct (output_compressed (a_output asset)) as [known |] eqn:Hknown; [| easy].
      intros [= <-]. now apply Hcompressed. }
    assert (Hfirst : forall e,
               In e match output_compressed (a_output asset) with
                    | Some _ => []
                    | None => [RunAlgorithm buffer]
                    end ->
               exists input, e = RunAlgorithm input).
    { intros e. destruct (output_compressed (a_output asset)); [easy |].
      intros [<- | []]. now exists buffer. }
    destruct (compressed_of this asset buffer) as [compressed | error] eqn:Hof.
    + pose proof (Hresult compressed eq_refl) as Hrun.
      destruct (ratio_exceeds this compressed buffer) eqn:Hratio.
      * split.
        -- intros item value Hin. apply in_app_or in Hin. destruct Hin as [Hin | Hin].
           ++ destruct (Hfirst _ Hin) as [input Hinput]. discriminate.
           ++ destruct Hin as [[= <- <-] | []]. split; [reflexivity |].
              split; simpl; [intros x [= <-]; exact Hrun | discriminate].
        -- intros name src inf Hin. apply in_app_or in Hin. destruct Hin as [Hin | Hin].
           ++ destruct (Hfirst _ Hin) as [input Hinput]. discriminate.
           ++ destruct Hin as [Hin | []]. discriminate.
      * split.
        -- intros item value Hin. apply in_app_or in Hin. destruct Hin as [Hin | Hin].
           ++ destruct (Hfirst _ Hin) as [input Hinput]. discriminate.
           ++ destruct Hin as [[= <- <-] | Hin].
              ** split; [reflexivity |].
                 split; simpl; [intros x [= <-]; exact Hrun |].
                 intros x [= <-]. now exists compressed.
              ** destruct (emit_effects this asset _ _ Hin) as (_ & Hno & _).
                 now destruct (Hno item value).
        -- intros name src inf Hin. apply in_app_or in Hin. destruct Hin as [Hin | Hin].
           ++ destruct (Hfirst _ Hin) as [input Hinput]. discriminate.
           ++ destruct Hin as [Hin | Hin]; [discriminate |].
              destruct (emit_effects this asset _ _ Hin) as (_ & _ & _ & Hemit).
              destruct (Hemit name src inf eq_refl) as (-> & -> & ->).
              split; [reflexivity |]. split; [reflexivity |]. now exists compressed.
    + split.
      * intros item value Hin. apply in_app_or in Hin. destruct Hin as [Hin | Hin].
        -- destruct (Hfirst _ Hin) as [input Hinput]. discriminate.
        -- destruct Hin as [Hin | []]. discriminate.
      * intros name src inf Hin. apply in_app_or in Hin. destruct Hin as [Hin | Hin].
        -- destruct (Hfirst _ Hin) as [input Hinput]. discriminate.
        -- destruct Hin as [Hin | []]. discriminate.
Qed.

(** A pass keeps a sound cache sound, and under any schedule every asset
    it emits goes under the derived name of an asset of the pass, holds the
    bytes the algorithm gives for the content that asset had before the
    pass, bytes that passed the ratio test, and carries the info of lines
    373-383 for that asset. *)
Theorem pass_emits_compression (compilation c : Compilation) (names : list string)
  (trace : list (nat * list Effect)) :
  cache_sound this (cache compilation) ->
  pass this compilation names trace c ->
  cache_sound this (cache c)
  /\ forall name emitted_source emitted_info,
      In (EmitAsset name emitted_source emitted_info) (flatten trace) ->
      exists original_name original compressed,
        In original_name names
        /\ assets compilation !! original_name = Some original
        /\ name = derived this original_name
        /\ emitted_source = RawSource compressed
        /\ runCompressionAlgorithm this (source_buffer (source original))
           = Normal compressed
        /\ ratio_exceeds this compressed (source_buffer (source original)) = false
        /\ emitted_info = newInfo this (info original).
Proof.
  intros Hsound Hpass.
  destruct (pass_projection this _ _ _ _ Hpass)
    as (effects & selected & Hselect & Hc & _).
  assert (Htask : forall asset,
             In asset selected ->
             exists original,
               In (a_name asset) names
               /\ assets compilation !! a_name asset = Some original
               /\ a_info asset = info original
               /\ a_cacheItem asset = getItemCache this (a_name asset) (source original)
               /\ (forall item value,
                      In (StoreItem item value) (fst (runTask this asset)) ->
                      item = a_cacheItem asset
                      /\ output_sound this (source_buffer (source original)) value)
               /\ (forall name emitted_source emitted_info,
                      In (EmitAsset name emitted_source emitted_info)
                        (fst (runTask this asset)) ->
                      name = derived this (a_name asset)
                      /\ emitted_info = newInfo this (a_info asset)
                      /\ exists compressed,
                          emitted_source = RawSource compressed
                          /\ runCompressionAlgorithm this (source_buffer (source original))
                             = Normal compressed
                          /\ ratio_exceeds this compressed
                               (source_buffer (source original)) = false)).
  { intros asset Hin.
    destruct (selected_original this compilation names effects selected asset Hselect Hin)
      as (original & Hname & Horiginal & Hsource & Hinfo & Hitem & _ & Hbuffer).
    pose proof (selected_sound compilation names effects selected asset Hsound Hselect
                  Hin) as Hstart.
    rewrite Hsource in Hstart.
    exists original. repeat (split; [assumption |]).
    apply (runTask_sound asset (source_buffer (source original)) Hbuffer Hstart). }
  split.
  - intros item output Halgorithm Hoptions Hget.
    rewrite Hc, cache_stores, cache_get_app in Hget.
    destruct (cache_get (stores (flatten trace)) item) as [value |] eqn:Hstored.
    + inversion Hget; subst value. clear Hget.
      apply cache_get_In, stores_In in Hstored.
      destruct (pass_effect_owner this _ _ _ _ _ _ _ Hpass Hselect Hstored)
        as (asset & Hasset & Hrun).
      destruct (Htask asset Hasset) as (original & _ & _ & _ & Hitem & Hstores & _).
      destruct (Hstores item output Hrun) as [-> Hvalue].
      now rewrite Hitem.
    + now apply Hsound.
  - intros name emitted_source emitted_info Hin.
    destruct (pass_effect_owner this _ _ _ _ _ _ _ Hpass Hselect Hin)
      as (asset & Hasset & Hrun).
    destruct (Htask asset Hasset) as (original & Hname & Horiginal & Hinfo & _ & _ & Hemits).
    destruct (Hemits name emitted_source emitted_info Hrun)
      as (-> & -> & compressed & -> & Halg & Hratio).
    exists (a_name asset), original, compressed. rewrite Hinfo. repeat split; assumption.
Qed.

End SoundFacts.

(** ** The resumptions of a pass *)

Section ScheduleFacts.
Context `{Host}.
Variable this : CompressionPlugin.

Lemma resumeInOrder_steps (order : list nat) :
  forall (p p' : Pool) (trace : list (nat * list Effect)),
  resumeInOrder this order p = Some (trace, p') -> steps this p trace p'.
Proof.
  induction order as [|i rest IH]; intros [states c] p' trace Hrun.
  - inversion Hrun; subst. constructor.
  - simpl in Hrun. destruct (states !! i) as [state |] eqn:Hi; [| discriminate].
    destruct (settled state) eqn:Hsettled; [discriminate |].
    destruct (resumeTask this state) as [effects state'] eqn:Hresume.
    destruct (resumeInOrder this rest _) as [[tr q] |] eqn:Hrest; [| discriminate].
    inversion Hrun; subst. clear Hrun.
    eapply steps_next; [| apply IH; exact Hrest].
    now apply step_resume with (state := state).
Qed.

Lemma compressInOrder_pass (order : list nat) (compilation c : Compilation)
  (names : list string) (trace : list (nat * list Effect)) :
  compressInOrder this order compilation names = Some (trace, c) ->
  pass this compilation names trace c.
Proof.
  unfold compressInOrder. intros Hrun.
  destruct (assetsForCompression this compilation names) as [[effects selected] | e]
    eqn:Hselect; [| discriminate].
  destruct (startTasks this 0 selected compilation) as [t0 [states0 c0]] eqn:Hstart.
  destruct (resumeInOrder this order (states0, c0)) as [[tr [states c']] |] eqn:Hsteps;
    [| discriminate].
  destruct (Promise_all states) eqn:Hall; try discriminate.
  inversion Hrun; subst. clear Hrun.
  eapply pass_intro; eauto. now apply (resumeInOrder_steps order).
Qed.

(** And every schedule is the one of some order. *)
Lemma steps_resumeInOrder (p p' : Pool) (trace : list (nat * list Effect)) :
  steps this p trace p' -> resumeInOrder this (map fst trace) p = Some (trace, p').
Proof.
  induction 1 as [p | p p' p'' label trace Hstep Hsteps IH]; [reflexivity |].
  destruct Hstep as [states c i state state' effects Hi Hpending Hresume].
  simpl. rewrite Hi, Hpending, Hresume. simpl in IH. now rewrite IH.
Qed.

Lemma pass_compressInOrder (compilation c : Compilation) (names : list string)
  (trace : list (nat * list Effect)) :
  pass this compilation names trace c ->
  exists order, compressInOrder this order compilation names = Some (trace, c).
Proof.
  intros [effects selected t0 tr states0 states c0 c' Hselect Hstart Hsteps Hall].
  exists (map fst tr). unfold compressInOrder. rewrite Hselect, Hstart.
  now rewrite (steps_resumeInOrder _ _ _ Hsteps), Hall.
Qed.

End ScheduleFacts.

(** ** Any two schedules *)

Lemma concat_map_ext {A B : Type} (f g : A -> list B) (l : list A) :
  (forall x, In x l -> f x = g x) -> concat (map f l) = concat (map g l).
Proof.
  induction l as [|a l IH]; intros Hext; [reflexivity |].
  simpl. rewrite (Hext a) by now left. rewrite IH; [reflexivity |].
  intros x Hin. apply Hext. now right.
Qed.

(** Giving one more group of effects to task [i] adds them to the effects
    of all tasks taken one after the other, wherever [i] stands. *)
Lemma concat_group {A : Type} (f : nat -> list A) (i : nat) (es : list A) (l : list nat) :
  List.NoDup l -> In i l ->
  Permutation (es ++ concat (map f l))
    (concat (map (fun j => if Nat.eqb i j then es ++ f j else f j) l)).
Proof.
  induction l as [|a l IH]; intros Hnodup Hin; [easy |].
  inversion Hnodup as [| ? ? Hnotin Hnodup']; subst. simpl.
  destruct (Nat.eqb_spec i a) as [-> | Hne].
  - rewrite <- app_assoc.
    rewrite (concat_map_ext (fun j => if Nat.eqb a j then es ++ f j else f j) f l);
      [reflexivity |].
    intros x Hx. destruct (Nat.eqb_spec a x) as [-> | _]; [contradiction | reflexivity].
  - destruct Hin as [-> | Hin]; [contradiction |].
    rewrite Permutation_app_swap_app. apply Permutation_app_head. now apply IH.
Qed.

(** The effects of a trace are those of its tasks taken one after the
    other, in another order. *)
Lemma flatten_Permutation (n : nat) (trace : list (nat * list Effect)) :
  (forall i es, In (i, es) trace -> (i < n)%nat) ->
  Permutation (flatten trace) (concat (map (fun j => effects_of j trace) (seq 0 n))).
Proof.
  induction trace as [|[i es] trace IH]; intros Hlabels.
  - simpl. clear. induction (seq 0 n) as [|a l IHl]; [constructor | exact IHl].
  - simpl. rewrite IH by (intros j es' Hin; apply (Hlabels j es'); now right).
    apply (concat_group (fun j => effects_of j trace) i es (seq 0 n)).
    + apply seq_NoDup.
    + apply in_seq. pose proof (Hlabels i es (or_introl eq_refl)). lia.
Qed.

Section ConfluenceFacts.
Context `{Host}.
Variable this : CompressionPlugin.

(** Under any schedule the effects of a pass are those of its tasks run
    one after the other, in another order. *)
Lemma pass_Permutation (compilation c : Compilation) (names : list string)
  (trace : list (nat * list Effect)) (effects : list Effect)
  (selected : list AssetForCompression) :
  pass this compilation names trace c ->
  assetsForCompression this compilation names = Normal (effects, selected) ->
  Permutation (flatten trace)
    (concat (map (fun asset => fst (runTask this asset)) selected)).
Proof.
  intros Hpass Hselect.
  destruct (pass_projection this _ _ _ _ Hpass)
    as (effects' & selected' & Hselect' & _ & Hproj).
  assert (selected' = selected) by congruence. subst selected'.
  rewrite (flatten_Permutation (length selected) trace).
  - assert (Hmap : map (fun j => effects_of j trace) (seq 0 (length selected))
                   = map (fun asset => fst (runTask this asset)) selected).
    { apply list_eq. intros j. rewrite !list_lookup_fmap.
      destruct (selected !! j) as [asset |] eqn:Hj; simpl.
      - rewrite lookup_seq_lt by now apply lookup_lt_Some in Hj.
        simpl. now rewrite (Hproj j asset Hj).
      - rewrite lookup_seq_ge by now apply lookup_ge_None in Hj. reflexivity. }
    now rewrite Hmap.
  - intros i es Hin.
    destruct (pass_labels this _ _ _ _ _ _ Hpass Hselect i es Hin) as [asset Hi].
    now apply lookup_lt_Some in Hi.
Qed.

Lemma item_owner_or_nobody (selected : list AssetForCompression) (item : CacheItem) :
  (exists asset, In asset selected /\ item = a_cacheItem asset)
  \/ (forall asset, In asset selected -> item <> a_cacheItem asset).
Proof.
  induction selected as [|asset rest IH].
  - right. easy.
  - destruct (decide (item = a_cacheItem asset)) as [Heq | Hne];
      [left; exists asset; split; [now left | exact Heq] |].
    destruct IH as [(other & Hin & Hother) | Hnone].
    + left. exists other. split; [now right | exact Hother].
    + right. intros other [<- | Hin]; [exact Hne | now apply Hnone].
Qed.

(** The order in which the host resumes the tasks does not matter.  Two
    passes over the same compilation and names have the same effects, in
    another order, and push the same errors, in another order.  For
    distinct names whose derived names do not collide they leave the same
    asset store and the same cache lookups, those that [compress] computes. *)
Theorem pass_confluent (compilation c1 c2 : Compilation) (names : list string)
  (t1 t2 : list (nat * list Effect)) :
  pass this compilation names t1 c1 ->
  pass this compilation names t2 c2 ->
  Permutation (flatten t1) (flatten t2)
  /\ Permutation (errors c1) (errors c2)
  /\ (List.NoDup names -> collision_free this names ->
      assets c1 = assets c2
      /\ (forall item, cache_get (cache c1) item = cache_get (cache c2) item)
      /\ exists t c,
          compress this compilation names = Normal (t, c)
          /\ assets c = assets c1
          /\ forall item, cache_get (cache c) item = cache_get (cache c1) item).
Proof.
  assert (Heffects : forall t t' c c',
             pass this compilation names t c -> pass this compilation names t' c' ->
             Permutation (flatten t) (flatten t')).
  { intros t t' c c' Hpass Hpass'.
    destruct (pass_projection this _ _ _ _ Hpass) as (effects & selected & Hselect & _).
    rewrite (pass_Permutation compilation c names t effects selected Hpass Hselect).
    symmetry. apply (pass_Permutation compilation c' names t' effects selected Hpass' Hselect). }
  assert (Hstore : forall t t' c c',
             pass this compilation names t c -> pass this compilation names t' c' ->
             List.NoDup names -> collision_free this names ->
             assets c = assets c'
             /\ forall item, cache_get (cache c) item = cache_get (cache c') item).
  { intros t t' c c' Hpass Hpass' Hnodup Hfree.
    destruct (pass_projection this _ _ _ _ Hpass) as (effects & selected & Hselect & _).
    assert (Hfree' : collision_free this (map a_name selected)).
    { apply (collision_free_incl this names); [exact Hfree |].
      intros n. apply (selected_names this compilation names effects selected n Hselect). }
    split.
    - apply map_eq. intros name.
      destruct (owner_or_nobody this selected name) as [(asset & Hin & Hname) | Hnone].
      + apply list_elem_of_In, list_elem_of_lookup in Hin. destruct Hin as [j Hj].
        destruct (pass_owner this compilation c names t effects selected j asset
                    Hpass Hselect Hnodup Hfree' Hj) as [Hassets _].
        destruct (pass_owner this compilation c' names t' effects selected j asset
                    Hpass' Hselect Hnodup Hfree' Hj) as [Hassets' _].
        now rewrite (Hassets name Hname), (Hassets' name Hname).
      + rewrite (pass_nobody this compilation c names t effects selected name
                   Hpass Hselect Hnone).
        now rewrite (pass_nobody this compilation c' names t' effects selected name
                       Hpass' Hselect Hnone).
    - intros item.
      destruct (item_owner_or_nobody selected item) as [(asset & Hin & ->) | Hnone].
      + apply list_elem_of_In, list_elem_of_lookup in Hin. destruct Hin as [j Hj].
        destruct (pass_owner this compilation c names t effects selected j asset
                    Hpass Hselect Hnodup Hfree' Hj) as [_ Hcache].
        destruct (pass_owner this compilation c' names t' effects selected j asset
                    Hpass' Hselect Hnodup Hfree' Hj) as [_ Hcache'].
        now rewrite Hcache, Hcache'.
      + rewrite (pass_cache_nobody this compilation c names t effects selected item
                   Hpass Hselect Hnone).
        now rewrite (pass_cache_nobody this compilation c' names t' effects selected item
                       Hpass' Hselect Hnone). }
  intros Hpass1 Hpass2. split; [now apply (Heffects t1 t2 c1 c2) |]. split.
  - destruct (pass_projection this _ _ _ _ Hpass1) as (e1 & s1 & _ & Hc1 & _).
    destruct (pass_projection this _ _ _ _ Hpass2) as (e2 & s2 & _ & Hc2 & _).
    rewrite Hc1, Hc2, !errors_pushed. apply Permutation_app_head.
    unfold pushed. apply Permutation_flat_map. now apply (Heffects t1 t2 c1 c2).
  - intros Hnodup Hfree.
    destruct (Hstore t1 t2 c1 c2 Hpass1 Hpass2 Hnodup Hfree) as [Hassets Hcache].
    split; [exact Hassets |]. split; [exact Hcache |].
    destruct (pass_projection this _ _ _ _ Hpass1) as (effects & selected & Hselect & _).
    destruct (compress_pass this compilation names effects selected Hselect)
      as (t & c & Hcompress & Hpass).
    exists t, c. split; [exact Hcompress |].
    now apply (Hstore t t1 c c1).
Qed.

End ConfluenceFacts.

(** ** A pass from the cache *)

Section SynchronousFacts.
Context `{Host}.
Variable this : CompressionPlugin.

Lemma steps_all_settled (p p' : Pool) (trace : list (nat * list Effect)) :
  steps this p trace p' ->
  (forall j state, fst p !! j = Some state -> settled state = true) ->
  trace = [] /\ p' = p.
Proof.
  intros Hsteps Hsettled. destruct Hsteps as [p | p p' p'' label trace Hstep _].
  - now split.
  - destruct Hstep as [states c i state state' effects Hi Hpending Hresume].
    simpl in Hsettled. rewrite (Hsettled i state Hi) in Hpending. discriminate.
Qed.

Lemma resumeTasks_all_settled (states : list TaskState) :
  forall (k : nat) (c : Compilation),
  (forall j state, states !! j = Some state -> settled state = true) ->
  resumeTasks this k states c = ([], (states, c)).
Proof.
  induction states as [|state rest IH]; intros k c Hsettled; [reflexivity |].
  simpl. assert (Hstate : settled state = true) by now apply (Hsettled 0%nat).
  rewrite (resumeTask_settled this state Hstate). simpl.
  rewrite IH by (intros j st Hj; now apply (Hsettled (S j))).
  now rewrite Hstate.
Qed.

Lemma startTasks_flatten (selected : list AssetForCompression) :
  forall (k : nat) (c c0 : Compilation) (t0 : list (nat * list Effect))
    (states0 : list TaskState),
  startTasks this k selected c = (t0, (states0, c0)) ->
  flatten t0 = concat (map (fun asset => fst (startTask this asset)) selected)
  /\ states0 = map (fun asset => snd (startTask this asset)) selected.
Proof.
  induction selected as [|asset rest IH]; intros k c c0 t0 states0 Hstart.
  - simpl in Hstart. inversion Hstart; subst. now split.
  - simpl in Hstart. destruct (startTask this asset) as [effects state] eqn:Htask.
    destruct (startTasks this (S k) rest (run_effects c effects))
      as [trace [states c']] eqn:Hrest.
    inversion Hstart; subst. clear Hstart.
    destruct (IH _ _ _ _ _ Hrest) as [Hflat Hstates]. simpl.
    rewrite Htask. simpl. rewrite Hflat. split; [reflexivity | now rewrite <- Hstates].
Qed.

Lemma runTask_cached (asset : AssetForCompression) (cached : Source) :
  output_source (a_output asset) = Some cached ->
  startTask this asset = (emit this asset cached, Fulfilled)
  /\ runTask this asset = (emit this asset cached, Fulfilled).
Proof.
  intros Hcached. unfold runTask, startTask. rewrite Hcached. simpl.
  now rewrite app_nil_r.
Qed.

(** A pass in which every selected asset has a cached source has one
    schedule only: every task runs to its end inside the [for] loop, in
    the order of the names, and the pass is what [compress] computes.  No
    task invokes the algorithm, stores in the cache or pushes an error,
    and the cache is left as it was. *)
Theorem cached_pass_is_synchronous (compilation c : Compilation) (names : list string)
  (effects : list Effect) (selected : list AssetForCompression)
  (trace : list (nat * list Effect)) :
  assetsForCompression this compilation names = Normal (effects, selected) ->
  (forall asset, In asset selected -> output_source (a_output asset) <> None) ->
  pass this compilation names trace c ->
  compress this compilation names = Normal (trace, c)
  /\ flatten trace = concat (map (fun asset => fst (runTask this asset)) selected)
  /\ (forall e, In e (flatten trace) -> runs_algorithm e = false /\ stored_item e = None)
  /\ pushed (flatten trace) = []
  /\ cache c = cache compilation.
Proof.
  intros Hselect Hcached Hpass.
  assert (Htasks : forall asset, In asset selected ->
            exists cached,
              startTask this asset = (emit this asset cached, Fulfilled)
              /\ runTask this asset = (emit this asset cached, Fulfilled)).
  { intros asset Hin. pose proof (Hcached asset Hin) as Hsome.
    destruct (output_source (a_output asset)) as [cached |] eqn:Hsource; [| congruence].
    exists cached. now apply runTask_cached. }
  destruct Hpass as [effects' selected' t0 tr states0 states c0 c' Hselect' Hstart
                       Hsteps Hall].
  assert (selected' = selected) by congruence. subst selected'.
  destruct (startTasks_flatten selected 0 compilation c0 t0 states0 Hstart)
    as [Hflat Hstates].
  assert (Hsettled : forall j state, states0 !! j = Some state -> settled state = true).
  { intros j state Hj. rewrite Hstates, list_lookup_fmap in Hj.
    destruct (selected !! j) as [asset |] eqn:Hasset; [| discriminate].
    simpl in Hj. inversion Hj; subst state.
    destruct (Htasks asset) as (cached & Hstarted & _).
    - apply list_elem_of_In, list_elem_of_lookup. eauto.
    - now rewrite Hstarted. }
  destruct (steps_all_settled _ _ _ Hsteps Hsettled) as [-> Hpool].
  inversion Hpool; subst states c'. clear Hpool.
  assert (Hrun : flatten (t0 ++ [])
                 = concat (map (fun asset => fst (runTask this asset)) selected)).
  { rewrite app_nil_r, Hflat. apply concat_map_ext. intros asset Hin.
    destruct (Htasks asset Hin) as (cached & -> & ->). reflexivity. }
  assert (Hkinds : forall e, In e (flatten (t0 ++ [])) ->
                   runs_algorithm e = false /\ stored_item e = None
                   /\ forall error, e <> PushError error).
  { rewrite Hrun. intros e Hin. apply in_concat in Hin.
    destruct Hin as (es & Hes & He). apply in_map_iff in Hes.
    destruct Hes as (asset & <- & Hasset).
    destruct (Htasks asset Hasset) as (cached & _ & Htask). rewrite Htask in He.
    destruct (emit_effects this asset cached e He) as (Herr & Hstore & Halg & _).
    split; [| split; [| exact Herr]].
    - destruct e; try reflexivity. now destruct (Halg input).
    - destruct e; try reflexivity. now destruct (Hstore item value). }
  split; [| split; [exact Hrun | split; [intros e Hin; split; now apply Hkinds |]]].
  - unfold compress. rewrite Hselect, Hstart.
    rewrite (resumeTasks_all_settled states0 0 c0 Hsettled).
    rewrite (resumeTasks_all_settled states0 0 c0 Hsettled).
    rewrite Hall. reflexivity.
  - destruct (startTasks_spec this selected 0 compilation c0 t0 states0 Hstart)
      as (Hc0 & _).
    rewrite app_nil_r in Hkinds. rewrite app_nil_r, Hc0, cache_stores.
    assert (Hnone : pushed (flatten t0) = [] /\ stores (flatten t0) = []).
    { split.
      - destruct (pushed (flatten t0)) as [|error l] eqn:Hp; [reflexivity |].
        assert (Hin : In error (pushed (flatten t0))) by (rewrite Hp; now left).
        apply pushed_In in Hin. destruct (Hkinds _ Hin) as (_ & _ & Hno).
        now destruct (Hno error).
      - destruct (stores (flatten t0)) as [|[item value] l] eqn:Hs; [reflexivity |].
        assert (Hin : In (item, value) (stores (flatten t0))) by (rewrite Hs; now left).
        apply stores_In in Hin. destruct (Hkinds _ Hin) as (_ & Hno & _).
        discriminate. }
    destruct Hnone as [-> ->]. now split.
Qed.

End SynchronousFacts.

(** ** Lengths as numbers *)

(** A length is not below zero. *)
Lemma number_of_length_not_negative (n : nat) :
  (number_of_length n <? 0)%float = false.
Proof.
  unfold number_of_length. rewrite ltb_spec, of_uint63_spec.
  replace (Prim2SF 0%float) with (S754_zero false) by reflexivity.
  unfold binary_normalize.
  destruct (Uint63Axioms.to_Z _) as [|p|p] eqn:Hz.
  - reflexivity.
  - unfold binary_round. destruct (shl_align _ _ _) as [mz ez].
    unfold binary_round_aux.
    destruct (shr_fexp _ _ _ _ _) as [mrs' e'].
    destruct (shr_fexp _ _ _ _ _) as [mrs'' e''].
    destruct (shr_m mrs''); try reflexivity.
    destruct (Z.leb _ _); reflexivity.
  - pose proof (Uint63.to_Z_bounded (Uint63.of_Z (Z.of_nat n))) as Hb.
    change Uint63Axioms.to_Z with Uint63.to_Z in Hz. lia.
Qed.

(** [0 / 0] is NaN, and nothing is below NaN. *)
Lemma ltb_zero_by_zero (x : float) :
  (x <? number_of_length 0 / number_of_length 0)%float = false.
Proof.
  replace (number_of_length 0 / number_of_length 0)%float with nan
    by (vm_compute; reflexivity).
  rewrite ltb_spec. replace (Prim2SF nan) with S754_nan by reflexivity.
  unfold SFltb. destruct (Prim2SF x); reflexivity.
Qed.

(** ** Placeholders *)

Lemma prefix_append (needle s : string) :
  String.prefix needle s = true <-> exists rest, s = needle +:+ rest.
Proof.
  revert s. induction needle as [|a needle IH]; intros s.
  - split; [intros _; now exists s | intros _; now destruct s].
  - destruct s as [|b s]; simpl;
      [split; [discriminate | intros [rest Hrest]; discriminate] |].
    destruct (Ascii.ascii_dec a b) as [-> | Hne].
    + rewrite IH. split; intros [rest Hrest]; exists rest.
      * change (String b s = String b (needle +:+ rest)). now rewrite Hrest.
      * change (String b s = String b (needle +:+ rest)) in Hrest. now inversion Hrest.
    + split; [discriminate |]. intros [rest Hrest].
      change (String b s = String a (needle +:+ rest)) in Hrest. congruence.
Qed.

Lemma includes_append (s needle : string) :
  includes s needle = true <-> exists before rest, s = before +:+ needle +:+ rest.
Proof.
  induction s as [|b s IH].
  - cbn [includes]. rewrite orb_false_r, prefix_append. split.
    + intros [rest Hrest]. now exists "", rest.
    + intros (before & rest & Happ). destruct before as [|x before]; [| discriminate].
      now exists rest.
  - cbn [includes]. rewrite orb_true_iff, prefix_append, IH. split.
    + intros [[rest Hrest] | (before & rest & Happ)].
      * now exists "", rest.
      * exists (String b before), rest.
        change (String b s = String b (before +:+ needle +:+ rest)). now rewrite Happ.
    + intros (before & rest & Happ). destruct before as [|x before].
      * left. now exists rest.
      * right. exists before, rest.
        change (String b s = String x (before +:+ needle +:+ rest)) in Happ.
        now inversion Happ.
Qed.

Lemma has_name_placeholder_append (template : string) :
  has_name_placeholder template = true
  <-> exists placeholder before rest,
      In placeholder ["[name]"; "[base]"; "[file]"]
      /\ template = before +:+ placeholder +:+ rest.
Proof.
  unfold has_name_placeholder. rewrite !orb_true_iff, !includes_append. split.
  - intros [[(before & rest & Happ) | (before & rest & Happ)] | (before & rest & Happ)].
    + exists "[name]", before, rest. split; [now left | exact Happ].
    + exists "[base]", before, rest. split; [right; now left | exact Happ].
    + exists "[file]", before, rest. split; [right; right; now left | exact Happ].
  - intros (placeholder & before & rest & [<- | [<- | [<- | []]]] & Happ).
    + left. left. now exists before, rest.
    + left. right. now exists before, rest.
    + right. now exists before, rest.
Qed.

(** ** The options of a constructed plugin *)

Section OptionFacts.
Context `{Host}.

(** The options of a constructed plugin are the caller's, or the
    defaults of lines 105-117. *)
Lemma constructor_options (user : option PluginOptions) (this : CompressionPlugin) :
  constructor user = Normal this ->
  let o := default empty_options user in
  algorithm (options this) = default (AlgorithmName "gzip") (o_algorithm o)
  /\ filename (options this)
     = default (FilenameTemplate (if is_brotliCompress (o_algorithm o)
                                  then "[path][base].br" else "[path][base].gz"))
         (o_filename o)
  /\ threshold (options this) = default 0%float (o_threshold o)
  /\ minRatio (options this) = default default_minRatio (o_minRatio o)
  /\ deleteOriginalAssets (options this)
     = default (DeleteBool false) (o_deleteOriginalAssets o)
  /\ test (options this) = o_test o
  /\ include (options this) = o_include o
  /\ exclude (options this) = o_exclude o.
Proof.
  unfold constructor. destruct (validate user); [discriminate |]. cbv zeta.
  destruct (default (AlgorithmName "gzip") (o_algorithm (default empty_options user)))
    as [name | code fn] eqn:Halgorithm.
  - destruct (zlib name); [| discriminate]. intros [= <-]. simpl. repeat split.
  - intros [= <-]. simpl. repeat split.
Qed.

(** Spelling out the options of a constructed plugin changes nothing: the
    constructor gives the same plugin for them, the defaults it merges into
    the compression options being there already. *)
Theorem constructor_is_idempotent (user : option PluginOptions)
  (this : CompressionPlugin) :
  constructor user = Normal this ->
  validate (Some (spelled_out (options this))) = None ->
  constructor (Some (spelled_out (options this))) = Normal this.
Proof.
  intros Hthis Hvalid. unfold constructor in *. rewrite Hvalid.
  destruct (validate user); [discriminate |]. cbv zeta in *.
  destruct (default (AlgorithmName "gzip") (o_algorithm (default empty_options user)))
    as [name | code fn] eqn:Halgorithm.
  - destruct (zlib name) as [fn |] eqn:Hzlib; [| discriminate].
    inversion Hthis; subst this. clear Hthis. simpl. rewrite Hzlib.
    unfold spread. now rewrite <- (assoc_L (∪)), (idemp_L (∪)).
  - inversion Hthis; subst this. reflexivity.
Qed.

End OptionFacts.

(** ** Thresholds, empty assets and derived infos *)

Section EdgeFacts.
Context `{Host}.
Variable this : CompressionPlugin.

(** With a threshold of zero, the default of the constructor, no asset is
    dropped for its size: an asset that is not marked compressed, matches
    the rules and does not carry the relation name is selected whatever its
    length, an empty one included, and is among the selected assets of
    every pass over its name. *)
Theorem zero_threshold_drops_nothing (compilation : Compilation) (name : string)
  (original : Asset) :
  threshold (options this) = 0%float
  \/ (exists user,
         constructor user = Normal this
         /\ o_threshold (default empty_options user) = None) ->
  assets compilation !! name = Some original ->
  info_compressed (info original) = false ->
  matchObject (options this) name = true ->
  has_related (info original) (relatedName (options this)) = false ->
  exists effects asset,
    selectAsset this compilation name = Normal (effects, Some asset)
    /\ a_name asset = name
    /\ a_source asset = source original
    /\ forall names effects' selected,
        In name names ->
        assetsForCompression this compilation names = Normal (effects', selected) ->
        In asset selected.
Proof.
  intros Hthreshold Hname Hcompressed Hmatch Hrelated.
  assert (Hzero : threshold (options this) = 0%float).
  { destruct Hthreshold as [Hzero | (user & Huser & Hnone)]; [exact Hzero |].
    destruct (constructor_options user this Huser) as (_ & _ & Ht & _).
    now rewrite Ht, Hnone. }
  pose proof (selectAsset_eligible this compilation name original Hname Hcompressed
                Hmatch Hrelated) as Hselect.
  cbv zeta in Hselect. rewrite Hzero, number_of_length_not_negative in Hselect.
  assert (Hsome : exists effects asset,
             selectAsset this compilation name = Normal (effects, Some asset)
             /\ a_name asset = name /\ a_source asset = source original).
  { destruct (output_source _); eexists; eexists; (split; [exact Hselect |]);
      split; reflexivity. }
  destruct Hsome as (effects & asset & Hasset & Ha & Hs).
  exists effects, asset. repeat (split; [assumption |]).
  intros names effects' selected Hin Hselected.
  destruct (names_selected this compilation names effects' selected Hselected name Hin)
    as (e & r & Hr & Hall).
  apply Hall. congruence.
Qed.

(** The ratio of an empty result to an empty original is [0 / 0], which
    is NaN, and NaN is above no [minRatio]: the task of an empty asset
    whose algorithm gives an empty result emits the empty derived asset,
    under any schedule and whatever [minRatio] is. *)
Theorem empty_result_is_accepted (compilation : Compilation) (names : list string)
  (effects : list Effect) (selected : list AssetForCompression)
  (asset : AssetForCompression) :
  assetsForCompression this compilation names = Normal (effects, selected) ->
  In asset selected ->
  output_source (a_output asset) = None ->
  source_buffer (a_source asset) = [] ->
  compressed_of this asset [] = Normal [] ->
  ratio_exceeds this [] [] = false
  /\ emitted this asset = Some (RawSource [])
  /\ forall trace c,
      pass this compilation names trace c ->
      In (EmitAsset (derived this (a_name asset)) (RawSource [])
            (newInfo this (a_info asset)))
        (flatten trace).
Proof.
  intros Hselect Hin Hsource Hempty Hresult.
  assert (Hratio : ratio_exceeds this [] [] = false)
    by (unfold ratio_exceeds; apply ltb_zero_by_zero).
  destruct (selected_original this compilation names effects selected asset Hselect Hin)
    as (original & _ & _ & Hs & _ & _ & _ & Hbuffer).
  rewrite Hsource, <- Hs, Hempty in Hbuffer.
  assert (Hemitted : emitted this asset = Some (RawSource [])).
  { unfold emitted. now rewrite Hsource, Hbuffer, Hresult, Hratio. }
  split; [exact Hratio |]. split; [exact Hemitted |].
  intros trace c Hpass.
  apply (pass_task_effect this compilation c names trace effects selected asset);
    try assumption.
  rewrite runTask_effects, Hsource, Hbuffer, Hresult, Hratio.
  apply in_or_app. right. right. unfold emit. apply in_or_app. right. now left.
Qed.

(** The info of a derived asset (lines 373-383): it is marked compressed
    and carries no relation; it is immutable exactly when the original is
    and the filename is a template that holds [[name]], [[base]] or
    [[file]].  With the default filename of the constructor the derived
    asset is immutable exactly when the original is. *)
Theorem derived_info_immutable (original_info : AssetInfo) :
  info_compressed (newInfo this original_info) = true
  /\ info_related (newInfo this original_info) = None
  /\ (info_immutable (newInfo this original_info) = true
      <-> info_immutable original_info = true
          /\ exists template placeholder before rest,
              filename (options this) = FilenameTemplate template
              /\ In placeholder ["[name]"; "[base]"; "[file]"]
              /\ template = before +:+ placeholder +:+ rest)
  /\ (forall user,
         constructor user = Normal this ->
         o_filename (default empty_options user) = None ->
         info_immutable (newInfo this original_info) = info_immutable original_info).
Proof.
  split; [reflexivity |]. split; [reflexivity |]. split.
  - unfold newInfo. simpl. rewrite andb_true_iff.
    destruct (filename (options this)) as [template | code fn].
    + rewrite has_name_placeholder_append. split.
      * intros [Himmutable (placeholder & before & rest & Hin & Happ)].
        split; [exact Himmutable |]. now exists template, placeholder, before, rest.
      * intros [Himmutable (template' & placeholder & before & rest & [= <-] & Hin & Happ)].
        split; [exact Himmutable |]. now exists placeholder, before, rest.
    + split; [intros [_ Hfalse]; discriminate |].
      intros [_ (template & placeholder & before & rest & Hfn & _)]. discriminate.
  - intros user Huser Hnone.
    destruct (constructor_options user this Huser) as (_ & Hfilename & _).
    rewrite Hnone in Hfilename. unfold newInfo. simpl. rewrite Hfilename. simpl.
    destruct (is_brotliCompress _); simpl; apply andb_true_r.
Qed.

End EdgeFacts.

(** ** The original that is kept *)

Section KeepFacts.
Context `{Host}.
Variable this : CompressionPlugin.

(** The binding of the original after a pass without collisions. *)
Lemma pass_original (compilation c : Compilation) (names : list string)
  (trace : list (nat * list Effect)) (effects : list Effect)
  (selected : list AssetForCompression) (asset : AssetForCompression) :
  pass this compilation names trace c ->
  assetsForCompression this compilation names = Normal (effects, selected) ->
  List.NoDup names -> collision_free this names ->
  In asset selected ->
  exists original,
    assets compilation !! a_name asset = Some original
    /\ a_source asset = source original
    /\ assets c !! a_name asset
       = match emitted this asset with
         | None => Some original
         | Some _ =>
             match deleteOriginalAssets (options this) with
             | DeleteBool false =>
                 Some (mkAsset (source original)
                         (merge_related (info original)
                            {[ relatedName (options this)
                               := RelatedFile (derived this (a_name asset)) ]}))
             | DeleteBool true | DeleteKeepSourceMap => None
             | DeleteFn fn => if fn (a_name asset) then None else Some original
             end
         end.
Proof.
  intros Hpass Hselect Hnodup Hfree Hin.
  assert (Hfree1 : collision_free this (map a_name selected)).
  { apply (collision_free_incl this names); [exact Hfree |].
    intros n. apply (selected_names this compilation names effects selected n Hselect). }
  assert (Hfresh : derived this (a_name asset) <> a_name asset).
  { destruct Hfree1 as [_ Hfresh]. apply Hfresh; now apply in_map. }
  destruct (selected_In this compilation names effects selected asset Hselect Hin)
    as [_ [e He]].
  destruct (selectAsset_output this compilation _ e asset He)
    as (original & Horiginal & _ & Hsource & _).
  pose proof (selectAsset_relatedName this compilation _ e asset He) as Hrelated.
  exists original. split; [exact Horiginal |]. split; [exact Hsource |].
  apply list_elem_of_In, list_elem_of_lookup in Hin. destruct Hin as [j Hj].
  destruct (pass_owner this compilation c names trace effects selected j asset
              Hpass Hselect Hnodup Hfree1 Hj) as [Hassets _].
  rewrite (Hassets _ (or_introl eq_refl)), runTask_assets, Horiginal.
  destruct (emitted this asset) as [emitted_source |]; [| reflexivity].
  rewrite (emit_original this asset emitted_source _ Hfresh), Hsource, Hrelated.
  reflexivity.
Qed.

(** With [deleteOriginalAssets: false] a task deletes nothing. *)
Lemma runTask_deletes_nothing (asset : AssetForCompression) (name : string) :
  deleteOriginalAssets (options this) = DeleteBool false ->
  ~ In (DeleteAsset name) (fst (runTask this asset)).
Proof.
  intros Hpolicy.
  assert (Hemit : forall src, ~ In (DeleteAsset name) (emit this asset src)).
  { intros src Hin. unfold emit, disposeOriginal in Hin. rewrite Hpolicy in Hin.
    simpl in Hin. destruct Hin as [Hin | [Hin | []]]; discriminate. }
  rewrite runTask_effects.
  destruct (output_source (a_output asset)) as [src |]; [apply Hemit |].
  destruct (a_buffer asset) as [buffer |]; [| easy].
  intros Hin. apply in_app_or in Hin. destruct Hin as [Hin | Hin].
  - destruct (output_compressed (a_output asset)); [easy |].
    destruct Hin as [Hin | []]. discriminate.
  - destruct (compressed_of this asset buffer) as [compressed | error].
    + destruct (ratio_exceeds this compressed buffer).
      * destruct Hin as [Hin | []]. discriminate.
      * destruct Hin as [Hin | Hin]; [discriminate | now apply (Hemit _ Hin)].
    + destruct Hin as [Hin | []]. discriminate.
Qed.

Lemma merge_related_lookup (original_info : AssetInfo) (key : string)
  (value : RelatedValue) (key' : string) :
  info_related (merge_related original_info {[ key := value ]})
  = Some ({[ key := value ]} ∪ default ∅ (info_related original_info))
  /\ (({[ key := value ]} ∪ default ∅ (info_related original_info)) : gmap string RelatedValue)
       !! key = Some value
  /\ (key' <> key ->
      (({[ key := value ]} ∪ default ∅ (info_related original_info))
         : gmap string RelatedValue) !! key'
      = default ∅ (info_related original_info) !! key').
Proof.
  split; [reflexivity |]. split.
  - apply lookup_union_Some_l. apply lookup_singleton_eq.
  - intros Hne. apply lookup_union_r. now apply lookup_singleton_ne.
Qed.

(** With [deleteOriginalAssets: false] no task calls [deleteAsset], and
    after a pass without collisions, under any schedule, the original of
    every selected asset is still bound.  If its task emitted nothing (the
    algorithm failed or the ratio was above [minRatio]) it is bound as
    before the pass.  If its task emitted, it is kept with its source and
    its compressed and immutable flags as before; its relations are those
    before the pass, with the relation name set to the derived name. *)
Theorem keep_policy (compilation c : Compilation) (names : list string)
  (trace : list (nat * list Effect)) (effects : list Effect)
  (selected : list AssetForCompression) (asset : AssetForCompression) :
  deleteOriginalAssets (options this) = DeleteBool false ->
  pass this compilation names trace c ->
  assetsForCompression this compilation names = Normal (effects, selected) ->
  List.NoDup names -> collision_free this names ->
  In asset selected ->
  (forall name, ~ In (DeleteAsset name) (flatten trace))
  /\ exists original,
    assets compilation !! a_name asset = Some original
    /\ (emitted this asset = None -> assets c !! a_name asset = Some original)
    /\ (emitted this asset <> None ->
        exists kept related,
          assets c !! a_name asset = Some kept
          /\ source kept = source original
          /\ info_compressed (info kept) = info_compressed (info original)
          /\ info_immutable (info kept) = info_immutable (info original)
          /\ info_related (info kept) = Some related
          /\ related !! relatedName (options this)
             = Some (RelatedFile (derived this (a_name asset)))
          /\ forall key,
              key <> relatedName (options this) ->
              related !! key = default ∅ (info_related (info original)) !! key).
Proof.
  intros Hpolicy Hpass Hselect Hnodup Hfree Hin.
  split.
  { intros name Hdelete.
    destruct (pass_effect_owner this _ _ _ _ _ _ _ Hpass Hselect Hdelete)
      as (owner & _ & Hrun).
    now apply (runTask_deletes_nothing owner name Hpolicy). }
  destruct (pass_original compilation c names trace effects selected asset Hpass
              Hselect Hnodup Hfree Hin) as (original & Horiginal & _ & Hafter).
  exists original. split; [exact Horiginal |]. split.
  - intros Hnone. now rewrite Hnone in Hafter.
  - intros Hsome.
    destruct (emitted this asset) as [emitted_source |]; [| congruence].
    rewrite Hpolicy in Hafter.
    destruct (merge_related_lookup (info original) (relatedName (options this))
                (RelatedFile (derived this (a_name asset))) "")
      as (Hrelated & Hset & _).
    eexists. eexists. split; [exact Hafter |]. simpl.
    repeat (split; [reflexivity |]). split; [exact Hset |].
    intros key Hkey.
    now apply (merge_related_lookup (info original) (relatedName (options this))
                 (RelatedFile (derived this (a_name asset))) key).
Qed.

End KeepFacts.

(** ** The selection *)

Section SelectionFacts.
Context `{Host}.
Variable this : CompressionPlugin.

Lemma selectAsset_reads (compilation : Compilation) (name : string)
  (effects : list Effect) (selected : option AssetForCompression) :
  selectAsset this compilation name = Normal (effects, selected) ->
  is_Some (assets compilation !! name)
  /\ (forall e, In e effects ->
        (exists item, e = GetItem item) \/ exists read, e = ReadBuffer read)
  /\ forall asset, selected = Some asset -> a_name asset = name.
Proof.
  unfold selectAsset. intros Hselect.
  destruct (assets compilation !! name) as [[src inf] |]; [| discriminate].
  split; [eauto |].
  destruct (info_compressed inf); [inversion Hselect; subst; now split |].
  destruct (negb (matchObject (options this) name));
    [inversion Hselect; subst; now split |].
  destruct (has_related inf (relatedName (options this)));
    [inversion Hselect; subst; now split |].
  destruct (output_source _).
  - inversion Hselect; subst. split.
    + intros e [<- | []]. left. eauto.
    + now intros asset [= <-].
  - assert (Hreads : forall e,
               In e [GetItem (getItemCache this name src); ReadBuffer src] ->
               (exists item, e = GetItem item) \/ exists read, e = ReadBuffer read).
    { intros e [<- | [<- | []]]; [left | right]; eauto. }
    destruct (PrimFloat.ltb _ _); inversion Hselect; subst; (split; [exact Hreads |]).
    + easy.
    + now intros asset [= <-].
Qed.

Lemma selectAsset_throws (compilation : Compilation) (name : string) (e : Error) :
  selectAsset this compilation name = Throw e -> assets compilation !! name = None.
Proof.
  unfold selectAsset.
  destruct (assets compilation !! name) as [[src inf] |]; [| reflexivity].
  destruct (info_compressed inf); [discriminate |].
  destruct (negb (matchObject (options this) name)); [discriminate |].
  destruct (has_related inf (relatedName (options this))); [discriminate |].
  destruct (output_source _); [discriminate |].
  destruct (PrimFloat.ltb _ _); discriminate.
Qed.

Lemma reads_run_effects (c : Compilation) (es : list Effect) :
  (forall e, In e es ->
     (exists item, e = GetItem item) \/ exists read, e = ReadBuffer read) ->
  run_effects c es = c.
Proof.
  induction es as [|e es IH]; intros Hreads; [reflexivity |].
  unfold run_effects in *. simpl.
  assert (He : run_effect c e = c).
  { destruct (Hreads e (or_introl eq_refl)) as [[item ->] | [read ->]]; reflexivity. }
  rewrite He. apply IH. intros e' Hin. apply Hreads. now right.
Qed.

(** The selection (lines 240-332) only looks up cache items and reads
    buffers: its effects leave the compilation as it is.  It selects
    assets in the order of the names.  It rejects exactly when a name is
    not an asset of the compilation, and then [compress] rejects with the
    same error before any task is created. *)
Theorem selection_reads_only (compilation : Compilation) (names : list string) :
  match assetsForCompression this compilation names with
  | Normal (effects, selected) =>
      run_effects compilation effects = compilation
      /\ (forall e, In e effects ->
            (exists item, e = GetItem item) \/ exists read, e = ReadBuffer read)
      /\ sublist (map a_name selected) names
      /\ forall name, In name names -> is_Some (assets compilation !! name)
  | Throw e =>
      (exists name, In name names /\ assets compilation !! name = None)
      /\ compress this compilation names = Throw e
      /\ forall trace c, ~ pass this compilation names trace c
  end.
Proof.
  destruct (assetsForCompression this compilation names) as [[effects selected] | e]
    eqn:Hselect.
  - assert (Hgoal : (forall e, In e effects ->
                       (exists item, e = GetItem item) \/ exists read, e = ReadBuffer read)
                    /\ sublist (map a_name selected) names
                    /\ forall name, In name names -> is_Some (assets compilation !! name)).
    { revert effects selected Hselect.
      induction names as [|name rest IH]; intros effects selected Hselect.
      - simpl in Hselect. inversion Hselect; subst. repeat split; try easy; constructor.
      - simpl in Hselect.
        destruct (selectAsset this compilation name) as [[e a] | err] eqn:Hname;
          [| discriminate].
        destruct (assetsForCompression this compilation rest) as [[e' l] | err'];
          [| discriminate].
        inversion Hselect; subst. clear Hselect.
        destruct (IH e' l eq_refl) as (Hreads & Hsub & Hbound).
        destruct (selectAsset_reads compilation name e a Hname)
          as (Hsome & Hreads' & Hnamed).
        split; [| split].
        + intros x Hin. apply in_app_or in Hin.
          destruct Hin as [Hin | Hin]; [now apply Hreads' | now apply Hreads].
        + destruct a as [a |].
          * simpl. rewrite (Hnamed a eq_refl). now constructor.
          * now constructor.
        + intros n [<- | Hin]; [exact Hsome | now apply Hbound]. }
    destruct Hgoal as (Hreads & Hsub & Hbound).
    split; [now apply reads_run_effects |]. repeat split; assumption.
  - split; [| split].
    + revert e Hselect. induction names as [|name rest IH]; intros e Hselect;
        [discriminate |].
      simpl in Hselect.
      destruct (selectAsset this compilation name) as [[e0 a] | err] eqn:Hname.
      * destruct (assetsForCompression this compilation rest) as [[e' l] | err'];
          [discriminate |].
        destruct (IH err' eq_refl) as (n & Hin & Hnone).
        exists n. split; [now right | exact Hnone].
      * exists name. split; [now left |]. now apply (selectAsset_throws compilation name err).
    + unfold compress. now rewrite Hselect.
    + intros trace c Hpass.
      destruct (pass_projection this _ _ _ _ Hpass) as (effects & selected & Hs & _).
      congruence.
Qed.

End SelectionFacts.

(** ** Two plugins *)

Section TwoPlugins.
Context `{Host}.
Variables first second : CompressionPlugin.

(** The effects of a task do not depend on the relations its asset
    carries. *)
Lemma runTask_info (asset : AssetForCompression) (kept_info : AssetInfo) :
  info_immutable kept_info = info_immutable (a_info asset) ->
  fst (runTask second
         (mkAssetForCompression (a_name asset) (a_source asset) kept_info
            (a_buffer asset) (a_output asset) (a_cacheItem asset)
            (a_relatedName asset)))
  = fst (runTask second asset).
Proof.
  intros Himmutable. rewrite !runTask_effects. unfold compressed_of. simpl.
  assert (Hemit : forall src,
             emit second
               (mkAssetForCompression (a_name asset) (a_source asset) kept_info
                  (a_buffer asset) (a_output asset) (a_cacheItem asset)
                  (a_relatedName asset)) src
             = emit second asset src).
  { intros src. now apply emit_ext. }
  destruct (output_source (a_output asset)); [apply Hemit |].
  destruct (a_buffer asset) as [buffer |]; [| reflexivity].
  f_equal.
  destruct (output_compressed (a_output asset)) as [compressed |].
  - destruct (ratio_exceeds second compressed buffer); [reflexivity |].
    now rewrite Hemit.
  - destruct (runCompressionAlgorithm second buffer) as [compressed | error];
      [| reflexivity].
    destruct (ratio_exceeds second compressed buffer); [reflexivity |].
    now rewrite Hemit.
Qed.

(** The selection of a name whose asset differs in its relations only. *)
Lemma selectAsset_info (c c' : Compilation) (name : string) (original kept : Asset) :
  assets c !! name = Some original ->
  assets c' !! name = Some kept ->
  source kept = source original ->
  info_compressed (info kept) = info_compressed (info original) ->
  has_related (info kept) (relatedName (options second))
  = has_related (info original) (relatedName (options second)) ->
  (forall src,
      cache_get (cache c') (getItemCache second name src)
      = cache_get (cache c) (getItemCache second name src)) ->
  match selectAsset second c name with
  | Normal (effects, Some asset) =>
      selectAsset second c' name
      = Normal (effects,
                Some (mkAssetForCompression (a_name asset) (a_source asset) (info kept)
                        (a_buffer asset) (a_output asset) (a_cacheItem asset)
                        (a_relatedName asset)))
      /\ a_info asset = info original
  | other => selectAsset second c' name = other
  end.
Proof.
  intros Horiginal Hkept Hsource Hcompressed Hrelated Hcache.
  unfold selectAsset. rewrite Horiginal, Hkept.
  destruct original as [src inf], kept as [src' inf']. simpl in *. subst src'.
  rewrite Hcompressed, Hrelated, Hcache.
  destruct (info_compressed inf); [reflexivity |].
  destruct (negb (matchObject (options second) name)); [reflexivity |].
  destruct (has_related inf (relatedName (options second))); [reflexivity |].
  destruct (output_source _); [now split |].
  destruct (PrimFloat.ltb _ _); [reflexivity | now split].
Qed.

Lemma has_related_other (original_info : AssetInfo) (key : string) (value : RelatedValue)
  (relatedName : string) :
  relatedName <> key ->
  has_related (merge_related original_info {[ key := value ]}) relatedName
  = has_related original_info relatedName.
Proof.
  intros Hne. unfold has_related.
  destruct (merge_related_lookup original_info key value relatedName)
    as (-> & _ & Hother).
  rewrite (Hother Hne). destruct (info_related original_info); [reflexivity |].
  simpl. now rewrite lookup_empty.
Qed.

(** Two plugins on one compilation, as for gzip and brotli side by side.
    After a pass of the first, which keeps the originals, the second
    selects every name of that pass as it would have before it, with the
    same cache lookup, buffer and task effects: the relation the first set
    is under another name, and its cache items are other items.  The
    derived assets of the first are marked compressed, and the second
    drops them. *)
Theorem plugins_do_not_interfere (compilation c1 : Compilation) (names : list string)
  (trace : list (nat * list Effect)) :
  relatedName (options first) <> relatedName (options second) ->
  serialize_algorithm (algorithm (options first))
  <> serialize_algorithm (algorithm (options second))
  \/ compressionOptions (options first) <> compressionOptions (options second) ->
  deleteOriginalAssets (options first) = DeleteBool false ->
  List.NoDup names -> collision_free first names ->
  pass first compilation names trace c1 ->
  (forall name,
      In name names ->
      match selectAsset second compilation name with
      | Normal (effects, Some asset) =>
          exists asset',
            selectAsset second c1 name = Normal (effects, Some asset')
            /\ a_name asset' = a_name asset
            /\ a_source asset' = a_source asset
            /\ a_buffer asset' = a_buffer asset
            /\ a_output asset' = a_output asset
            /\ fst (runTask second asset') = fst (runTask second asset)
      | other => selectAsset second c1 name = other
      end)
  /\ (forall effects selected asset emitted_source,
         assetsForCompression first compilation names = Normal (effects, selected) ->
         In asset selected ->
         emitted first asset = Some emitted_source ->
         assets c1 !! derived first (a_name asset)
         = Some (mkAsset emitted_source (newInfo first (a_info asset)))
         /\ selectAsset second c1 (derived first (a_name asset)) = Normal ([], None)).
Proof.
  intros Hnames Hitems Hpolicy Hnodup Hfree Hpass.
  destruct (pass_projection first _ _ _ _ Hpass)
    as (effects & selected & Hselect & _).
  assert (Hfree1 : collision_free first (map a_name selected)).
  { apply (collision_free_incl first names); [exact Hfree |].
    intros n. apply (selected_names first compilation names effects selected n Hselect). }
  split.
  - intros name Hin.
    assert (Hcache : forall src,
               cache_get (cache c1) (getItemCache second name src)
               = cache_get (cache compilation) (getItemCache second name src)).
    { intros src.
      apply (pass_cache_nobody first compilation c1 names trace effects selected);
        try assumption.
      intros asset Hasset Heq.
      destruct (selected_original first compilation names effects selected asset
                  Hselect Hasset) as (original & _ & _ & _ & _ & Hitem & _).
      rewrite Hitem in Heq. unfold getItemCache in Heq.
      destruct Hitems as [Hne | Hne]; apply Hne; congruence. }
    assert (Hleaves :
              assets c1 !! name = assets compilation !! name
              \/ exists original,
                  assets compilation !! name = Some original
                  /\ assets c1 !! name
                     = Some (mkAsset (source original)
                               (merge_related (info original)
                                  {[ relatedName (options first)
                                     := RelatedFile (derived first name) ]}))).
    { destruct (names_selected first compilation names effects selected Hselect name Hin)
        as (e & r & Hr & Hall).
      destruct r as [asset |].
      - pose proof (Hall asset eq_refl) as Hasset.
        destruct (selectAsset_output first compilation name e asset Hr)
          as (_ & _ & Hname & _).
        destruct (pass_original first compilation c1 names trace effects selected asset
                    Hpass Hselect Hnodup Hfree Hasset)
          as (original & Horiginal & _ & Hafter).
        rewrite Hname in *. rewrite Hpolicy in Hafter.
        destruct (emitted first asset).
        + right. now exists original.
        + left. congruence.
      - left. apply (pass_nobody first compilation c1 names trace effects selected);
          try assumption.
        intros asset Hasset.
        destruct (selected_In first compilation names effects selected asset Hselect
                    Hasset) as [Hin' [e' He']].
        split; [intros ->; congruence |].
        intros ->. destruct Hfree as [_ Hfresh]. now apply (Hfresh (a_name asset) _ Hin' Hin). }
    destruct Hleaves as [Hsame | (original & Horiginal & Hkept)].
    + rewrite (selectAsset_ext second c1 compilation name Hsame Hcache).
      destruct (selectAsset second compilation name) as [[e [asset |]] | err];
        try reflexivity.
      exists asset. repeat split; reflexivity.
    + pose proof (selectAsset_info compilation c1 name original _ Horiginal Hkept
                    eq_refl eq_refl
                    (has_related_other (info original) _ _ _ (not_eq_sym Hnames))
                    Hcache) as Hinfo.
      destruct (selectAsset second compilation name) as [[e [asset |]] | err];
        try exact Hinfo.
      destruct Hinfo as [Hinfo Hrecorded].
      eexists. split; [exact Hinfo |]. simpl. repeat (split; [reflexivity |]).
      apply runTask_info. simpl. now rewrite Hrecorded.
  - intros effects' selected' asset emitted_source Hselect' Hasset Hemitted.
    assert (selected' = selected) by congruence. subst selected'.
    apply list_elem_of_In, list_elem_of_lookup in Hasset. destruct Hasset as [j Hj].
    destruct (pass_owner first compilation c1 names trace effects selected j asset
                Hpass Hselect Hnodup Hfree1 Hj) as [Hassets _].
    assert (Hbound : assets c1 !! derived first (a_name asset)
                     = Some (mkAsset emitted_source (newInfo first (a_info asset)))).
    { rewrite (Hassets _ (or_intror eq_refl)), runTask_assets, Hemitted.
      apply emit_derived. }
    split; [exact Hbound |].
    apply (selectAsset_skips second c1 _ _ Hbound). now left.
Qed.

End TwoPlugins.

(** ** The assets a pass adds *)

Section AdditionalFacts.
Context `{Host}.
Variable this : CompressionPlugin.

Lemma steps_no_tasks (c : Compilation) (trace : list (nat * list Effect)) (p : Pool) :
  steps this ([], c) trace p -> trace = [] /\ p = ([], c).
Proof.
  intros Hsteps. apply (steps_all_settled this _ _ _ Hsteps). intros j state Hj.
  discriminate.
Qed.

(** A name bound after a pass and not before it is the derived name of a
    task that emitted, bound to what that task emitted. *)
Lemma pass_added (compilation c : Compilation) (names : list string)
  (trace : list (nat * list Effect)) (effects : list Effect)
  (selected : list AssetForCompression) (name : string) :
  pass this compilation names trace c ->
  assetsForCompression this compilation names = Normal (effects, selected) ->
  List.NoDup names -> collision_free this names ->
  assets compilation !! name = None ->
  is_Some (assets c !! name) ->
  exists asset emitted_source,
    In asset selected
    /\ name = derived this (a_name asset)
    /\ emitted this asset = Some emitted_source
    /\ assets c !! name = Some (mkAsset emitted_source (newInfo this (a_info asset))).
Proof.
  intros Hpass Hselect Hnodup Hfree Hbefore Hafter.
  assert (Hfree1 : collision_free this (map a_name selected)).
  { apply (collision_free_incl this names); [exact Hfree |].
    intros n. apply (selected_names this compilation names effects selected n Hselect). }
  destruct (owner_or_nobody this selected name) as [(asset & Hin & Hname) | Hnone].
  - destruct (selected_original this compilation names effects selected asset Hselect Hin)
      as (original & _ & Horiginal & _).
    destruct Hname as [-> | ->]; [congruence |].
    pose proof Hin as Hin'.
    apply list_elem_of_In, list_elem_of_lookup in Hin. destruct Hin as [j Hj].
    destruct (pass_owner this compilation c names trace effects selected j asset
                Hpass Hselect Hnodup Hfree1 Hj) as [Hassets _].
    pose proof (Hassets _ (or_intror eq_refl)) as Hbound.
    rewrite runTask_assets in Hbound.
    destruct (emitted this asset) as [emitted_source |] eqn:Hemitted.
    + rewrite emit_derived in Hbound. now exists asset, emitted_source.
    + rewrite Hbound, Hbefore in Hafter. now destruct Hafter.
  - rewrite (pass_nobody this compilation c names trace effects selected name
               Hpass Hselect Hnone), Hbefore in Hafter.
    now destruct Hafter.
Qed.

Lemma assetsForCompression_none (c : Compilation) (names : list string) :
  (forall name, In name names -> selectAsset this c name = Normal ([], None)) ->
  assetsForCompression this c names = Normal ([], []).
Proof.
  induction names as [|name rest IH]; intros Hnone; [reflexivity |].
  simpl. rewrite (Hnone name) by now left.
  rewrite IH; [reflexivity |]. intros n Hin. apply Hnone. now right.
Qed.

(** The assets a pass adds are its derived assets, marked compressed.
    The tap of [apply] on [processAssets] asks with [additionalAssets:
    true] to be called again for them; that call selects nothing, has no
    effect under any schedule and leaves the compilation as it is. *)
Theorem additional_assets_are_skipped (compilation c : Compilation)
  (names additional : list string) (trace : list (nat * list Effect)) :
  List.NoDup names -> collision_free this names ->
  pass this compilation names trace c ->
  (forall name,
      In name additional ->
      assets compilation !! name = None /\ is_Some (assets c !! name)) ->
  (forall name,
      In name additional ->
      exists added, assets c !! name = Some added /\ info_compressed (info added) = true)
  /\ assetsForCompression this c additional = Normal ([], [])
  /\ compress this c additional = Normal ([], c)
  /\ (forall trace' c', pass this c additional trace' c' -> trace' = [] /\ c' = c)
  /\ tap_additionalAssets (processAssets (apply this)) = true
  /\ tap_fn (processAssets (apply this)) c additional = Normal ([], c).
Proof.
  intros Hnodup Hfree Hpass Hadditional.
  destruct (pass_projection this _ _ _ _ Hpass)
    as (effects & selected & Hselect & _).
  assert (Hadded : forall name,
             In name additional ->
             exists added,
               assets c !! name = Some added /\ info_compressed (info added) = true).
  { intros name Hin. destruct (Hadditional name Hin) as [Hbefore Hafter].
    destruct (pass_added compilation c names trace effects selected name Hpass Hselect
                Hnodup Hfree Hbefore Hafter)
      as (asset & emitted_source & _ & _ & _ & Hbound).
    eexists. split; [exact Hbound | reflexivity]. }
  assert (Hnone : assetsForCompression this c additional = Normal ([], [])).
  { apply assetsForCompression_none. intros name Hin.
    destruct (Hadded name Hin) as (added & Hbound & Hflag).
    apply (selectAsset_skips this c name added Hbound). now left. }
  assert (Hcompress : compress this c additional = Normal ([], c))
    by (unfold compress; now rewrite Hnone).
  split; [exact Hadded |]. split; [exact Hnone |]. split; [exact Hcompress |].
  split; [| split; [reflexivity | exact Hcompress]].
  intros trace' c' [effects' selected' t0 tr states0 states c0 c'' Hselect' Hstart
                      Hsteps Hall].
  assert (selected' = []) by congruence. subst selected'.
  simpl in Hstart. inversion Hstart; subst. clear Hstart.
  destruct (steps_no_tasks _ tr _ Hsteps) as [-> Hpool].
  inversion Hpool; subst. now split.
Qed.

End AdditionalFacts.

(** ** A rebuild *)

Section RebuildFacts.
Context `{Host}.
Variable this : CompressionPlugin.

(** After a pass, the cache item of a name of the pass holds what the
    task of that name stored, or what it held before. *)
Lemma pass_item (compilation c1 : Compilation) (names : list string)
  (trace1 : list (nat * list Effect)) (effects1 : list Effect)
  (selected1 : list AssetForCompression) (name : string) (e : list Effect)
  (r : option AssetForCompression) (src : Source) :
  pass this compilation names trace1 c1 ->
  assetsForCompression this compilation names = Normal (effects1, selected1) ->
  List.NoDup names -> collision_free this names ->
  In name names ->
  selectAsset this compilation name = Normal (e, r) ->
  cache_get (cache c1) (getItemCache this name src)
  = match r with
    | Some first =>
        if decide (getItemCache this name src = a_cacheItem first)
        then match stored this first with
             | Some output => Some output
             | None => cache_get (cache compilation) (getItemCache this name src)
             end
        else cache_get (cache compilation) (getItemCache this name src)
    | None => cache_get (cache compilation) (getItemCache this name src)
    end.
Proof.
  intros Hpass Hselect Hnodup Hfree Hin Hname.
  assert (Hfree1 : collision_free this (map a_name selected1)).
  { apply (collision_free_incl this names); [exact Hfree |].
    intros n. apply (selected_names this compilation names effects1 selected1 n Hselect). }
  destruct (names_selected this compilation names effects1 selected1 Hselect name Hin)
    as (e' & r' & Hname' & Hall).
  assert (r' = r) by congruence. subst r'. clear Hname'.
  assert (Hothers : forall asset,
             In asset selected1 -> r <> Some asset ->
             getItemCache this name src <> a_cacheItem asset).
  { intros asset Hasset Hne Heq.
    destruct (selected_In this compilation names effects1 selected1 asset Hselect Hasset)
      as [_ [e0 He0]].
    pose proof (selected_item_name this compilation names effects1 selected1 asset
                  Hselect Hasset) as Hitem.
    rewrite <- Heq in Hitem. simpl in Hitem. rewrite <- Hitem in He0. congruence. }
  destruct r as [first |].
  - pose proof (Hall first eq_refl) as Hfirst.
    destruct (decide (getItemCache this name src = a_cacheItem first)) as [Heq | Hne].
    + apply list_elem_of_In, list_elem_of_lookup in Hfirst. destruct Hfirst as [j Hj].
      destruct (pass_owner this compilation c1 names trace1 effects1 selected1 j first
                  Hpass Hselect Hnodup Hfree1 Hj) as [_ Hcache].
      rewrite Heq, Hcache. apply runTask_cache.
    + apply (pass_cache_nobody this compilation c1 names trace1 effects1 selected1);
        try assumption.
      intros asset Hasset Heq. apply (Hothers asset Hasset); [| exact Heq].
      intros [= ->]. contradiction.
  - apply (pass_cache_nobody this compilation c1 names trace1 effects1 selected1);
      try assumption.
    intros asset Hasset. now apply Hothers.
Qed.

(** The selection of a name of the pass on a rebuild after a cold first
    build: the same assets, with a cache whose lookups miss or give what
    the first pass left. *)
Lemma rebuild_selection (compilation c1 rebuild : Compilation) (names : list string)
  (trace1 : list (nat * list Effect)) (effects1 : list Effect)
  (selected1 : list AssetForCompression) (name : string) :
  pass this compilation names trace1 c1 ->
  assetsForCompression this compilation names = Normal (effects1, selected1) ->
  List.NoDup names -> collision_free this names ->
  cache compilation = [] ->
  assets rebuild = assets compilation ->
  (forall item,
      cache_get (cache rebuild) item = None
      \/ cache_get (cache rebuild) item = cache_get (cache c1) item) ->
  In name names ->
  match selectAsset this compilation name with
  | Normal (e, Some first) =>
      exists e2 second,
        selectAsset this rebuild name = Normal (e2, Some second)
        /\ a_name second = a_name first
        /\ a_source second = a_source first
        /\ a_info second = a_info first
        /\ a_relatedName second = a_relatedName first
        /\ a_cacheItem second = a_cacheItem first
        /\ a_output first = mkOutput None None
        /\ a_output second
           = default (mkOutput None None) (cache_get (cache rebuild) (a_cacheItem first))
        /\ cache_get (cache c1) (a_cacheItem first) = stored this first
        /\ (a_output second = a_output first
            \/ a_output second
               = match stored this first with
                 | Some output => output
                 | None => a_output first
                 end)
  | Normal (e, None) => selectAsset this rebuild name = Normal (e, None)
  | Throw err => selectAsset this rebuild name = Throw err
  end.
Proof.
  intros Hpass Hselect Hnodup Hfree Hcold Hassets Hcache Hin.
  pose proof (fun e r src =>
                pass_item compilation c1 names trace1 effects1 selected1 name e r src
                  Hpass Hselect Hnodup Hfree Hin) as Hitem.
  unfold selectAsset in *. rewrite Hassets. rewrite Hcold in *. simpl in *.
  destruct (assets compilation !! name) as [[src inf] |]; [| reflexivity].
  destruct (info_compressed inf); [reflexivity |].
  destruct (negb (matchObject (options this) name)); [reflexivity |].
  destruct (has_related inf (relatedName (options this))); [reflexivity |].
  destruct (number_of_length (length (source_buffer src)) <? threshold (options this))%float
    eqn:Hsmall.
  - pose proof (Hitem _ _ src eq_refl) as Hleft. simpl in Hleft.
    destruct (Hcache (getItemCache this name src)) as [-> | ->];
      [| rewrite Hleft]; reflexivity.
  - pose proof (Hitem _ _ src eq_refl) as Hleft. simpl in Hleft.
    destruct (decide (getItemCache this name src = getItemCache this name src));
      [| congruence].
    assert (Hstored : cache_get (cache c1) (getItemCache this name src)
                      = stored this
                          (mkAssetForCompression name src inf (Some (source_buffer src))
                             (mkOutput None None) (getItemCache this name src)
                             (relatedName (options this))))
      by (rewrite Hleft; now destruct (stored this _)).
    clear Hleft Hitem.
    destruct (Hcache (getItemCache this name src)) as [Hmiss | Hhit].
    + rewrite Hmiss. simpl.
      eexists. eexists. split; [reflexivity |]. simpl. rewrite Hmiss.
      repeat (split; [reflexivity |]). split; [exact Hstored |]. now left.
    + rewrite Hhit, Hstored.
      destruct (stored this _) as [output |] eqn:Houtput;
        cbn [default from_option id].
      * destruct (output_source output) eqn:Hsource.
        -- eexists. eexists. split; [reflexivity |].
           cbn [a_name a_source a_info a_relatedName a_cacheItem a_output].
           rewrite ?Hhit, ?Hstored, ?Houtput.
           repeat (split; [reflexivity |]). now right.
        -- eexists. eexists. split; [reflexivity |].
           cbn [a_name a_source a_info a_relatedName a_cacheItem a_output].
           rewrite ?Hhit, ?Hstored, ?Houtput.
           repeat (split; [reflexivity |]). now right.
      * cbn [output_source]. eexists. eexists. split; [reflexivity |].
        cbn [a_name a_source a_info a_relatedName a_cacheItem a_output].
        rewrite ?Hhit, ?Hstored, ?Houtput.
        repeat (split; [reflexivity |]). now left.
Qed.

Lemma runTask_RunAlgorithm (asset : AssetForCompression) (input : Buffer) :
  In (RunAlgorithm input) (fst (runTask this asset)) ->
  output_source (a_output asset) = None
  /\ output_compressed (a_output asset) = None
  /\ a_buffer asset = Some input.
Proof.
  intros Hin.
  assert (Hfilter : In (RunAlgorithm input)
                      (List.filter runs_algorithm (fst (runTask this asset))))
    by (apply filter_In; now split).
  rewrite runTask_runs_algorithm in Hfilter.
  destruct (output_source (a_output asset)); [easy |].
  destruct (a_buffer asset) as [buffer |]; [| easy].
  destruct (output_compressed (a_output asset)); [easy |].
  destruct Hfilter as [[= ->] | []]. now repeat split.
Qed.

(** A rebuild after a cold first build: the same assets again, with a
    cache in which every lookup misses or gives what the first pass left.
    Under any schedules of both passes the rebuild leaves the asset store
    as the first pass left it.  It invokes the algorithm only for an asset
    of the pass whose lookup gives nothing: one that misses, or one for
    which the first pass left nothing because it saw the algorithm fail on
    its content. *)
Theorem rebuild_hit_or_miss (compilation c1 rebuild c2 : Compilation)
  (names : list string) (trace1 trace2 : list (nat * list Effect)) :
  List.NoDup names -> collision_free this names ->
  cache compilation = [] ->
  pass this compilation names trace1 c1 ->
  assets rebuild = assets compilation ->
  (forall item,
      cache_get (cache rebuild) item = None
      \/ cache_get (cache rebuild) item = cache_get (cache c1) item) ->
  pass this rebuild names trace2 c2 ->
  assets c2 = assets c1
  /\ forall input,
      In (RunAlgorithm input) (flatten trace2) ->
      exists name original,
        In name names
        /\ assets compilation !! name = Some original
        /\ input = source_buffer (source original)
        /\ cache_get (cache rebuild) (getItemCache this name (source original)) = None
        /\ (cache_get (cache c1) (getItemCache this name (source original)) = None ->
            exists error,
              runCompressionAlgorithm this input = Throw error
              /\ In (PushError error) (flatten trace1)).
Proof.
  intros Hnodup Hfree Hcold Hpass1 Hassets Hcache Hpass2.
  destruct (pass_projection this _ _ _ _ Hpass1)
    as (effects1 & selected1 & Hselect1 & _).
  destruct (pass_projection this _ _ _ _ Hpass2)
    as (effects2 & selected2 & Hselect2 & _).
  assert (Hfree1 : collision_free this (map a_name selected1)).
  { apply (collision_free_incl this names); [exact Hfree |].
    intros n. apply (selected_names this compilation names effects1 selected1 n Hselect1). }
  assert (Hfree2 : collision_free this (map a_name selected2)).
  { apply (collision_free_incl this names); [exact Hfree |].
    intros n. apply (selected_names this rebuild names effects2 selected2 n Hselect2). }
  (* every task of the rebuild has its task of the first build *)
  assert (Hback : forall second,
             In second selected2 ->
             exists first,
               In first selected1
               /\ a_name second = a_name first
               /\ a_source second = a_source first
               /\ a_cacheItem second = a_cacheItem first
               /\ emitted this second = emitted this first
               /\ (forall src, emit this second src = emit this first src)
               /\ a_output first = mkOutput None None
               /\ a_output second
                  = default (mkOutput None None)
                      (cache_get (cache rebuild) (a_cacheItem first))
               /\ cache_get (cache c1) (a_cacheItem first) = stored this first
               /\ a_buffer first = Some (source_buffer (a_source first))).
  { intros second Hin.
    destruct (selected_In this rebuild names effects2 selected2 second Hselect2 Hin)
      as [Hname [e2 He2]].
    pose proof (rebuild_selection compilation c1 rebuild names trace1 effects1 selected1
                  (a_name second) Hpass1 Hselect1 Hnodup Hfree Hcold Hassets Hcache Hname)
      as Hrebuild.
    destruct (names_selected this compilation names effects1 selected1 Hselect1
                (a_name second) Hname) as (e & r & Hr & Hall).
    rewrite Hr in Hrebuild. destruct r as [first |]; [| congruence].
    destruct Hrebuild
      as (e2' & second' & He2' & Hn & Hs & Hi & Hrel & Hitem & Hnone & Hout & Hleft & Hcase).
    assert (second' = second) by congruence. subst second'.
    pose proof (selectAsset_buffer this compilation _ e first Hr) as Hb1.
    pose proof (selectAsset_buffer this rebuild _ e2 second He2) as Hb2.
    rewrite Hs in Hb2.
    exists first. split; [now apply Hall |]. split; [exact Hn |].
    split; [exact Hs |]. split; [exact Hitem |].
    split; [| split; [| split; [exact Hnone | split; [exact Hout | split; [exact Hleft |]]]]].
    - destruct Hcase as [Hsame | Hstored].
      + unfold emitted, compressed_of. rewrite Hsame, Hb1, Hb2, Hsame. reflexivity.
      + now apply (emitted_again this first second (source_buffer (a_source first))).
    - intros src. apply emit_ext; try assumption. now rewrite Hi.
    - rewrite Hb1, Hnone. reflexivity. }
  (* and every task of the first build has its task of the rebuild *)
  assert (Hforth : forall first,
             In first selected1 ->
             exists second, In second selected2 /\ a_name second = a_name first).
  { intros first Hin.
    destruct (selected_In this compilation names effects1 selected1 first Hselect1 Hin)
      as [Hname [e He]].
    pose proof (rebuild_selection compilation c1 rebuild names trace1 effects1 selected1
                  (a_name first) Hpass1 Hselect1 Hnodup Hfree Hcold Hassets Hcache Hname)
      as Hrebuild.
    rewrite He in Hrebuild.
    destruct Hrebuild as (e2 & second & He2 & Hn & _).
    destruct (names_selected this rebuild names effects2 selected2 Hselect2
                (a_name first) Hname) as (e2' & r & Hr & Hall).
    exists second. split; [| exact Hn]. apply Hall. congruence. }
  split.
  - apply map_eq. intros name.
    destruct (owner_or_nobody this selected2 name) as [(second & Hin & Hname) | Hnone].
    + destruct (Hback second Hin) as (first & Hin1 & Hn & _ & _ & Hemitted & Hemit & _).
      apply list_elem_of_In, list_elem_of_lookup in Hin. destruct Hin as [j2 Hj2].
      apply list_elem_of_In, list_elem_of_lookup in Hin1. destruct Hin1 as [j1 Hj1].
      destruct (pass_owner this rebuild c2 names trace2 effects2 selected2 j2 second
                  Hpass2 Hselect2 Hnodup Hfree2 Hj2) as [Hafter2 _].
      destruct (pass_owner this compilation c1 names trace1 effects1 selected1 j1 first
                  Hpass1 Hselect1 Hnodup Hfree1 Hj1) as [Hafter1 _].
      rewrite (Hafter2 name Hname). rewrite Hn in Hname. rewrite (Hafter1 name Hname).
      rewrite !runTask_assets, Hemitted, Hassets.
      destruct (emitted this first); [now rewrite Hemit | reflexivity].
    + rewrite (pass_nobody this rebuild c2 names trace2 effects2 selected2 name
                 Hpass2 Hselect2 Hnone), Hassets.
      symmetry.
      apply (pass_nobody this compilation c1 names trace1 effects1 selected1 name
               Hpass1 Hselect1).
      intros first Hin1. destruct (Hforth first Hin1) as (second & Hin2 & Hn).
      rewrite <- Hn. now apply Hnone.
  - intros input Hin.
    destruct (pass_effect_owner this _ _ _ _ _ _ _ Hpass2 Hselect2 Hin)
      as (second & Hsecond & Hrun).
    destruct (runTask_RunAlgorithm second input Hrun) as (Hsource2 & Hcompressed2 & Hbuffer2).
    destruct (Hback second Hsecond)
      as (first & Hfirst & Hn & Hs & Hitem & _ & _ & Hnone & Hout & Hleft & Hb1).
    destruct (selected_original this compilation names effects1 selected1 first
                Hselect1 Hfirst)
      as (original & Hname & Horiginal & Hsource & _ & Hkey & _).
    assert (Hinput : input = source_buffer (source original)).
    { destruct (selected_In this rebuild names effects2 selected2 second Hselect2 Hsecond)
        as [_ [e2 He2]].
      pose proof (selectAsset_buffer this rebuild _ e2 second He2) as Hb2.
      rewrite Hsource2, Hbuffer2, Hs, Hsource in Hb2. congruence. }
    assert (Hstored : stored this first
                      = match runCompressionAlgorithm this (source_buffer (a_source first)) with
                        | Throw _ => None
                        | Normal compressed =>
                            Some (if ratio_exceeds this compressed
                                       (source_buffer (a_source first))
                                  then mkOutput None (Some compressed)
                                  else mkOutput (Some (RawSource compressed))
                                         (Some compressed))
                        end).
    { unfold stored, compressed_of. now rewrite Hnone, Hb1. }
    exists (a_name first), original. split; [exact Hname |]. split; [exact Horiginal |].
    split; [exact Hinput |]. rewrite <- Hkey.
    assert (Hmiss : cache_get (cache rebuild) (a_cacheItem first) = None).
    { destruct (Hcache (a_cacheItem first)) as [Hmiss | Hhit]; [exact Hmiss |].
      rewrite Hhit, Hleft, Hstored in Hout. rewrite Hhit, Hleft, Hstored.
      destruct (runCompressionAlgorithm this (source_buffer (a_source first)))
        as [compressed | error]; [| reflexivity].
      simpl in Hout. rewrite Hout in Hcompressed2.
      destruct (ratio_exceeds this compressed (source_buffer (a_source first)));
        discriminate. }
    split; [exact Hmiss |].
    intros Hnothing. rewrite Hleft, Hstored in Hnothing. rewrite Hinput, <- Hsource.
    destruct (runCompressionAlgorithm this (source_buffer (a_source first)))
      as [compressed | error] eqn:Halgorithm; [discriminate |].
    exists error. split; [reflexivity |].
    apply (pass_task_effect this compilation c1 names trace1 effects1 selected1 first);
      try assumption.
    rewrite runTask_effects, Hnone, Hb1. unfold compressed_of.
    rewrite Hnone. simpl. rewrite Halgorithm. right. now left.
Qed.

End RebuildFacts.

(** ** The flag in the stats *)

Section ApplyFacts.
Context `{Host}.
Variable this : CompressionPlugin.

(** The flag the stats show follows the emission.  After a pass without
    collisions, under any schedule, the tap on the print hook for
    [asset.info.compressed] gives the green [compressed] flag for the
    derived asset of every task that emitted, and the empty string for its
    original, if the original is kept. *)
Theorem compressed_flag_is_printed (context : StatsPrinterContext)
  (compilation c : Compilation) (names : list string)
  (trace : list (nat * list Effect)) (effects : list Effect)
  (selected : list AssetForCompression) (asset : AssetForCompression)
  (emitted_source : Source) :
  pass this compilation names trace c ->
  assetsForCompression this compilation names = Normal (effects, selected) ->
  List.NoDup names -> collision_free this names ->
  In asset selected ->
  emitted this asset = Some emitted_source ->
  shown this context c (derived this (a_name asset))
  = Some (green context (formatFlag context "compressed"))
  /\ (shown this context c (a_name asset) = None \/ shown this context c (a_name asset) = Some "").
Proof.
  intros Hpass Hselect Hnodup Hfree Hin Hemitted.
  assert (Hfree1 : collision_free this (map a_name selected)).
  { apply (collision_free_incl this names); [exact Hfree |].
    intros n. apply (selected_names this compilation names effects selected n Hselect). }
  destruct (pass_original this compilation c names trace effects selected asset Hpass
              Hselect Hnodup Hfree Hin) as (original & Horiginal & _ & Hafter).
  destruct (selected_In this compilation names effects selected asset Hselect Hin)
    as [_ [e He]].
  destruct (selectAsset_output this compilation _ e asset He)
    as (original' & Horiginal' & _ & _ & _ & _ & _ & Hplain & _).
  assert (original' = original) by congruence. subst original'.
  pose proof Hin as Hin'.
  apply list_elem_of_In, list_elem_of_lookup in Hin'. destruct Hin' as [j Hj].
  destruct (pass_owner this compilation c names trace effects selected j asset
              Hpass Hselect Hnodup Hfree1 Hj) as [Hassets _].
  split.
  - unfold shown, apply. rewrite (Hassets _ (or_intror eq_refl)), runTask_assets, Hemitted.
    rewrite emit_derived. reflexivity.
  - unfold shown, apply. rewrite Hafter, Hemitted.
    destruct (deleteOriginalAssets (options this)) as [[|] | | fn];
      try (left; reflexivity).
    + right. simpl. now rewrite Hplain.
    + destruct (fn (a_name asset)); [left; reflexivity |].
      right. simpl. now rewrite Hplain.
Qed.

End ApplyFacts.

(** ** The scenarios of these properties, run *)

Example constructor_brotli :
  @constructor Node.host
    (Some (mkPluginOptions None None None (Some (AlgorithmName "brotliCompress"))
             None None None None None))
  = Normal Scenario.brotli_plugin.
Proof. vm_compute. reflexivity. Qed.

Lemma NoDup_one (name : string) : List.NoDup [name].
Proof. constructor; [simpl; tauto | constructor]. Qed.

Lemma collision_free_app_js (this : CompressionPlugin) :
  @derived Node.host this "app.js" <> "app.js" ->
  @collision_free Node.host this ["app.js"].
Proof.
  intros Hfresh. split.
  - intros a b [<- | []] [<- | []] _. reflexivity.
  - intros a b [<- | []] [<- | []]. exact Hfresh.
Qed.

Lemma pass_frame_scenario :
  let names := ["bad.js"; "app.js"; "old.gz"] in
  let run := Scenario.resumed Scenario.picky_plugin [1; 0; 1]%nat
               Scenario.three_assets names in
  @pass Node.host Scenario.picky_plugin Scenario.three_assets names (fst run) (snd run)
  /\ assets (snd run) !! "old.gz" = Some Scenario.old_gz
  /\ errors (snd run) = [mkError "bad input"].
Proof.
  intros names run.
  assert (Hpass : @pass Node.host Scenario.picky_plugin Scenario.three_assets names
                    (fst run) (snd run)).
  { apply (@compressInOrder_pass Node.host Scenario.picky_plugin [1; 0; 1]%nat).
    vm_compute. reflexivity. }
  split; [exact Hpass |].
  assert (Hnodup : List.NoDup names)
    by (repeat constructor; simpl; intuition discriminate).
  assert (Hfree : @collision_free Node.host Scenario.picky_plugin names).
  { split.
    - intros a b [<- | [<- | [<- | []]]] [<- | [<- | [<- | []]]]; try reflexivity;
        vm_compute; discriminate.
    - intros a b [<- | [<- | [<- | []]]] [<- | [<- | [<- | []]]];
        vm_compute; discriminate. }
  assert (Hderived_free : @derived_free Node.host Scenario.picky_plugin
                            Scenario.three_assets names)
    by (intros name [<- | [<- | [<- | []]]]; vm_compute; reflexivity).
  destruct (@pass_frame Node.host Scenario.picky_plugin Scenario.three_assets (snd run)
              names (fst run) Hnodup Hfree Hderived_free (or_introl eq_refl) Hpass)
    as (Hframe & Herrors & _).
  split.
  - rewrite (Hframe "old.gz").
    + reflexivity.
    + right. exists []. vm_compute. reflexivity.
    + intros other [<- | [<- | [<- | []]]]; vm_compute; discriminate.
  - rewrite Herrors. vm_compute. reflexivity.
Defined.

Lemma pass_emits_compression_scenario :
  exists trace,
    @pass Node.host Scenario.gzip_plugin Scenario.first_build ["app.js"] trace
      (Scenario.after_first Scenario.gzip_plugin)
    /\ cache_sound Scenario.gzip_plugin (cache (Scenario.after_first Scenario.gzip_plugin))
    /\ forall name emitted_source emitted_info,
        In (EmitAsset name emitted_source emitted_info) (flatten trace) ->
        name = "app.js.gz" /\ emitted_source = RawSource Scenario.compressed_zeros.
Proof.
  destruct (@compress_pass Node.host Scenario.gzip_plugin Scenario.first_build
              ["app.js"]
              [GetItem (Scenario.item "app.js" Scenario.zeros);
               ReadBuffer (WebpackSource Scenario.zeros)]
              [Scenario.app_js_selected] ltac:(vm_compute; reflexivity))
    as (trace & c & Hc & Hpass).
  assert (Hafter : c = Scenario.after_first Scenario.gzip_plugin)
    by (unfold Scenario.after_first; now rewrite Hc).
  subst c. exists trace. split; [exact Hpass |].
  assert (Hempty : cache_sound Scenario.gzip_plugin (cache Scenario.first_build))
    by (intros item output _ _ Hget; discriminate).
  destruct (@pass_emits_compression Node.host Scenario.gzip_plugin Scenario.first_build
              _ ["app.js"] trace Hempty Hpass) as [Hsound Hemits].
  split; [exact Hsound |].
  intros name emitted_source emitted_info Hin.
  destruct (Hemits name emitted_source emitted_info Hin)
    as (original_name & original & compressed & [<- | []] & Horiginal & -> & -> & Hrun & _).
  assert (Hlookup : assets Scenario.first_build !! "app.js" = Some Scenario.app_js)
    by (vm_compute; reflexivity).
  assert (Hbound : original = Scenario.app_js) by congruence.
  subst original. split; [reflexivity |].
  assert (Hzeros : @runCompressionAlgorithm Scenario.gzip_plugin Scenario.zeros
                   = Normal Scenario.compressed_zeros)
    by (vm_compute; reflexivity).
  simpl in Hrun. congruence.
Defined.

Lemma collision_free_two_assets :
  @collision_free Node.host Scenario.picky_plugin ["bad.js"; "app.js"].
Proof.
  split.
  - intros a b [<- | [<- | []]] [<- | [<- | []]]; try reflexivity;
      vm_compute; discriminate.
  - intros a b [<- | [<- | []]] [<- | [<- | []]]; vm_compute; discriminate.
Qed.

Lemma pass_confluent_scenario :
  let names := ["bad.js"; "app.js"] in
  let run1 := Scenario.resumed Scenario.picky_plugin [0; 1; 1]%nat
                Scenario.two_assets names in
  let run2 := Scenario.resumed Scenario.picky_plugin [1; 1; 0]%nat
                Scenario.two_assets names in
  fst run1 <> fst run2
  /\ @compress Node.host Scenario.picky_plugin Scenario.two_assets names = Normal run1
  /\ @pass Node.host Scenario.picky_plugin Scenario.two_assets names (fst run2) (snd run2)
  /\ assets (snd run1) = assets (snd run2)
  /\ Permutation (errors (snd run1)) (errors (snd run2)).
Proof.
  intros names run1 run2.
  assert (Hpass1 : @pass Node.host Scenario.picky_plugin Scenario.two_assets names
                     (fst run1) (snd run1)).
  { apply (@compressInOrder_pass Node.host Scenario.picky_plugin [0; 1; 1]%nat).
    vm_compute. reflexivity. }
  assert (Hpass2 : @pass Node.host Scenario.picky_plugin Scenario.two_assets names
                     (fst run2) (snd run2)).
  { apply (@compressInOrder_pass Node.host Scenario.picky_plugin [1; 1; 0]%nat).
    vm_compute. reflexivity. }
  destruct (@pass_confluent Node.host Scenario.picky_plugin Scenario.two_assets
              (snd run1) (snd run2) names (fst run1) (fst run2) Hpass1 Hpass2)
    as (_ & Herrors & Hstore).
  destruct (Hstore ltac:(repeat constructor; simpl; intuition discriminate)
              collision_free_two_assets) as (Hassets & _).
  split; [vm_compute; discriminate |].
  split; [vm_compute; reflexivity |].
  split; [exact Hpass2 |]. split; [exact Hassets | exact Herrors].
Defined.

Lemma cached_pass_is_synchronous_scenario :
  exists trace c,
    @compress Node.host Scenario.gzip_plugin Scenario.later_build ["app.js"]
    = Normal (trace, c)
    /\ (forall trace' c',
          @pass Node.host Scenario.gzip_plugin Scenario.later_build ["app.js"] trace' c' ->
          trace' = trace /\ c' = c)
    /\ cache c = cache Scenario.later_build.
Proof.
  assert (Hselect :
            @assetsForCompression Node.host Scenario.gzip_plugin Scenario.later_build
              ["app.js"]
            = Normal ([GetItem (Scenario.item "app.js" Scenario.zeros)],
                      [Scenario.app_js_cached]))
    by (vm_compute; reflexivity).
  assert (Hcached : forall asset,
             In asset [Scenario.app_js_cached] -> output_source (a_output asset) <> None)
    by (intros asset [<- | []]; discriminate).
  destruct (@compress_pass Node.host Scenario.gzip_plugin Scenario.later_build
              ["app.js"] _ _ Hselect) as (trace & c & Hc & Hpass).
  exists trace, c. split; [exact Hc |]. split.
  - intros trace' c' Hpass'.
    destruct (@cached_pass_is_synchronous Node.host Scenario.gzip_plugin
                Scenario.later_build c' ["app.js"] _ _ trace' Hselect Hcached Hpass')
      as (Hsame & _).
    rewrite Hc in Hsame. inversion Hsame; subst. split; reflexivity.
  - destruct (@cached_pass_is_synchronous Node.host Scenario.gzip_plugin
                Scenario.later_build c ["app.js"] _ _ trace Hselect Hcached Hpass)
      as (_ & _ & _ & _ & Hcache).
    exact Hcache.
Defined.

Lemma keep_policy_scenario :
  exists trace kept related,
    @pass Node.host Scenario.gzip_plugin Scenario.first_build ["app.js"] trace
      (Scenario.after_first Scenario.gzip_plugin)
    /\ assets (Scenario.after_first Scenario.gzip_plugin) !! "app.js" = Some kept
    /\ source kept = WebpackSource Scenario.zeros
    /\ info_related (info kept) = Some related
    /\ related !! "gzipped" = Some (RelatedFile "app.js.gz").
Proof.
  assert (Hselect :
            @assetsForCompression Node.host Scenario.gzip_plugin Scenario.first_build
              ["app.js"]
            = Normal ([GetItem (Scenario.item "app.js" Scenario.zeros);
                       ReadBuffer (WebpackSource Scenario.zeros)],
                      [Scenario.app_js_selected]))
    by (vm_compute; reflexivity).
  destruct (@compress_pass Node.host Scenario.gzip_plugin Scenario.first_build
              ["app.js"] _ _ Hselect) as (trace & c & Hc & Hpass).
  assert (Hafter : c = Scenario.after_first Scenario.gzip_plugin)
    by (unfold Scenario.after_first; rewrite Hc; reflexivity).
  subst c.
  assert (Hfree : @collision_free Node.host Scenario.gzip_plugin ["app.js"])
    by (apply collision_free_app_js; vm_compute; discriminate).
  assert (Hemitted : emitted Scenario.gzip_plugin Scenario.app_js_selected <> None)
    by (vm_compute; discriminate).
  destruct (@keep_policy Node.host Scenario.gzip_plugin Scenario.first_build
              (Scenario.after_first Scenario.gzip_plugin) ["app.js"] trace _ _
              Scenario.app_js_selected eq_refl Hpass Hselect (NoDup_one "app.js") Hfree
              (or_introl eq_refl))
    as (_ & original & Horiginal & _ & Hkept).
  destruct (Hkept Hemitted)
    as (kept & related & Hbound & Hsource & _ & _ & Hrelated & Hset & _).
  assert (Hsame : Some original = Some Scenario.app_js)
    by (rewrite <- Horiginal; vm_compute; reflexivity).
  inversion Hsame; subst original.
  exists trace, kept, related. split; [exact Hpass |]. split; [exact Hbound |].
  split; [exact Hsource |]. split; [exact Hrelated |]. exact Hset.
Defined.

Lemma zero_threshold_drops_nothing_scenario :
  exists effects asset,
    @selectAsset Node.host Scenario.gzip_plugin Scenario.empty_build "empty.js"
    = Normal (effects, Some asset)
    /\ a_name asset = "empty.js"
    /\ a_source asset = WebpackSource [].
Proof.
  destruct (@zero_threshold_drops_nothing Node.host Scenario.gzip_plugin
              Scenario.empty_build "empty.js" Scenario.empty_js
              (or_intror (ex_intro _ None (conj constructor_default eq_refl)))
              eq_refl eq_refl eq_refl eq_refl)
    as (effects & asset & Hselect & Hname & Hsource & _).
  exists effects, asset. split; [exact Hselect |]. split; [exact Hname | exact Hsource].
Defined.

Lemma empty_result_is_accepted_scenario :
  ratio_exceeds Scenario.gzip_plugin [] [] = false
  /\ forall trace c,
      @pass Node.host Scenario.gzip_plugin Scenario.empty_build ["empty.js"] trace c ->
      In (EmitAsset "empty.js.gz" (RawSource []) Scenario.derived_info) (flatten trace).
Proof.
  assert (Hselect :
            @assetsForCompression Node.host Scenario.gzip_plugin Scenario.empty_build
              ["empty.js"]
            = Normal ([GetItem (Scenario.item "empty.js" []); ReadBuffer (WebpackSource [])],
                      [Scenario.empty_js_selected]))
    by (vm_compute; reflexivity).
  destruct (@empty_result_is_accepted Node.host Scenario.gzip_plugin
              Scenario.empty_build ["empty.js"] _ _ Scenario.empty_js_selected
              Hselect (or_introl eq_refl) eq_refl eq_refl eq_refl)
    as (Hratio & _ & Hemits).
  split; [exact Hratio | exact Hemits].
Defined.

Lemma plugins_do_not_interfere_scenario :
  exists trace effects asset,
    @pass Node.host Scenario.gzip_plugin Scenario.first_build ["app.js"] trace
      (Scenario.after_first Scenario.gzip_plugin)
    /\ @selectAsset Node.host Scenario.brotli_plugin
         (Scenario.after_first Scenario.gzip_plugin) "app.js"
       = Normal (effects, Some asset)
    /\ a_buffer asset = Some Scenario.zeros
    /\ @selectAsset Node.host Scenario.brotli_plugin
         (Scenario.after_first Scenario.gzip_plugin) "app.js.gz"
       = Normal ([], None).
Proof.
  assert (Hselect :
            @assetsForCompression Node.host Scenario.gzip_plugin Scenario.first_build
              ["app.js"]
            = Normal ([GetItem (Scenario.item "app.js" Scenario.zeros);
                       ReadBuffer (WebpackSource Scenario.zeros)],
                      [Scenario.app_js_selected]))
    by (vm_compute; reflexivity).
  destruct (@compress_pass Node.host Scenario.gzip_plugin Scenario.first_build
              ["app.js"] _ _ Hselect) as (trace & c & Hc & Hpass).
  assert (Hafter : c = Scenario.after_first Scenario.gzip_plugin)
    by (unfold Scenario.after_first; rewrite Hc; reflexivity).
  subst c.
  assert (Hfree : @collision_free Node.host Scenario.gzip_plugin ["app.js"])
    by (apply collision_free_app_js; vm_compute; discriminate).
  assert (Hnames : @relatedName Node.host (options Scenario.gzip_plugin)
                   <> @relatedName Node.host (options Scenario.brotli_plugin))
    by (vm_compute; discriminate).
  assert (Hitems : serialize_algorithm (algorithm (options Scenario.gzip_plugin))
                   <> serialize_algorithm (algorithm (options Scenario.brotli_plugin))
                   \/ compressionOptions (options Scenario.gzip_plugin)
                      <> compressionOptions (options Scenario.brotli_plugin))
    by (left; vm_compute; discriminate).
  destruct (@plugins_do_not_interfere Node.host Scenario.gzip_plugin
              Scenario.brotli_plugin Scenario.first_build
              (Scenario.after_first Scenario.gzip_plugin) ["app.js"] trace
              Hnames Hitems eq_refl (NoDup_one "app.js") Hfree Hpass)
    as [Hsame Hskips].
  assert (Hbefore :
            @selectAsset Node.host Scenario.brotli_plugin Scenario.first_build "app.js"
            = Normal ([GetItem (@getItemCache Scenario.brotli_plugin "app.js"
                                  (WebpackSource Scenario.zeros));
                       ReadBuffer (WebpackSource Scenario.zeros)],
                      Some (mkAssetForCompression "app.js" (WebpackSource Scenario.zeros)
                              Scenario.plain_info (Some Scenario.zeros)
                              (mkOutput None None)
                              (@getItemCache Scenario.brotli_plugin "app.js"
                                 (WebpackSource Scenario.zeros))
                              "brotliCompressed")))
    by (vm_compute; reflexivity).
  pose proof (Hsame "app.js" (or_introl eq_refl)) as Happ.
  rewrite Hbefore in Happ.
  destruct Happ as (asset & Hafter & _ & _ & Hbuffer & _).
  assert (Hemitted : emitted Scenario.gzip_plugin Scenario.app_js_selected
                     = Some (RawSource Scenario.compressed_zeros))
    by (vm_compute; reflexivity).
  destruct (Hskips _ _ Scenario.app_js_selected _ Hselect (or_introl eq_refl) Hemitted)
    as [_ Hskip].
  eexists. eexists. exists asset. split; [exact Hpass |]. split; [exact Hafter |].
  split; [exact Hbuffer | exact Hskip].
Defined.

Lemma additional_assets_are_skipped_scenario :
  exists trace,
    @pass Node.host Scenario.gzip_plugin Scenario.first_build ["app.js"] trace
      (Scenario.after_first Scenario.gzip_plugin)
    /\ @compress Node.host Scenario.gzip_plugin
         (Scenario.after_first Scenario.gzip_plugin) ["app.js.gz"]
       = Normal ([], Scenario.after_first Scenario.gzip_plugin).
Proof.
  assert (Hselect :
            @assetsForCompression Node.host Scenario.gzip_plugin Scenario.first_build
              ["app.js"]
            = Normal ([GetItem (Scenario.item "app.js" Scenario.zeros);
                       ReadBuffer (WebpackSource Scenario.zeros)],
                      [Scenario.app_js_selected]))
    by (vm_compute; reflexivity).
  destruct (@compress_pass Node.host Scenario.gzip_plugin Scenario.first_build
              ["app.js"] _ _ Hselect) as (trace & c & Hc & Hpass).
  assert (Hafter : c = Scenario.after_first Scenario.gzip_plugin)
    by (unfold Scenario.after_first; rewrite Hc; reflexivity).
  subst c. exists trace. split; [exact Hpass |].
  assert (Hfree : @collision_free Node.host Scenario.gzip_plugin ["app.js"])
    by (apply collision_free_app_js; vm_compute; discriminate).
  destruct (@additional_assets_are_skipped Node.host Scenario.gzip_plugin
              Scenario.first_build (Scenario.after_first Scenario.gzip_plugin)
              ["app.js"] ["app.js.gz"] trace (NoDup_one "app.js") Hfree Hpass)
    as (_ & _ & Hcompress & _).
  - intros name [<- | []]. split; [vm_compute; reflexivity |].
    eexists. vm_compute. reflexivity.
  - exact Hcompress.
Defined.

Lemma rebuild_hit_or_miss_scenario :
  exists trace1 hit miss c_hit c_miss,
    @pass Node.host Scenario.delete_plugin Scenario.first_build ["app.js"] trace1
      (Scenario.after_first Scenario.delete_plugin)
    /\ @pass Node.host Scenario.delete_plugin (Scenario.rebuild Scenario.delete_plugin)
         ["app.js"] hit c_hit
    /\ @pass Node.host Scenario.delete_plugin
         (mkCompilation (assets Scenario.first_build) [] []) ["app.js"] miss c_miss
    /\ assets c_hit = assets (Scenario.after_first Scenario.delete_plugin)
    /\ assets c_miss = assets (Scenario.after_first Scenario.delete_plugin)
    /\ (forall input, ~ In (RunAlgorithm input) (flatten hit))
    /\ In (RunAlgorithm Scenario.zeros) (flatten miss).
Proof.
  assert (Hselect :
            @assetsForCompression Node.host Scenario.delete_plugin Scenario.first_build
              ["app.js"]
            = Normal ([GetItem (Scenario.item "app.js" Scenario.zeros);
                       ReadBuffer (WebpackSource Scenario.zeros)],
                      [Scenario.app_js_selected]))
    by (vm_compute; reflexivity).
  destruct (@compress_pass Node.host Scenario.delete_plugin Scenario.first_build
              ["app.js"] _ _ Hselect) as (trace1 & c & Hc & Hpass1).
  assert (Hafter : c = Scenario.after_first Scenario.delete_plugin)
    by (unfold Scenario.after_first; rewrite Hc; reflexivity).
  subst c.
  assert (Hselect2 :
            @assetsForCompression Node.host Scenario.delete_plugin
              (Scenario.rebuild Scenario.delete_plugin) ["app.js"]
            = Normal ([GetItem (Scenario.item "app.js" Scenario.zeros)],
                      [Scenario.app_js_cached]))
    by (vm_compute; reflexivity).
  destruct (@compress_pass Node.host Scenario.delete_plugin
              (Scenario.rebuild Scenario.delete_plugin) ["app.js"] _ _ Hselect2)
    as (hit & c_hit & _ & Hpass_hit).
  destruct (@compress_pass Node.host Scenario.delete_plugin
              (mkCompilation (assets Scenario.first_build) [] []) ["app.js"] _ _ Hselect)
    as (miss & c_miss & _ & Hpass_miss).
  assert (Hfree : @collision_free Node.host Scenario.delete_plugin ["app.js"])
    by (apply collision_free_app_js; vm_compute; discriminate).
  destruct (@rebuild_hit_or_miss Node.host Scenario.delete_plugin Scenario.first_build
              (Scenario.after_first Scenario.delete_plugin)
              (Scenario.rebuild Scenario.delete_plugin) c_hit ["app.js"] trace1 hit
              (NoDup_one "app.js") Hfree eq_refl Hpass1 eq_refl
              (fun item => or_intror eq_refl) Hpass_hit)
    as [Hassets_hit Hruns].
  destruct (@rebuild_hit_or_miss Node.host Scenario.delete_plugin Scenario.first_build
              (Scenario.after_first Scenario.delete_plugin)
              (mkCompilation (assets Scenario.first_build) [] []) c_miss ["app.js"]
              trace1 miss
              (NoDup_one "app.js") Hfree eq_refl Hpass1 eq_refl
              (fun item => or_introl eq_refl) Hpass_miss)
    as [Hassets_miss _].
  exists trace1, hit, miss, c_hit, c_miss.
  split; [exact Hpass1 |]. split; [exact Hpass_hit |]. split; [exact Hpass_miss |].
  split; [exact Hassets_hit |]. split; [exact Hassets_miss |]. split.
  - intros input Hin.
    destruct (Hruns input Hin) as (name & original & [<- | []] & Horiginal & _ & Hmiss & _).
    assert (Hsame : Some original = Some Scenario.app_js)
      by (rewrite <- Horiginal; vm_compute; reflexivity).
    inversion Hsame; subst original. vm_compute in Hmiss. discriminate.
  - apply (@pass_task_effect Node.host Scenario.delete_plugin _ _ _ _ _ _
             Scenario.app_js_selected _ Hpass_miss Hselect (or_introl eq_refl)).
    vm_compute. now left.
Defined.

Lemma constructor_is_idempotent_scenario :
  @constructor Node.host None = Normal Scenario.gzip_plugin
  /\ @constructor Node.host (Some (spelled_out Scenario.gzip_options))
     = Normal Scenario.gzip_plugin.
Proof.
  split; [exact constructor_default |].
  apply (@constructor_is_idempotent Node.host None Scenario.gzip_plugin
           constructor_default eq_refl).
Defined.

Lemma compressed_flag_is_printed_scenario :
  let context := mkStatsPrinterContext (fun text => "<green>" +:+ text)
                   (fun flag => "[" +:+ flag +:+ "]") in
  exists trace,
    @pass Node.host Scenario.gzip_plugin Scenario.first_build ["app.js"] trace
      (Scenario.after_first Scenario.gzip_plugin)
    /\ @shown Node.host Scenario.gzip_plugin context
         (Scenario.after_first Scenario.gzip_plugin) "app.js.gz"
       = Some "<green>[compressed]"
    /\ @shown Node.host Scenario.gzip_plugin context
         (Scenario.after_first Scenario.gzip_plugin) "app.js"
       = Some "".
Proof.
  intros context.
  assert (Hselect :
            @assetsForCompression Node.host Scenario.gzip_plugin Scenario.first_build
              ["app.js"]
            = Normal ([GetItem (Scenario.item "app.js" Scenario.zeros);
                       ReadBuffer (WebpackSource Scenario.zeros)],
                      [Scenario.app_js_selected]))
    by (vm_compute; reflexivity).
  destruct (@compress_pass Node.host Scenario.gzip_plugin Scenario.first_build
              ["app.js"] _ _ Hselect) as (trace & c & Hc & Hpass).
  assert (Hafter : c = Scenario.after_first Scenario.gzip_plugin)
    by (unfold Scenario.after_first; rewrite Hc; reflexivity).
  subst c. exists trace. split; [exact Hpass |].
  assert (Hfree : @collision_free Node.host Scenario.gzip_plugin ["app.js"])
    by (apply collision_free_app_js; vm_compute; discriminate).
  assert (Hemitted : emitted Scenario.gzip_plugin Scenario.app_js_selected
                     = Some (RawSource Scenario.compressed_zeros))
    by (vm_compute; reflexivity).
  destruct (@compressed_flag_is_printed Node.host Scenario.gzip_plugin context
              Scenario.first_build (Scenario.after_first Scenario.gzip_plugin)
              ["app.js"] trace _ _ Scenario.app_js_selected _ Hpass Hselect
              (NoDup_one "app.js") Hfree (or_introl eq_refl) Hemitted)
    as [Hderived _].
  split; [exact Hderived |]. vm_compute. reflexivity.
Defined.
